(** * Gemini Web Scraper CLI: request orchestrator, session state, dispatcher

    A shallow embedding of the terminal interpreter (cli.mjs: [loadState],
    [saveState], [scrapeWithGrounding], [wordWrap], [processCommand],
    [main]) and of the browser variant (services/geminiService.ts,
    components/Terminal.tsx), with the properties of the specification
    proved or refuted on it, and further properties of the code.

    Conventions.
    - A JavaScript string is a [string]: a sequence of code units, here the
      code units 0..255.  Code units above 255 are not represented.
    - A JavaScript array of strings is a [list string].
    - [undefined] is [None] of an option type.
    - Every observable effect (backend call, timer, console line) is an
      [Event] appended to the world's trace, in program order; the state
      file is the [disk] of the world. *)

From Stdlib Require Import String Ascii List ZArith Lia Bool Arith.
From Stdlib Require Import DecimalString.
Import ListNotations.

Local Open Scope string_scope.
Local Open Scope list_scope.
Local Open Scope nat_scope.

(* ================================================================== *)
(** * JavaScript strings *)
(* ================================================================== *)

Module JsString.

(** The double-quote character, for literals that contain one. *)
Definition dquote : string := String (ascii_of_nat 34) EmptyString.

(** The line feed. *)
Definition LF : string := String (ascii_of_nat 10) EmptyString.

(** [WhiteSpace] and [LineTerminator] code units below 256: TAB, LF, VT,
    FF, CR, SP and NBSP.  This is the set [String.prototype.trim]
    strips. *)
Definition isWhiteSpace (c : ascii) : bool :=
  let n := nat_of_ascii c in
  (((9 <=? n) && (n <=? 13)) || (n =? 32) || (n =? 160))%nat.

Fixpoint trimStart (s : string) : string :=
  match s with
  | EmptyString => EmptyString
  | String c rest => if isWhiteSpace c then trimStart rest else s
  end.

Fixpoint trimEnd (s : string) : string :=
  match s with
  | EmptyString => EmptyString
  | String c rest =>
      match trimEnd rest with
      | EmptyString => if isWhiteSpace c then EmptyString
                       else String c EmptyString
      | kept => String c kept
      end
  end.

(** [s.trim()] *)
Definition trim (s : string) : string := trimEnd (trimStart s).

(** [arr.join(sep)] on an array of strings. *)
Fixpoint join (sep : string) (arr : list string) : string :=
  match arr with
  | [] => EmptyString
  | [x] => x
  | x :: rest => (x ++ sep ++ join sep rest)%string
  end.

(** [s.startsWith(t)] *)
Fixpoint startsWith (s t : string) : bool :=
  match t, s with
  | EmptyString, _ => true
  | String _ _, EmptyString => false
  | String b t', String a s' => Ascii.eqb a b && startsWith s' t'
  end.

(** [s.includes(t)]: [t] occurs in [s] as a substring. *)
Fixpoint includes (s t : string) : bool :=
  startsWith s t ||
  match s with
  | EmptyString => false
  | String _ s' => includes s' t
  end.

(** [c.toLowerCase()] on one code unit below 256: A-Z and the Latin-1
    capitals 0xC0-0xDE (0xD7, the multiplication sign, apart). *)
Definition lowerChar (c : ascii) : ascii :=
  let n := nat_of_ascii c in
  if (((65 <=? n) && (n <=? 90))
      || ((192 <=? n) && (n <=? 222) && negb (n =? 215)))%nat
  then ascii_of_nat (n + 32) else c.

(** [s.toLowerCase()] *)
Fixpoint toLowerCase (s : string) : string :=
  match s with
  | EmptyString => EmptyString
  | String c rest => String (lowerChar c) (toLowerCase rest)
  end.

(** [s.split(' ')]: the pieces between single spaces, empty pieces kept;
    the result always has at least one element. *)
Fixpoint split_space (s : string) : list string :=
  match s with
  | EmptyString => [EmptyString]
  | String c rest =>
      if Ascii.eqb c " "%char then EmptyString :: split_space rest
      else match split_space rest with
           | [] => [String c EmptyString]
           | piece :: pieces => String c piece :: pieces
           end
  end.

(** [!!s] for a string: the empty string is falsy. *)
Definition truthy (s : string) : bool :=
  match s with EmptyString => false | String _ _ => true end.

(** [String(n)] for an integer-valued number. *)
Definition ofZ (n : Z) : string := NilZero.string_of_int (Z.to_int n).

End JsString.
Import JsString.

(* ================================================================== *)
(** * JSON: the values, [JSON.stringify(value, null, 2)] and [JSON.parse] *)
(* ================================================================== *)

Module JSON.

Local Set Warnings "-register-all".

(** A JSON value.  A number is kept as its literal: no property here
    depends on a numeric value.  The members of an object are in the
    order of their first occurrence, without repeated keys (JavaScript
    moves keys that are array indices to the front; the program reads no
    such key). *)
Inductive value :=
| Null
| Bool (b : bool)
| Number (literal : string)
| Str (s : string)
| Arr (elements : list value)
| Obj (members : list (string * value)).

(** ** Serialisation *)

Definition hexDigit (n : nat) : ascii :=
  if n <? 10 then ascii_of_nat (48 + n) else ascii_of_nat (87 + n).

(** One code unit inside [QuoteJSONString]. *)
Definition escapeChar (c : ascii) : string :=
  let n := nat_of_ascii c in
  if n =? 8 then "\b"
  else if n =? 9 then "\t"
  else if n =? 10 then "\n"
  else if n =? 12 then "\f"
  else if n =? 13 then "\r"
  else if n =? 34 then String "\"%char dquote
  else if n =? 92 then "\\"
  else if n <? 32
       then String "\"%char
              (String "u"%char
                 (String "0"%char
                    (String "0"%char
                       (String (hexDigit (n / 16))
                          (String (hexDigit (n mod 16)) EmptyString)))))
  else String c EmptyString.

Fixpoint escape (s : string) : string :=
  match s with
  | EmptyString => EmptyString
  | String c rest => (escapeChar c ++ escape rest)%string
  end.

(** [QuoteJSONString] *)
Definition quote (s : string) : string := (dquote ++ escape s ++ dquote)%string.

(** The gap of [JSON.stringify(value, null, 2)]. *)
Definition gap : string := "  ".

(** [SerializeJSONProperty] with the current indentation. *)
Fixpoint serialize (indent : string) (v : value) {struct v} : string :=
  match v with
  | Null => "null"
  | Bool true => "true"
  | Bool false => "false"
  | Number literal => literal
  | Str s => quote s
  | Arr [] => "[]"
  | Arr elements =>
      let inner := (indent ++ gap)%string in
      ("[" ++ LF ++ inner
           ++ join ("," ++ LF ++ inner) (map (serialize inner) elements)
           ++ LF ++ indent ++ "]")%string
  | Obj [] => "{}"
  | Obj members =>
      let inner := (indent ++ gap)%string in
      ("{" ++ LF ++ inner
           ++ join ("," ++ LF ++ inner)
                (map (fun member =>
                        quote (fst member) ++ ": "
                              ++ serialize inner (snd member))%string
                     members)
           ++ LF ++ indent ++ "}")%string
  end.

(** [JSON.stringify(value, null, 2)] *)
Definition stringify (v : value) : string := serialize EmptyString v.

(** ** Parsing *)

(** The result of reading a piece of text: a value and the text left, a
    [SyntaxError], or a text that denotes a string with a code unit above
    255, which the model does not represent.  [OutOfFuel] is the parser
    running out of recursion fuel, which [parse] never does. *)
Inductive result (A : Type) :=
| Ok (a : A)
| SyntaxError
| Unrepresented
| OutOfFuel.
Arguments Ok {A} a.
Arguments SyntaxError {A}.
Arguments Unrepresented {A}.
Arguments OutOfFuel {A}.

Definition andThen {A B} (r : result A) (k : A -> result B) : result B :=
  match r with
  | Ok a => k a
  | SyntaxError => SyntaxError
  | Unrepresented => Unrepresented
  | OutOfFuel => OutOfFuel
  end.

(** JSON white space: TAB, LF, CR, SP. *)
Definition isWs (c : ascii) : bool :=
  let n := nat_of_ascii c in
  (n =? 9) || (n =? 10) || (n =? 13) || (n =? 32).

Fixpoint skipWs (s : string) : string :=
  match s with
  | String c rest => if isWs c then skipWs rest else s
  | EmptyString => EmptyString
  end.

Definition hexValue (c : ascii) : option nat :=
  let n := nat_of_ascii c in
  if (48 <=? n) && (n <=? 57) then Some (n - 48)
  else if (97 <=? n) && (n <=? 102) then Some (n - 87)
  else if (65 <=? n) && (n <=? 70) then Some (n - 55)
  else None.

(** The characters of a string literal after the opening quote, up to
    and including the closing quote. *)
Fixpoint stringBody (s : string) : result (string * string) :=
  match s with
  | EmptyString => SyntaxError
  | String c rest =>
      let n := nat_of_ascii c in
      if n =? 34 then Ok (EmptyString, rest)
      else if n =? 92 then
        match rest with
        | String e rest' =>
            let continue (decoded : nat) (text : string) :=
              andThen (stringBody text)
                      (fun r => Ok (String (ascii_of_nat decoded) (fst r), snd r)) in
            let m := nat_of_ascii e in
            if m =? 34 then continue 34 rest'
            else if m =? 92 then continue 92 rest'
            else if m =? 47 then continue 47 rest'
            else if m =? 98 then continue 8 rest'
            else if m =? 102 then continue 12 rest'
            else if m =? 110 then continue 10 rest'
            else if m =? 114 then continue 13 rest'
            else if m =? 116 then continue 9 rest'
            else if m =? 117 then
              match rest' with
              | String h1 (String h2 (String h3 (String h4 rest''))) =>
                  match hexValue h1, hexValue h2, hexValue h3, hexValue h4 with
                  | Some a, Some b, Some c', Some d =>
                      if (a =? 0) && (b =? 0)
                      then continue (16 * c' + d) rest''
                      else match stringBody rest'' with
                           | SyntaxError => SyntaxError
                           | _ => Unrepresented
                           end
                  | _, _, _, _ => SyntaxError
                  end
              | _ => SyntaxError
              end
            else SyntaxError
        | EmptyString => SyntaxError
        end
      else if n <? 32 then SyntaxError
      else andThen (stringBody rest) (fun r => Ok (String c (fst r), snd r))
  end.

Definition isDigit (c : ascii) : bool :=
  let n := nat_of_ascii c in (48 <=? n) && (n <=? 57).

(** The characters a number literal may contain. *)
Definition isNumberChar (c : ascii) : bool :=
  isDigit c
  || (let n := nat_of_ascii c in
      (n =? 43) || (n =? 45) || (n =? 46) || (n =? 69) || (n =? 101)).

(** The longest prefix of number characters, and the text after it.  In
    a JSON text a number is followed by white space, a comma, a closing
    bracket or the end, so this prefix is the number token. *)
Fixpoint spanNumber (s : string) : string * string :=
  match s with
  | String c rest =>
      if isNumberChar c
      then let (token, after) := spanNumber rest in (String c token, after)
      else (EmptyString, s)
  | EmptyString => (EmptyString, EmptyString)
  end.

Fixpoint allDigits (s : string) : bool :=
  match s with
  | EmptyString => true
  | String c rest => isDigit c && allDigits rest
  end.

(** [digits] then nothing: the exponent after its sign. *)
Definition isExponentDigits (s : string) : bool :=
  match s with
  | EmptyString => false
  | _ => allDigits s
  end.

(** After [e] or [E]: an optional sign and at least one digit. *)
Definition isExponent (s : string) : bool :=
  match s with
  | String c rest =>
      let n := nat_of_ascii c in
      if (n =? 43) || (n =? 45) then isExponentDigits rest
      else isExponentDigits s
  | EmptyString => false
  end.

(** After the fraction's first digit: more digits, then an optional
    exponent. *)
Fixpoint isFractionTail (s : string) : bool :=
  match s with
  | EmptyString => true
  | String c rest =>
      if isDigit c then isFractionTail rest
      else let n := nat_of_ascii c in
           if (n =? 69) || (n =? 101) then isExponent rest else false
  end.

(** After the integer part: an optional fraction and an optional
    exponent. *)
Definition isAfterInteger (s : string) : bool :=
  match s with
  | EmptyString => true
  | String c rest =>
      let n := nat_of_ascii c in
      if n =? 46 then
        match rest with
        | String d rest' => isDigit d && isFractionTail rest'
        | EmptyString => false
        end
      else if (n =? 69) || (n =? 101) then isExponent rest
      else false
  end.

(** After a non-zero leading digit: more digits, then the rest. *)
Fixpoint isIntegerTail (s : string) : bool :=
  match s with
  | EmptyString => true
  | String c rest => if isDigit c then isIntegerTail rest else isAfterInteger s
  end.

(** The number grammar, after the optional minus sign. *)
Definition isUnsignedNumber (s : string) : bool :=
  match s with
  | String c rest =>
      if nat_of_ascii c =? 48 then isAfterInteger rest
      else if isDigit c then isIntegerTail rest
      else false
  | EmptyString => false
  end.

Definition isNumber (s : string) : bool :=
  match s with
  | String c rest =>
      if nat_of_ascii c =? 45 then isUnsignedNumber rest
      else isUnsignedNumber s
  | EmptyString => false
  end.

(** [lookup key members]: the value of property [key], if any. *)
Fixpoint lookup (key : string) (members : list (string * value))
  : option value :=
  match members with
  | [] => None
  | (k, v) :: rest => if String.eqb k key then Some v else lookup key rest
  end.

(** [CreateDataProperty]: assign to an existing property in place, or
    add a new one at the end. *)
Fixpoint setProperty (members : list (string * value))
    (member : string * value) : list (string * value) :=
  match members with
  | [] => [member]
  | (k, v) :: rest =>
      if String.eqb k (fst member) then (k, snd member) :: rest
      else (k, v) :: setProperty rest member
  end.

(** [s.slice(n)] *)
Fixpoint drop (n : nat) (s : string) : string :=
  match n, s with
  | S n', String _ rest => drop n' rest
  | _, _ => s
  end.

(** A value, then the text after it.  The three functions call each
    other with one unit of fuel less; [parse] provides enough. *)
Fixpoint parseValue (fuel : nat) (text : string) {struct fuel}
  : result (value * string) :=
  match fuel with
  | O => OutOfFuel
  | S fuel' =>
      match skipWs text with
      | EmptyString => SyntaxError
      | String c rest as s =>
          let n := nat_of_ascii c in
          if n =? 34 then
            andThen (stringBody rest) (fun r => Ok (Str (fst r), snd r))
          else if n =? 91 then
            match skipWs rest with
            | String c' rest' as inside =>
                if nat_of_ascii c' =? 93 then Ok (Arr [], rest')
                else parseElements fuel' [] inside
            | EmptyString => SyntaxError
            end
          else if n =? 123 then
            match skipWs rest with
            | String c' rest' as inside =>
                if nat_of_ascii c' =? 125 then Ok (Obj [], rest')
                else parseMembers fuel' [] inside
            | EmptyString => SyntaxError
            end
          else if startsWith s "true" then Ok (Bool true, drop 4 s)
          else if startsWith s "false" then Ok (Bool false, drop 5 s)
          else if startsWith s "null" then Ok (Null, drop 4 s)
          else
            let (token, after) := spanNumber s in
            if isNumber token then Ok (Number token, after) else SyntaxError
      end
  end

with parseElements (fuel : nat) (done : list value) (text : string)
    {struct fuel} : result (value * string) :=
  match fuel with
  | O => OutOfFuel
  | S fuel' =>
      andThen (parseValue fuel' text)
        (fun r =>
           match skipWs (snd r) with
           | String c rest =>
               let n := nat_of_ascii c in
               if n =? 44 then parseElements fuel' (done ++ [fst r]) rest
               else if n =? 93 then Ok (Arr (done ++ [fst r]), rest)
               else SyntaxError
           | EmptyString => SyntaxError
           end)
  end

with parseMembers (fuel : nat) (done : list (string * value))
    (text : string) {struct fuel} : result (value * string) :=
  match fuel with
  | O => OutOfFuel
  | S fuel' =>
      match skipWs text with
      | String q afterQuote =>
          if nat_of_ascii q =? 34 then
            andThen (stringBody afterQuote)
              (fun key =>
                 match skipWs (snd key) with
                 | String colon afterColon =>
                     if nat_of_ascii colon =? 58 then
                       andThen (parseValue fuel' afterColon)
                         (fun r =>
                            let done' := setProperty done (fst key, fst r) in
                            match skipWs (snd r) with
                            | String c rest =>
                                let n := nat_of_ascii c in
                                if n =? 44 then parseMembers fuel' done' rest
                                else if n =? 125 then Ok (Obj done', rest)
                                else SyntaxError
                            | EmptyString => SyntaxError
                            end)
                     else SyntaxError
                 | EmptyString => SyntaxError
                 end)
          else SyntaxError
      | EmptyString => SyntaxError
      end
  end.

(** [JSON.parse(text)]: one value, with white space around it. *)
Definition parse (text : string) : result value :=
  andThen (parseValue (2 * String.length text + 2) text)
    (fun r =>
       match skipWs (snd r) with
       | EmptyString => Ok (fst r)
       | String _ _ => SyntaxError
       end).

(** ** Reading back what was written *)

(** The separator between the elements of an array and between the
    members of an object, at inner indentation [inner]. *)
Definition separator (inner : string) : string := ("," ++ LF ++ inner)%string.

(** The text of one member of an object. *)
Definition memberText (inner : string) (m : string * value) : string :=
  (quote (fst m) ++ ": " ++ serialize inner (snd m))%string.

(** [parsesBack indent fuel v]: with [fuel], the serialisation of [v] at
    indentation [indent], followed by any text, reads back as [v] and
    leaves that text. *)
Definition parsesBack (indent : string) (fuel : nat) (v : value) : Prop :=
  forall rest, parseValue fuel (serialize indent v ++ rest) = Ok (v, rest).

End JSON.

(* ================================================================== *)
(** * Data model *)
(* ================================================================== *)

(** types.ts, [GroundingChunk.web].  At run time either property may be
    missing, whatever the interface declares. *)
Record Web := mkWeb { uri : option string; title : option string }.

Record GroundingChunk := mkChunk { web : option Web }.

Record GroundingMetadata :=
  mkMetadata { groundingChunks : option (list GroundingChunk) }.

Record Candidate := mkCandidate { groundingMetadata : option GroundingMetadata }.

(** What [ai.models.generateContent] resolves to, as far as the program
    reads it: [response.text] and [response.candidates]. *)
Record GenerateContentResponse :=
  mkResponse { text : option string; candidates : option (list Candidate) }.

(** [interface ScrapeResult] *)
Record ScrapeResult :=
  mkResult { result_text : option string; sources : list Web }.

(** A thrown value, as far as the catch clauses inspect it:
    [error instanceof Error], [error?.status], [error.code] and
    [error.message]. *)
Record Thrown :=
  mkThrown { instanceofError : bool;
             status : option Z;
             code : option string;
             message : string }.

(** [new Error(msg)] *)
Definition new_Error (msg : string) : Thrown := mkThrown true None None msg.

(** The argument of [ai.models.generateContent]. *)
Record GenerateContentParameters :=
  mkRequest { model : string;
              contents : string;
              config_systemInstruction : string;
              config_tools_googleSearch : bool }.

Inductive Outcome :=
| Resolves (response : GenerateContentResponse)
| Rejects (error : Thrown).

(** The module-level [state] object of cli.mjs.  [sites] and
    [excludedSites] are arrays of strings; [morningQuery] is a string, or
    missing after [loadState] read a file without that key. *)
Record State :=
  mkState { sites : list string;
            excludedSites : list string;
            morningQuery : option string }.

(** [let state = {...}] at the top of cli.mjs. *)
Definition initialState : State :=
  mkState [] [] (Some "What are the top 3 latest news in technology?").

(** The state file on disk: missing ([ENOENT]), present but not readable
    (any other error code), or present with its content. *)
Inductive FileStatus :=
| Absent
| Unreadable (code : string)
| Content (data : string).

Record Disk := mkDisk { file : FileStatus; writable : bool }.

(** The two deployment shapes share the orchestrator, and differ in the
    console channel of the retry notice. *)
Inductive Variant := Terminal | Browser.

Inductive Event :=
| Generate (request : GenerateContentParameters)
| SetTimeout (ms : Z)
| ConsoleLog (line : string)
| ConsoleWarn (line : string)
| ConsoleError (line : string) (value : option Thrown)
| ConsoleClear
| ShowWelcomeMessage
| ShowHelp
| ShowProcessingAnimation (label : string)
| StopProcessingAnimation
| DisplayResults (heading : string) (result : ScrapeResult).

(** Everything a run can read or change.  [backend n request] is what the
    answering service does with the [n]-th request it receives (counting
    from 0). *)
Record World :=
  mkWorld { state : State;
            disk : Disk;
            backend : nat -> GenerateContentParameters -> Outcome;
            trace : list Event }.

Definition isGenerate (e : Event) : bool :=
  match e with Generate _ => true | _ => false end.

(** Requests the backend has received so far. *)
Definition requestsSent (w : World) : nat :=
  length (filter isGenerate (trace w)).

(* ================================================================== *)
(** * A monad for state, trace and exceptions *)
(* ================================================================== *)

(** How a JavaScript computation ends: normally, or by a thrown value.
    [Untyped] marks a run that left the typed fragment of the model (a
    state file whose fields have other types than the documented
    schema). *)
Inductive Completion (A : Type) :=
| Normal (a : A)
| Throw (error : Thrown)
| Untyped.
Arguments Normal {A} a.
Arguments Throw {A} error.
Arguments Untyped {A}.

Definition M (A : Type) : Type := World -> Completion A * World.

Definition ret {A} (a : A) : M A := fun w => (Normal a, w).

Definition bind {A B} (m : M A) (k : A -> M B) : M B :=
  fun w =>
    match m w with
    | (Normal a, w') => k a w'
    | (Throw e, w') => (Throw e, w')
    | (Untyped, w') => (Untyped, w')
    end.

Definition throw {A} (e : Thrown) : M A := fun w => (Throw e, w).

(** [try { body } catch (error) { handler }]: what [handler] throws is
    not caught again. *)
Definition try_catch {A} (body : M A) (handler : Thrown -> M A) : M A :=
  fun w =>
    match body w with
    | (Throw e, w') => handler e w'
    | done => done
    end.

Declare Scope js_scope.
Delimit Scope js_scope with js.
Notation "x <- m ;; k" := (bind m (fun x => k))
  (at level 61, m at next level, right associativity) : js_scope.
Notation "m ;; k" := (bind m (fun _ => k))
  (at level 61, right associativity) : js_scope.
Local Open Scope js_scope.

(** The world after some more events. *)
Definition extend (w : World) (new : list Event) : World :=
  mkWorld (state w) (disk w) (backend w) (trace w ++ new).

Definition emit (e : Event) : M unit :=
  fun w => (Normal tt, extend w [e]).

Definition getState : M State := fun w => (Normal (state w), w).

Definition setState (st : State) : M unit :=
  fun w => (Normal tt, mkWorld st (disk w) (backend w) (trace w)).

(** [await ai.models.generateContent(request)] *)
Definition generateContent (request : GenerateContentParameters)
  : M GenerateContentResponse :=
  fun w =>
    let w' := extend w [Generate request] in
    match backend w (requestsSent w) request with
    | Resolves response => (Normal response, w')
    | Rejects error => (Throw error, w')
    end.

(** [await new Promise(resolve => setTimeout(resolve, ms))] *)
Definition sleep (ms : Z) : M unit := emit (SetTimeout ms).

(* ================================================================== *)
(** * The request orchestrator: [scrapeWithGrounding] *)
(* ================================================================== *)

Definition MAX_RETRIES : nat := 3.

Definition model_name : string := "gemini-2.5-flash".

(** The template literal of [systemInstruction], after [.trim()]. *)
Definition systemInstruction : string :=
  trim (LF ++
  "You are a specialized news extraction assistant. Your task is to answer the user's query based ONLY on the information returned by a site-restricted Google Search." ++ LF ++
  LF ++
  "**Your instructions are**:" ++ LF ++
  "1.  **Strict Source Adherence**: Provide an answer synthesized exclusively from the search results. DO NOT use any other information or websites." ++ LF ++
  "2.  **Recency Requirement**: Prioritize information published within the last 48 hours." ++ LF ++
  "3.  **Mandatory Citation**: You MUST cite the specific article title and URL for all pieces of information in your answer." ++ LF ++
  "4.  **Failure Condition**: If the search results do not contain a relevant answer from the last 48 hours, you MUST respond with the exact phrase: " ++ dquote ++ "The requested information could not be found on the provided websites within the last 48 hours." ++ dquote ++ " Do not apologize or add extra text." ++ LF)%string.

(** [sites.map(site => `site:${site.trim()}`).join(' OR ')] *)
Definition siteSearchQuery (sites : list string) : string :=
  join " OR " (map (fun site => "site:" ++ trim site)%string sites).

(** [excludedSites.map(site => `-site:${site.trim()}`).join(' ')] *)
Definition excludeQuery (excludedSites : list string) : string :=
  join " " (map (fun site => "-site:" ++ trim site)%string excludedSites).

(** [`${query} ${siteSearchQuery} ${excludeQuery}`.trim()] *)
Definition fullQuery (query : string) (sites excludedSites : list string)
  : string :=
  trim (query ++ " " ++ siteSearchQuery sites ++ " "
              ++ excludeQuery excludedSites)%string.

Definition request (query : string) (sites excludedSites : list string)
  : GenerateContentParameters :=
  mkRequest model_name (fullQuery query sites excludedSites)
            systemInstruction true.

(** [response.candidates?.[0]?.groundingMetadata?.groundingChunks] *)
Definition groundingChunksOf (response : GenerateContentResponse)
  : option (list GroundingChunk) :=
  match candidates response with
  | Some (candidate :: _) =>
      match groundingMetadata candidate with
      | Some metadata => groundingChunks metadata
      | None => None
      end
  | _ => None
  end.

(** [(web) => !!web && !!web.uri] *)
Definition hasUri (web : option Web) : bool :=
  match web with
  | Some (mkWeb (Some u) _) => truthy u
  | _ => false
  end.

(** [item.uri === current.uri] *)
Definition sameUri (item current : Web) : bool :=
  match uri item, uri current with
  | Some a, Some b => String.eqb a b
  | None, None => true
  | _, _ => false
  end.

(** The callback of [.reduce]: push [current] unless [acc.find] returns
    an item with the same uri.  The filter before it lets no [undefined]
    through, so the [None] case is never taken. *)
Definition pushUnlessFound (acc : list Web) (current : option Web)
  : list Web :=
  match current with
  | Some current =>
      match find (fun item => sameUri item current) acc with
      | Some _ => acc
      | None => acc ++ [current]
      end
  | None => acc
  end.

(** [groundingChunks?.map(chunk => chunk.web).filter(...).reduce(..., [])
    || []] *)
Definition extractSources (chunks : option (list GroundingChunk))
  : list Web :=
  match chunks with
  | Some chunks =>
      fold_left pushUnlessFound (filter hasUri (map web chunks)) []
  | None => []
  end.

Definition status503 (error : Thrown) : bool :=
  match status error with Some n => (n =? 503)%Z | None => false end.

Definition invalidKeyMessage : string :=
  "The provided API key is not valid. Please check your environment configuration.".
Definition overloadedMessage : string :=
  "The model is currently overloaded. Please try again later.".
Definition upstreamMessage : string :=
  "Failed to fetch data from Gemini API.".
Definition retriesExhaustedMessage : string :=
  "Failed to fetch data from Gemini API after multiple retries.".

(** The retry notice; [delay / 1000] is exact for the delays that occur
    (1000 times a power of two). *)
Definition retryNotice (delay : Z) (i : nat) : string :=
  ("Model is overloaded. Retrying in " ++ ofZ (delay / 1000) ++ "s... ("
     ++ ofZ (Z.of_nat (i + 1)) ++ "/" ++ ofZ (Z.of_nat MAX_RETRIES) ++ ")")%string.

(** [console.log(chalk.yellow(line))] in cli.mjs, [console.warn(line)] in
    geminiService.ts.  Colours are not part of the model. *)
Definition retryEvent (v : Variant) (line : string) : Event :=
  match v with
  | Terminal => ConsoleLog line
  | Browser => ConsoleWarn line
  end.

(** The [for] loop of [scrapeWithGrounding], by recursion on the number of
    iterations left: [remaining = MAX_RETRIES - i], so the loop test
    [i < MAX_RETRIES] is [remaining <> 0]. *)
Fixpoint attempts (v : Variant) (remaining i : nat) (delay : Z)
    (query : string) (sites excludedSites : list string) : M ScrapeResult :=
  match remaining with
  | O => throw (new_Error retriesExhaustedMessage)
  | S remaining' =>
      try_catch
        (response <- generateContent (request query sites excludedSites) ;;
         ret (mkResult (text response)
                       (extractSources (groundingChunksOf response))))
        (fun error =>
           if status503 error && (i <? MAX_RETRIES - 1)%nat then
             emit (retryEvent v (retryNotice delay i)) ;;
             sleep delay ;;
             attempts v remaining' (S i) (delay * 2)%Z
                      query sites excludedSites
           else
             emit (ConsoleError "Error calling Gemini API:" (Some error)) ;;
             if instanceofError error
                && includes (message error) "API key not valid"
             then throw (new_Error invalidKeyMessage)
             else if status503 error
             then throw (new_Error overloadedMessage)
             else throw (new_Error upstreamMessage))
  end.

Definition scrapeWithGrounding (v : Variant) (query : string)
    (sites excludedSites : list string) : M ScrapeResult :=
  attempts v MAX_RETRIES 0 1000 query sites excludedSites.

(** The error the last catch clause throws for a caught value: the three
    [throw] statements of the handler, in their order. *)
Definition surfaced (error : Thrown) : Thrown :=
  new_Error
    (if instanceofError error && includes (message error) "API key not valid"
     then invalidKeyMessage
     else if status503 error then overloadedMessage
     else upstreamMessage).

(* ================================================================== *)
(** * Session state on disk: [loadState] and [saveState] *)
(* ================================================================== *)

Definition STATE_FILE : string := "scraper-state.json".

(** The [state] object as [JSON.stringify] sees it: the properties
    [sites], [excludedSites] and, unless it is missing, [morningQuery], in
    that order (the order of the literal at the top of cli.mjs and of the
    literal in [loadState]). *)
Definition stateToJson (st : State) : JSON.value :=
  JSON.Obj
    ([("sites", JSON.Arr (map JSON.Str (sites st)));
      ("excludedSites", JSON.Arr (map JSON.Str (excludedSites st)))]
     ++ match morningQuery st with
        | Some q => [("morningQuery", JSON.Str q)]
        | None => []
        end).

(** The properties with index keys of an array or a string. *)
Fixpoint indexed {A} (f : A -> JSON.value) (i : nat) (l : list A)
  : list (string * JSON.value) :=
  match l with
  | [] => []
  | x :: rest => (ofZ (Z.of_nat i), f x) :: indexed f (S i) rest
  end.

(** The own enumerable properties the spread [...loadedState] copies. *)
Definition ownProperties (v : JSON.value) : list (string * JSON.value) :=
  match v with
  | JSON.Obj members => members
  | JSON.Arr elements => indexed (fun e => e) 0 elements
  | JSON.Str s =>
      indexed (fun c => JSON.Str (String c EmptyString)) 0
              (list_ascii_of_string s)
  | _ => []
  end.

(** [{ sites: [], excludedSites: [], ...loadedState }] *)
Definition withDefaults (loadedState : JSON.value)
  : list (string * JSON.value) :=
  fold_left JSON.setProperty (ownProperties loadedState)
            [("sites", JSON.Arr []); ("excludedSites", JSON.Arr [])].

(** An array whose elements are all strings. *)
Fixpoint asStrings (elements : list JSON.value) : option (list string) :=
  match elements with
  | [] => Some []
  | JSON.Str s :: rest =>
      match asStrings rest with
      | Some strings => Some (s :: strings)
      | None => None
      end
  | _ :: _ => None
  end.

Definition asStringArray (v : JSON.value) : option (list string) :=
  match v with
  | JSON.Arr elements => asStrings elements
  | _ => None
  end.

Definition isStateKey (key : string) : bool :=
  String.eqb key "sites" || String.eqb key "excludedSites"
  || String.eqb key "morningQuery".

(** The typed reading of a state object: [sites] and [excludedSites] are
    arrays of strings, [morningQuery] is a string or missing, and there is
    no other property.  Objects of any other shape are outside the typed
    model. *)
Definition asState (properties : list (string * JSON.value)) : option State :=
  if forallb (fun member => isStateKey (fst member)) properties then
    match JSON.lookup "sites" properties,
          JSON.lookup "excludedSites" properties with
    | Some s, Some e =>
        match asStringArray s, asStringArray e with
        | Some ss, Some es =>
            match JSON.lookup "morningQuery" properties with
            | None => Some (mkState ss es None)
            | Some (JSON.Str q) => Some (mkState ss es (Some q))
            | Some _ => None
            end
        | _, _ => None
        end
    | _, _ => None
    end
  else None.

Definition untyped {A} : M A := fun w => (Untyped, w).

(** [await fs.readFile(STATE_FILE, 'utf-8')] *)
Definition readFile : M string :=
  fun w =>
    match file (disk w) with
    | Content data => (Normal data, w)
    | Absent =>
        (Throw (mkThrown true None (Some "ENOENT")
                  "ENOENT: no such file or directory, open 'scraper-state.json'"),
         w)
    | Unreadable code =>
        (Throw (mkThrown true None (Some code)
                  (code ++ ": open 'scraper-state.json'")%string), w)
    end.

(** [await fs.writeFile(STATE_FILE, data)] *)
Definition writeFile (data : string) : M unit :=
  fun w =>
    if writable (disk w)
    then (Normal tt,
          mkWorld (state w) (mkDisk (Content data) true) (backend w) (trace w))
    else (Throw (mkThrown true None (Some "EACCES")
                   "EACCES: permission denied, open 'scraper-state.json'"), w).

(** [JSON.parse(data)]; the text of the [SyntaxError] is the engine's. *)
Definition JSON_parse (data : string) : M JSON.value :=
  fun w =>
    match JSON.parse data with
    | JSON.Ok v => (Normal v, w)
    | JSON.SyntaxError =>
        (Throw (mkThrown true None None "Unexpected token in JSON"), w)
    | JSON.Unrepresented | JSON.OutOfFuel => (Untyped, w)
    end.

Definition isENOENT (error : Thrown) : bool :=
  match code error with
  | Some c => String.eqb c "ENOENT"
  | None => false
  end.

Definition loadState : M unit :=
  try_catch
    (data <- readFile ;;
     loadedState <- JSON_parse data ;;
     match asState (withDefaults loadedState) with
     | Some st => setState st
     | None => untyped
     end)
    (fun error =>
       if negb (isENOENT error)
       then emit (ConsoleError "Error loading state:" (Some error))
       else ret tt).

Definition saveState : M unit :=
  try_catch
    (st <- getState ;;
     writeFile (JSON.stringify (stateToJson st)))
    (fun error => emit (ConsoleError "Error saving state:" (Some error))).

(** A restart of the interpreter: the module-level [state] is initialised
    again; the disk, the backend and what was printed stay. *)
Definition restart (w : World) : World :=
  mkWorld initialState (disk w) (backend w) (trace w).

(* ================================================================== *)
(** * The command dispatcher of the terminal variant: [processCommand] *)
(* ================================================================== *)

(** The case labels of the [switch]. *)
Inductive Verb :=
| Help | AddSite | ListSites | RemoveSite | ClearSites
| AddExclude | ListExcludes | RemoveExclude | ClearExcludes
| SetMorningQuery | Scrape | ScrapeMorning | Clear | Exit.

(** The case a lower-cased command word selects; [None] is [default]. *)
Definition verbOf (word : string) : option Verb :=
  if String.eqb word "help" then Some Help
  else if String.eqb word "add-site" then Some AddSite
  else if String.eqb word "list-sites" then Some ListSites
  else if String.eqb word "remove-site" then Some RemoveSite
  else if String.eqb word "clear-sites" then Some ClearSites
  else if String.eqb word "add-exclude" then Some AddExclude
  else if String.eqb word "list-excludes" then Some ListExcludes
  else if String.eqb word "remove-exclude" then Some RemoveExclude
  else if String.eqb word "clear-excludes" then Some ClearExcludes
  else if String.eqb word "set-morning-query" then Some SetMorningQuery
  else if String.eqb word "scrape" then Some Scrape
  else if String.eqb word "scrape-morning" then Some ScrapeMorning
  else if String.eqb word "clear" then Some Clear
  else if String.eqb word "exit" then Some Exit
  else None.

(** [arr.includes(s)] on an array of strings. *)
Definition arrayIncludes (arr : list string) (s : string) : bool :=
  existsb (String.eqb s) arr.

(** [const added = [], duplicates = [];
     args.forEach(s => arr.includes(s) ? duplicates.push(s) : added.push(s))]:
    the pair [(added, duplicates)] after the loop. *)
Definition sortArgs (arr args : list string) : list string * list string :=
  fold_left
    (fun acc s =>
       if arrayIncludes arr s then (fst acc, snd acc ++ [s])
       else (fst acc ++ [s], snd acc))
    args ([], []).

(** [arr.filter(site => site !== siteToRemove)] *)
Definition without (siteToRemove : string) (arr : list string) : list string :=
  filter (fun site => negb (String.eqb site siteToRemove)) arr.

Definition setSites (l : list string) : M unit :=
  fun w => setState (mkState l (excludedSites (state w)) (morningQuery (state w))) w.

Definition setExcludedSites (l : list string) : M unit :=
  fun w => setState (mkState (sites (state w)) l (morningQuery (state w))) w.

Definition setMorningQuery (q : string) : M unit :=
  fun w => setState (mkState (sites (state w)) (excludedSites (state w)) (Some q)) w.

Definition console_log (line : string) : M unit := emit (ConsoleLog line).

(** [arr.forEach(site => console.log(`- ${site}`))] *)
Fixpoint printSites (arr : list string) : M unit :=
  match arr with
  | [] => ret tt
  | site :: rest => console_log ("- " ++ site) ;; printSites rest
  end.

Definition noSitesMessage : string :=
  ("Error: No priority sites to scrape. Please add a site using the "
     ++ dquote ++ "add-site <url>" ++ dquote ++ " command first.")%string.

Definition scrapeUsage : string := "Usage: scrape <query>".

(** [!query] where [query] is a string or [undefined]. *)
Definition falsy (query : option string) : bool :=
  match query with
  | Some q => negb (truthy q)
  | None => true
  end.

(** The body of [case 'add-site'] and of [case 'add-exclude']. *)
Definition addCommand (current : State -> list string)
    (update : list string -> M unit)
    (addedLabel duplicatesLabel usage : string) (args : list string)
  : M unit :=
  if 0 <? length args then
    st <- getState ;;
    let (added, duplicates) := sortArgs (current st) args in
    (if 0 <? length added then
       update (current st ++ added) ;;
       saveState ;;
       console_log (addedLabel ++ " " ++ join ", " added)
     else ret tt) ;;
    (if 0 <? length duplicates
     then console_log (duplicatesLabel ++ " " ++ join ", " duplicates)
     else ret tt)
  else console_log usage.

(** The body of [case 'remove-site'] and of [case 'remove-exclude']. *)
Definition removeCommand (current : State -> list string)
    (update : list string -> M unit)
    (removedLabel notFoundLabel usage : string) (args : list string)
  : M unit :=
  match args with
  | siteToRemove :: _ =>
      st <- getState ;;
      if arrayIncludes (current st) siteToRemove then
        update (without siteToRemove (current st)) ;;
        saveState ;;
        console_log (removedLabel ++ siteToRemove)
      else console_log (notFoundLabel ++ siteToRemove)
  | [] => console_log usage
  end.

(** The body of [case 'clear-sites'] and of [case 'clear-excludes']. *)
Definition clearCommand (current : State -> list string)
    (update : list string -> M unit) (cleared alreadyEmpty : string)
  : M unit :=
  st <- getState ;;
  if 0 <? length (current st) then
    update [] ;; saveState ;; console_log cleared
  else console_log alreadyEmpty.

(** The body of [case 'list-sites'] and of [case 'list-excludes']. *)
Definition listCommand (current : State -> list string)
    (header empty : string) : M unit :=
  st <- getState ;;
  if 0 <? length (current st) then
    console_log header ;; printSites (current st)
  else console_log empty.

(** The shared body of [case 'scrape'] and [case 'scrape-morning'].
    [DisplayResults] stands for the call of [displayResults] on a terminal
    of two columns or more, or of unknown width; on a terminal of one
    column that call throws a [RangeError] inside the [try], which the
    [catch] clause prints, and that case is not modelled. *)
Definition scrapeCommand (isMorningScrape : bool) (args : list string)
  : M unit :=
  st <- getState ;;
  if length (sites st) =? 0 then console_log noSitesMessage
  else
    let query := if isMorningScrape then morningQuery st
                 else Some (join " " args) in
    match query with
    | Some q =>
        if negb (truthy q) then console_log scrapeUsage
        else
          emit (ShowProcessingAnimation "Scraping the web with Gemini...") ;;
          try_catch
            (result <- scrapeWithGrounding Terminal q (sites st)
                                           (excludedSites st) ;;
             emit StopProcessingAnimation ;;
             let heading :=
               if isMorningScrape
               then ("Morning Scrape: " ++ dquote ++ q ++ dquote)%string
               else ("Query: " ++ dquote ++ q ++ dquote)%string in
             emit (DisplayResults heading result))
            (fun error =>
               emit StopProcessingAnimation ;;
               emit (ConsoleError ("Error: " ++ message error) None))
    | None => console_log scrapeUsage
    end.

(** [processCommand(line)]: [true] asks the main loop to exit; [false]
    stands for the [false] and for the [undefined] the function returns
    otherwise. *)
Definition processCommand (line : string) : M bool :=
  match split_space (trim line) with
  | [] => ret false
  | cmd :: args =>
      if negb (truthy cmd) then ret false
      else
        match verbOf (toLowerCase cmd) with
        | Some Help => emit ShowHelp ;; ret false
        | Some AddSite =>
            addCommand sites setSites
              "Priority sites added:" "Sites already existed:"
              "Usage: add-site <url1> [url2]..." args ;;
            ret false
        | Some ListSites =>
            listCommand sites "Priority sites:" "No priority sites saved." ;;
            ret false
        | Some RemoveSite =>
            removeCommand sites setSites
              "Site removed: " "Site not found in priority list: "
              "Usage: remove-site <url>" args ;;
            ret false
        | Some ClearSites =>
            clearCommand sites setSites
              "All priority sites have been cleared."
              "Priority site list is already empty." ;;
            ret false
        | Some AddExclude =>
            addCommand excludedSites setExcludedSites
              "Excluded sites added:" "Sites already excluded:"
              "Usage: add-exclude <url1> [url2]..." args ;;
            ret false
        | Some ListExcludes =>
            listCommand excludedSites "Excluded sites:" "No sites excluded." ;;
            ret false
        | Some RemoveExclude =>
            removeCommand excludedSites setExcludedSites
              "Site removed from exclusion list: "
              "Site not found in exclusion list: "
              "Usage: remove-exclude <url>" args ;;
            ret false
        | Some ClearExcludes =>
            clearCommand excludedSites setExcludedSites
              "Exclusion list has been cleared."
              "Exclusion list is already empty." ;;
            ret false
        | Some SetMorningQuery =>
            let query := join " " args in
            (if negb (truthy query)
             then console_log "Usage: set-morning-query <query>"
             else
               setMorningQuery query ;;
               saveState ;;
               console_log ("Morning query set to: " ++ dquote ++ query ++ dquote)) ;;
            ret false
        | Some Scrape => scrapeCommand false args ;; ret false
        | Some ScrapeMorning => scrapeCommand true args ;; ret false
        | Some Clear => emit ConsoleClear ;; emit ShowWelcomeMessage ;; ret false
        | Some Exit => ret true
        | None =>
            console_log ("Command not found: " ++ cmd
                           ++ ". Type 'help' for a list of commands.") ;;
            ret false
        end
  end.

(* ================================================================== *)
(** * The command dispatcher of the browser variant *)
(* ================================================================== *)

(** components/Terminal.tsx.  The session state is the React state
    [sites], [excludedSites], [morningQuery] of the component, held here
    in the [state] of the world with a [morningQuery] that is always
    present.  [processCommand] computes the [output] it stores in the
    history item of the command; the model returns it.  The history list
    itself is not modelled; the initialisers and the effects that copy the
    state to [localStorage] come in a section of their own below. *)
Module WebApp.

(** The React nodes [processCommand] builds. *)
Inductive Output :=
| Text (s : string)
| HelpText
| AddReport (addedLabel : string) (added : list string)
            (duplicatesLabel : string) (duplicates : list string)
| SiteList (header : string) (items : list string)
| Answer (heading : option string) (result : ScrapeResult).

Definition defaultMorningQuery : string :=
  "What are the top 3 latest news in technology?".

(** [localStorage.getItem('scraper-morning-query') || '...'] *)
Definition initialMorningQuery (stored : option string) : string :=
  match stored with
  | Some q => if truthy q then q else defaultMorningQuery
  | None => defaultMorningQuery
  end.

Definition noSitesMessage : string :=
  ("Error: No priority sites to scrape. Please add a site using "
     ++ dquote ++ "add-site <url>" ++ dquote ++ " first.")%string.

(** The body of [case 'add-site'] and of [case 'add-exclude']. *)
Definition addCommand (current : State -> list string)
    (update : list string -> M unit)
    (addedLabel duplicatesLabel usage : string) (args : list string)
  : M Output :=
  if 0 <? length args then
    st <- getState ;;
    let (added, duplicates) := sortArgs (current st) args in
    (if 0 <? length added then update (current st ++ added) else ret tt) ;;
    ret (AddReport addedLabel added duplicatesLabel duplicates)
  else ret (Text usage).

(** The body of [case 'remove-site'] and of [case 'remove-exclude']. *)
Definition removeCommand (current : State -> list string)
    (update : list string -> M unit)
    (removedLabel notFoundLabel usage : string) (args : list string)
  : M Output :=
  match args with
  | siteToRemove :: _ =>
      st <- getState ;;
      if arrayIncludes (current st) siteToRemove then
        update (without siteToRemove (current st)) ;;
        ret (Text (removedLabel ++ siteToRemove))
      else ret (Text (notFoundLabel ++ siteToRemove))
  | [] => ret (Text usage)
  end.

(** The body of [case 'clear-sites'] and of [case 'clear-excludes']. *)
Definition clearCommand (current : State -> list string)
    (update : list string -> M unit) (cleared alreadyEmpty : string)
  : M Output :=
  st <- getState ;;
  if 0 <? length (current st) then update [] ;; ret (Text cleared)
  else ret (Text alreadyEmpty).

(** The body of [case 'list-sites'] and of [case 'list-excludes']. *)
Definition listCommand (current : State -> list string)
    (header empty : string) : M Output :=
  st <- getState ;;
  if 0 <? length (current st) then ret (SiteList header (current st))
  else ret (Text empty).

(** The [try]/[catch] around the orchestrator call. *)
Definition answer (heading : option string) (query : string) (st : State)
  : M Output :=
  try_catch
    (result <- scrapeWithGrounding Browser query (sites st) (excludedSites st) ;;
     ret (Answer heading result))
    (fun error => ret (Text ("Error: " ++ message error))).

(** [case 'scrape'] *)
Definition scrapeCommand (args : list string) : M Output :=
  st <- getState ;;
  if length (sites st) =? 0 then ret (Text noSitesMessage)
  else
    let query := join " " args in
    if negb (truthy query) then ret (Text "Usage: scrape <query>")
    else answer None query st.

(** [case 'scrape-morning'] *)
Definition scrapeMorningCommand : M Output :=
  st <- getState ;;
  if length (sites st) =? 0 then ret (Text noSitesMessage)
  else
    match morningQuery st with
    | Some q =>
        answer (Some ("Morning Scrape Results for: " ++ dquote ++ q ++ dquote)%string)
               q st
    | None => untyped
    end.

(** [processCommand(command)]: the output for the history item, or [None]
    for [clear], which empties the history and returns. *)
Definition processCommand (command : string) : M (option Output) :=
  match split_space (trim command) with
  | [] => ret None
  | cmd :: args =>
      let notFound :=
        ret (Some (Text ("Command not found: " ++ cmd
                           ++ ". Type 'help' for a list of commands."))) in
      let output (m : M Output) := (o <- m ;; ret (Some o)) in
      match verbOf (toLowerCase cmd) with
      | Some Help => ret (Some HelpText)
      | Some AddSite =>
          output (addCommand sites setSites
                    "Sites added: " "Sites already existed: "
                    "Usage: add-site <url1> [url2]..." args)
      | Some ListSites =>
          output (listCommand sites "Priority sites:" "No priority sites saved.")
      | Some RemoveSite =>
          output (removeCommand sites setSites
                    "Site removed: " "Site not found: "
                    "Usage: remove-site <url>" args)
      | Some ClearSites =>
          output (clearCommand sites setSites
                    "All priority sites have been cleared."
                    "Priority site list is already empty.")
      | Some AddExclude =>
          output (addCommand excludedSites setExcludedSites
                    "Excluded sites added: " "Sites already excluded: "
                    "Usage: add-exclude <url1> [url2]..." args)
      | Some ListExcludes =>
          output (listCommand excludedSites "Excluded sites:" "No sites excluded.")
      | Some RemoveExclude =>
          output (removeCommand excludedSites setExcludedSites
                    "Site removed from exclusion list: "
                    "Site not found in exclusion list: "
                    "Usage: remove-exclude <url>" args)
      | Some ClearExcludes =>
          output (clearCommand excludedSites setExcludedSites
                    "Exclusion list has been cleared."
                    "Exclusion list is already empty.")
      | Some Scrape => output (scrapeCommand args)
      | Some SetMorningQuery =>
          let query := join " " args in
          if negb (truthy query)
          then ret (Some (Text "Usage: set-morning-query <query>"))
          else
            setMorningQuery query ;;
            ret (Some (Text ("Morning query set to: " ++ dquote ++ query ++ dquote)))
      | Some ScrapeMorning => output scrapeMorningCommand
      | Some Clear => ret None
      | Some Exit | None => notFound
      end
  end.

End WebApp.

(* ================================================================== *)
(** * Observing a run *)
(* ================================================================== *)

(** The events a computation adds to the trace when run in [w]. *)
Definition eventsDuring {A} (m : M A) (w : World) : list Event :=
  skipn (length (trace w)) (trace (snd (m w))).

(** The requests among some events: one per attempt. *)
Definition requestsIn (events : list Event) : list GenerateContentParameters :=
  flat_map (fun e => match e with Generate r => [r] | _ => [] end) events.

(** The timer delays among some events, in order. *)
Definition delaysIn (events : list Event) : list Z :=
  flat_map (fun e => match e with SetTimeout ms => [ms] | _ => [] end) events.

(** The events the orchestrator may produce for a given request. *)
Definition orchestratorEvent (r : GenerateContentParameters) (e : Event)
  : Prop :=
  match e with
  | Generate r' => r' = r
  | SetTimeout _ | ConsoleLog _ | ConsoleWarn _ | ConsoleError _ _ => True
  | _ => False
  end.

(* ================================================================== *)
(** * Specification-side definitions *)
(* ================================================================== *)

(** The grounding citation list of a response: one entry per grounding
    chunk, [None] for a chunk without a [web] part; empty when the
    response has no grounding metadata. *)
Definition citations (response : GenerateContentResponse)
  : list (option Web) :=
  match groundingChunksOf response with
  | Some chunks => map web chunks
  | None => []
  end.

(** Entries lacking a URI removed: no [web] part, no [uri], or an empty
    [uri]. *)
Fixpoint withUri (entries : list (option Web)) : list Web :=
  match entries with
  | [] => []
  | Some (mkWeb (Some u) t) :: rest =>
      if truthy u then mkWeb (Some u) t :: withUri rest else withUri rest
  | _ :: rest => withUri rest
  end.

(** Duplicates removed by URI, the first occurrence kept, order
    preserved: the head stays, and every later entry with the head's URI
    goes. *)
Fixpoint dedupByUri (entries : list Web) : list Web :=
  match entries with
  | [] => []
  | first :: rest =>
      first :: filter (fun later => negb (sameUri first later)) (dedupByUri rest)
  end.

(** [seen acc y]: some item of [acc] has the uri of [y]. *)
Definition seen (acc : list Web) (y : Web) : bool :=
  existsb (fun item => sameUri item y) acc.

(** [succeedsAfter w r k response]: starting from [w], the backend rejects
    the next [k] copies of request [r] with status 503 and resolves the one
    after them with [response]. *)
Definition succeedsAfter (w : World) (r : GenerateContentParameters)
    (k : nat) (response : GenerateContentResponse) : Prop :=
  (forall j, j < k ->
     exists e, backend w (requestsSent w + j) r = Rejects e
               /\ status e = Some 503%Z)
  /\ backend w (requestsSent w + k) r = Resolves response.

(** The stored morning query of the browser variant is a non-empty
    string. *)
Definition hasMorningQuery (st : State) : Prop :=
  exists q, morningQuery st = Some q /\ truthy q = true.

(* ================================================================== *)
(** * Sample inputs *)
(* ================================================================== *)

Module Sample.

(** A backend that is overloaded for ever. *)
Definition overloaded : nat -> GenerateContentParameters -> Outcome :=
  fun _ _ => Rejects (mkThrown true (Some 503%Z) None "Service Unavailable").

(** A backend that answers 503 with a body that mentions the key. *)
Definition overloadedKeyMessage
  : nat -> GenerateContentParameters -> Outcome :=
  fun _ _ => Rejects (mkThrown true (Some 503%Z) None
                        "503: API key not valid for this region").

(** A backend that fails with a quota error. *)
Definition quotaError : Thrown :=
  mkThrown true (Some 429%Z) None "quota exceeded".
Definition failing : nat -> GenerateContentParameters -> Outcome :=
  fun _ _ => Rejects quotaError.

(** A fresh process: default state, no state file, nothing logged. *)
Definition fresh (b : nat -> GenerateContentParameters -> Outcome) : World :=
  mkWorld initialState (mkDisk Absent true) b [].

End Sample.

Module SampleResponse.

(** The citations a/A1, b/B, a/A2 as grounding chunks, with one chunk
    without a web part and one without a uri in between. *)
Definition chunks : list GroundingChunk :=
  [mkChunk (Some (mkWeb (Some "a") (Some "A1")));
   mkChunk None;
   mkChunk (Some (mkWeb (Some "b") (Some "B")));
   mkChunk (Some (mkWeb None (Some "no uri")));
   mkChunk (Some (mkWeb (Some "a") (Some "A2")))].

Definition response : GenerateContentResponse :=
  mkResponse (Some "Answer.")
             (Some [mkCandidate (Some (mkMetadata (Some chunks)))]).

(** Overloaded once, then answering. *)
Definition backend : nat -> GenerateContentParameters -> Outcome :=
  fun n _ =>
    match n with
    | O => Rejects (mkThrown true (Some 503%Z) None "Service Unavailable")
    | S _ => Resolves response
    end.

End SampleResponse.

(* ================================================================== *)
(** * The retry schedule *)
(* ================================================================== *)

(** The events of [k] retried attempts in a row, the first at loop index
    [i] with delay [delay]: request, retry notice, sleep, the delay
    doubling each time. *)
Fixpoint retryEvents (v : Variant) (r : GenerateContentParameters)
    (delay : Z) (i k : nat) : list Event :=
  match k with
  | O => []
  | S k' =>
      Generate r :: retryEvent v (retryNotice delay i) :: SetTimeout delay
        :: retryEvents v r (delay * 2) (S i) k'
  end.

(** [failsAfter w r k e]: starting from [w], the backend rejects the next
    [k] copies of request [r] with status 503 and the one after them with
    [e]. *)
Definition failsAfter (w : World) (r : GenerateContentParameters)
    (k : nat) (e : Thrown) : Prop :=
  (forall j, j < k ->
     exists e', backend w (requestsSent w + j) r = Rejects e'
                /\ status e' = Some 503%Z)
  /\ backend w (requestsSent w + k) r = Rejects e.


Module SampleFailure.

(** Overloaded once, then out of quota. *)
Definition backend : nat -> GenerateContentParameters -> Outcome :=
  fun n _ =>
    match n with
    | O => Rejects (mkThrown true (Some 503%Z) None "Service Unavailable")
    | S _ => Rejects Sample.quotaError
    end.

End SampleFailure.


(* ================================================================== *)
(** * The ends of a string *)
(* ================================================================== *)





(* ================================================================== *)
(** * The dispatcher as a transition on the session state *)
(* ================================================================== *)

(** The command word and the arguments of an input line:
    [const [cmd, ...args] = line.trim().split(' ')]. *)
Definition commandWord (line : string) : string :=
  match split_space (trim line) with
  | cmd :: _ => cmd
  | [] => EmptyString
  end.

Definition arguments (line : string) : list string :=
  match split_space (trim line) with
  | _ :: args => args
  | [] => []
  end.

(** The case of the [switch] a line selects. *)
Definition verbOfLine (line : string) : option Verb :=
  verbOf (toLowerCase (commandWord line)).

(** The arguments of an [add-] command that are not in the list yet. *)
Definition newEntries (arr args : list string) : list string :=
  filter (fun s => negb (arrayIncludes arr s)) args.

(** The state a line changes the session state to, [None] when it
    assigns nothing to it: the assignments to [state] in the cases of
    [processCommand], with their guards. *)
Definition transition (line : string) (st : State) : option State :=
  let args := arguments line in
  match verbOfLine line with
  | Some AddSite =>
      match newEntries (sites st) args with
      | [] => None
      | added =>
          Some (mkState (sites st ++ added) (excludedSites st) (morningQuery st))
      end
  | Some RemoveSite =>
      match args with
      | site :: _ =>
          if arrayIncludes (sites st) site
          then Some (mkState (without site (sites st)) (excludedSites st)
                             (morningQuery st))
          else None
      | [] => None
      end
  | Some ClearSites =>
      match sites st with
      | [] => None
      | _ => Some (mkState [] (excludedSites st) (morningQuery st))
      end
  | Some AddExclude =>
      match newEntries (excludedSites st) args with
      | [] => None
      | added =>
          Some (mkState (sites st) (excludedSites st ++ added) (morningQuery st))
      end
  | Some RemoveExclude =>
      match args with
      | site :: _ =>
          if arrayIncludes (excludedSites st) site
          then Some (mkState (sites st) (without site (excludedSites st))
                             (morningQuery st))
          else None
      | [] => None
      end
  | Some ClearExcludes =>
      match excludedSites st with
      | [] => None
      | _ => Some (mkState (sites st) [] (morningQuery st))
      end
  | Some SetMorningQuery =>
      let query := join " " args in
      if truthy query
      then Some (mkState (sites st) (excludedSites st) (Some query))
      else None
  | _ => None
  end.

(** The world after the state became [st], [saveState] ran and [new] was
    printed: the state file holds [st] when the disk can be written, and
    is as before when it cannot. *)
Definition persist (w : World) (st : State) (new : list Event) : World :=
  mkWorld st
          (if writable (disk w)
           then mkDisk (Content (JSON.stringify (stateToJson st))) true
           else disk w)
          (backend w) (trace w ++ new).

(** The state file holds the session state. *)
Definition persisted (w : World) : Prop :=
  file (disk w) = Content (JSON.stringify (stateToJson (state w))).

(** Console output only. *)
Definition consoleOnly (events : list Event) : Prop :=
  requestsIn events = [] /\ delaysIn events = [].


(** The case is one of the two that call the orchestrator. *)
Definition isScrapeVerb (verb : option Verb) : bool :=
  match verb with
  | Some Scrape | Some ScrapeMorning => true
  | _ => false
  end.

(** The case is [exit]. *)
Definition isExitVerb (verb : option Verb) : bool :=
  match verb with
  | Some Exit => true
  | _ => false
  end.


(* ================================================================== *)
(** * Wrapping text for the result box: [wordWrap] *)
(* ================================================================== *)

(** [s.split(sep)] for a separator of one code unit: the pieces between
    separators, empty pieces kept; at least one piece. *)
Fixpoint split_on (sep : ascii) (s : string) : list string :=
  match s with
  | EmptyString => [EmptyString]
  | String c rest =>
      if Ascii.eqb c sep then EmptyString :: split_on sep rest
      else match split_on sep rest with
           | [] => [String c EmptyString]
           | piece :: pieces => String c piece :: pieces
           end
  end.

(** [s.split('\n')] *)
Definition split_LF (s : string) : list string :=
  split_on (ascii_of_nat 10) s.

(** One turn of the loop over the words of a paragraph: the array [lines]
    and the variable [currentLine] after [word].  [maxWidth] is a number;
    the callers pass the width of the terminal less 4 or 6, an integer
    that is negative on a terminal of fewer columns. *)
Definition placeWord (maxWidth : Z) (acc : list string * string)
    (word : string) : list string * string :=
  let (lines, currentLine) := acc in
  if (Z.of_nat (String.length (trim (currentLine ++ " " ++ word)))
      >? maxWidth)%Z
  then (lines ++ [currentLine], word)
  else (lines,
        if truthy currentLine then (currentLine ++ " " ++ word)%string
        else word).

(** One turn of the loop over the paragraphs: [lines] after
    [paragraph]. *)
Definition wrapParagraph (maxWidth : Z) (lines : list string)
    (paragraph : string) : list string :=
  let (lines', currentLine) :=
    fold_left (placeWord maxWidth) (split_space paragraph)
              (lines, EmptyString) in
  if truthy currentLine then lines' ++ [currentLine] else lines'.

(** [wordWrap(text, maxWidth)] *)
Definition wordWrap (text : string) (maxWidth : Z) : string :=
  if negb (truthy text) then EmptyString
  else join LF (fold_left (wrapParagraph maxWidth) (split_LF text) []).

(** The lines [displayResults] prints for a text:
    [wordWrap(text, maxWidth).split('\n')]. *)
Definition printedLines (text : string) (maxWidth : Z) : list string :=
  split_LF (wordWrap text maxWidth).

(** [c] is one of the code units of [s]. *)
Fixpoint occurs (c : ascii) (s : string) : bool :=
  match s with
  | EmptyString => false
  | String a rest => Ascii.eqb a c || occurs c rest
  end.

(** The words of a line that are not empty:
    [line.split(' ').filter(word => word)]. *)
Definition wordsOf (line : string) : list string :=
  filter truthy (split_space line).


(** A line is within the width when it is no longer than [maxWidth] once
    trimmed, or is a single word, which [wordWrap] cannot break. *)
Definition fitsWidth (maxWidth : Z) (line : string) : Prop :=
  (Z.of_nat (String.length (trim line)) <= maxWidth)%Z
  \/ includes line " " = false.

(** What [wordWrap] maintains of every element of [lines] and of
    [currentLine]. *)
Definition wrapped (maxWidth : Z) (line : string) : Prop :=
  fitsWidth maxWidth line /\ occurs (ascii_of_nat 10) line = false.


(* ================================================================== *)
(** * The main loop of the terminal variant: [main] *)
(* ================================================================== *)

(** How far [main] got: the process has exited with a code, or the
    interface waits for the next line. *)
Inductive Ending :=
| Exited (code : Z)
| Waiting.

Definition goodbye : string := (LF ++ "Exiting Scraper CLI. Goodbye!")%string.

(** The ['line'] handler of [main] applied to the lines of the input when
    they are entered one after the other: each line arrives when the
    handler of the line before it has completed, as in interactive use.
    The handler is an [async] function that nothing awaits, so lines that
    arrive together (piped or pasted input) have their handlers overlap,
    and a line that follows [exit] in the same chunk is handled before
    [rl.close()] runs; such input is outside this model.  After
    [rl.close()] the ['close'] handler prints the farewell and exits.  The
    prompt is not part of the model. *)
Fixpoint readLines (lines : list string) : M Ending :=
  match lines with
  | [] => ret Waiting
  | line :: rest =>
      shouldExit <- processCommand line ;;
      if (shouldExit : bool)
      then console_log goodbye ;; ret (Exited 0)
      else console_log EmptyString ;; readLines rest
  end.

(** [main()], given [process.env.API_KEY] and the lines of the input. *)
Definition main (apiKey : option string) (lines : list string) : M Ending :=
  if falsy apiKey then
    emit (ConsoleError "ERROR: API_KEY environment variable not set." None) ;;
    emit (ConsoleError
            "Please set your Gemini API key and restart the application."
            None) ;;
    ret (Exited 1)
  else
    loadState ;;
    emit ConsoleClear ;;
    emit ShowWelcomeMessage ;;
    readLines lines.

(** In [w] the disk can be written, and either nothing has changed since
    the state was [st] and the disk [d], or the state file holds the
    state. *)
Definition inStep (st : State) (d : Disk) (w : World) : Prop :=
  writable (disk w) = true
  /\ (persisted w \/ (state w = st /\ disk w = d)).


(* ================================================================== *)
(** * The stored state of the browser variant *)
(* ================================================================== *)

(** [JSON.stringify(value)], without a gap. *)
Fixpoint stringifyCompact (v : JSON.value) : string :=
  match v with
  | JSON.Null => "null"
  | JSON.Bool true => "true"
  | JSON.Bool false => "false"
  | JSON.Number literal => literal
  | JSON.Str s => JSON.quote s
  | JSON.Arr elements =>
      ("[" ++ join "," (map stringifyCompact elements) ++ "]")%string
  | JSON.Obj members =>
      ("{" ++ join ","
             (map (fun member =>
                     JSON.quote (fst member) ++ ":"
                       ++ stringifyCompact (snd member))%string
                  members)
           ++ "}")%string
  end.

(** The three items of [localStorage] the component uses:
    ['scraper-sites'], ['scraper-excluded-sites'] and
    ['scraper-morning-query']; [None] is the [null] of [getItem]. *)
Record Storage :=
  mkStorage { scraperSites : option string;
              scraperExcludedSites : option string;
              scraperMorningQuery : option string }.

(** [saved ? JSON.parse(saved) : []], the initial value of [sites] and of
    [excludedSites].  There is no [try] around it: a [SyntaxError] leaves
    the initialiser.  A value that is not an array of strings is outside
    the typed model. *)
Definition initialList (saved : option string) : Completion (list string) :=
  match saved with
  | Some text =>
      if truthy text then
        match JSON.parse text with
        | JSON.Ok v =>
            match asStringArray v with
            | Some l => Normal l
            | None => Untyped
            end
        | JSON.SyntaxError =>
            Throw (mkThrown true None None "Unexpected token in JSON")
        | JSON.Unrepresented | JSON.OutOfFuel => Untyped
        end
      else Normal []
  | None => Normal []
  end.

(** The state the component starts with: the three [useState]
    initialisers, in order. *)
Definition initialStateFrom (storage : Storage) : Completion State :=
  match initialList (scraperSites storage) with
  | Normal ss =>
      match initialList (scraperExcludedSites storage) with
      | Normal es =>
          Normal (mkState ss es
                    (Some (WebApp.initialMorningQuery
                             (scraperMorningQuery storage))))
      | Throw e => Throw e
      | Untyped => Untyped
      end
  | Throw e => Throw e
  | Untyped => Untyped
  end.

(** What the three effects on [sites], [excludedSites] and [morningQuery]
    leave in [localStorage]. *)
Definition stored (ss es : list string) (q : string) : Storage :=
  mkStorage (Some (stringifyCompact (JSON.Arr (map JSON.Str ss))))
            (Some (stringifyCompact (JSON.Arr (map JSON.Str es))))
            (Some q).


(* ================================================================== *)
(** * Requests and sleeps in their order *)
(* ================================================================== *)

(** The event is a call of the backend or a sleep. *)
Definition isRequestOrSleep (e : Event) : bool :=
  match e with
  | Generate _ | SetTimeout _ => true
  | _ => false
  end.

(** The calls of the backend and the sleeps among some events, in the
    order in which they happened. *)
Definition requestsAndSleeps (events : list Event) : list Event :=
  filter isRequestOrSleep events.

(** The session state after the commands of [lines], run one after the
    other from [st]. *)
Definition afterLines (lines : list string) (st : State) : State :=
  fold_left (fun st line =>
               match transition line st with
               | Some st' => st'
               | None => st
               end)
            lines st.

(* ================================================================== *)
(** * Basic facts about worlds and the monad *)
(* ================================================================== *)

Lemma extend_nil w : extend w [] = w.
Proof. destruct w; unfold extend; simpl; now rewrite app_nil_r. Qed.

Lemma extend_extend w a b : extend (extend w a) b = extend w (a ++ b).
Proof. unfold extend; simpl; now rewrite app_assoc. Qed.

Lemma eventsDuring_extend {A} (m : M A) w new :
  snd (m w) = extend w new -> eventsDuring m w = new.
Proof.
  unfold eventsDuring; intros ->; simpl.
  rewrite skipn_app, skipn_all, Nat.sub_diag; reflexivity.
Qed.

Lemma requestsSent_extend w new :
  requestsSent (extend w new) = requestsSent w + length (requestsIn new).
Proof.
  unfold requestsSent, requestsIn; simpl.
  rewrite filter_app, length_app; f_equal.
  induction new as [|e new IH]; simpl; [reflexivity|].
  destruct e; simpl; auto.
Qed.

(** ** One iteration of the retry loop *)

Section OneAttempt.

Variables (v : Variant) (query : string) (sites excludedSites : list string).

Lemma attempts_resolves remaining i delay w response :
  backend w (requestsSent w) (request query sites excludedSites)
  = Resolves response ->
  attempts v (S remaining) i delay query sites excludedSites w
  = (Normal (mkResult (text response)
                      (extractSources (groundingChunksOf response))),
     extend w [Generate (request query sites excludedSites)]).
Proof.
  intros Hb. cbn [attempts]. unfold try_catch, bind, generateContent.
  rewrite Hb. reflexivity.
Qed.

Lemma attempts_retries remaining i delay w error :
  backend w (requestsSent w) (request query sites excludedSites)
  = Rejects error ->
  status503 error = true ->
  i < MAX_RETRIES - 1 ->
  attempts v (S remaining) i delay query sites excludedSites w
  = attempts v remaining (S i) (delay * 2)%Z query sites excludedSites
      (extend w [Generate (request query sites excludedSites);
                 retryEvent v (retryNotice delay i);
                 SetTimeout delay]).
Proof.
  intros Hb H503 Hi. cbn [attempts].
  unfold try_catch, bind at 1, generateContent.
  rewrite Hb, H503.
  apply Nat.ltb_lt in Hi. rewrite Hi. cbn [andb].
  unfold bind, sleep, emit. rewrite !extend_extend. reflexivity.
Qed.

Lemma attempts_surfaces remaining i delay w error :
  backend w (requestsSent w) (request query sites excludedSites)
  = Rejects error ->
  status503 error && (i <? MAX_RETRIES - 1) = false ->
  attempts v (S remaining) i delay query sites excludedSites w
  = (Throw (surfaced error),
     extend w [Generate (request query sites excludedSites);
               ConsoleError "Error calling Gemini API:" (Some error)]).
Proof.
  intros Hb Hno. cbn [attempts].
  unfold try_catch, bind at 1, generateContent.
  rewrite Hb, Hno.
  unfold bind, emit, surfaced, throw. rewrite extend_extend. cbn [app].
  destruct (instanceofError error && includes (message error) "API key not valid");
    [reflexivity|].
  destruct (status503 error); reflexivity.
Qed.

End OneAttempt.

(** ** The whole loop: what it may touch *)

Lemma attempts_frame v query sites excludedSites :
  forall remaining i delay w,
  exists new,
    snd (attempts v remaining i delay query sites excludedSites w)
    = extend w new
    /\ Forall (orchestratorEvent (request query sites excludedSites)) new.
Proof.
  induction remaining as [|remaining IH]; intros i delay w.
  - exists []. now rewrite extend_nil.
  - destruct (backend w (requestsSent w) (request query sites excludedSites))
      as [response|error] eqn:Hb.
    + rewrite (attempts_resolves _ _ _ _ _ _ _ _ _ Hb).
      eexists; split; [reflexivity|]. repeat constructor.
    + destruct (status503 error && (i <? MAX_RETRIES - 1)) eqn:Hc.
      * apply andb_true_iff in Hc as [H503 Hi]. apply Nat.ltb_lt in Hi.
        rewrite (attempts_retries _ _ _ _ _ _ _ _ _ Hb H503 Hi).
        destruct (IH (S i) (delay * 2)%Z
                     (extend w [Generate (request query sites excludedSites);
                                retryEvent v (retryNotice delay i);
                                SetTimeout delay]))
          as (new & Hnew & Hall).
        rewrite Hnew, extend_extend.
        eexists; split; [reflexivity|].
        repeat (constructor; simpl; auto). destruct v; exact I.
      * rewrite (attempts_surfaces _ _ _ _ _ _ _ _ _ Hb Hc).
        eexists; split; [reflexivity|]. repeat constructor.
Qed.

(** The orchestrator ends normally or by throwing. *)
Lemma attempts_typed v query sites excludedSites :
  forall remaining i delay w,
    fst (attempts v remaining i delay query sites excludedSites w) <> Untyped.
Proof.
  induction remaining as [|remaining IH]; intros i delay w; [discriminate|].
  destruct (backend w (requestsSent w) (request query sites excludedSites))
    as [response|error] eqn:Hb.
  - rewrite (attempts_resolves _ _ _ _ _ _ _ _ _ Hb). discriminate.
  - destruct (status503 error && (i <? MAX_RETRIES - 1)) eqn:Hc.
    + apply andb_true_iff in Hc as [H503 Hi]. apply Nat.ltb_lt in Hi.
      rewrite (attempts_retries _ _ _ _ _ _ _ _ _ Hb H503 Hi). apply IH.
    + rewrite (attempts_surfaces _ _ _ _ _ _ _ _ _ Hb Hc). discriminate.
Qed.

(** Its first event is the request. *)
Lemma scrapeWithGrounding_starts v query sites excludedSites w :
  exists completion rest,
    scrapeWithGrounding v query sites excludedSites w
    = (completion,
       extend w (Generate (request query sites excludedSites) :: rest))
    /\ completion <> Untyped.
Proof.
  pose proof (attempts_typed v query sites excludedSites MAX_RETRIES 0 1000%Z w)
    as Htyped.
  unfold scrapeWithGrounding in *. unfold MAX_RETRIES in *.
  destruct (backend w (requestsSent w) (request query sites excludedSites))
    as [response|error] eqn:Hb.
  - rewrite (attempts_resolves _ _ _ _ _ _ _ _ _ Hb).
    do 2 eexists; split; [reflexivity|discriminate].
  - destruct (status503 error && (0 <? MAX_RETRIES - 1)) eqn:Hc.
    + apply andb_true_iff in Hc as [H503 _].
      rewrite (attempts_retries _ _ _ _ _ _ _ _ _ Hb H503) in *
        by (unfold MAX_RETRIES; lia).
      set (w1 := extend w _) in *.
      destruct (attempts_frame v query sites excludedSites 2 1 (1000 * 2)%Z w1)
        as (new & Hnew & _).
      destruct (attempts v 2 1 (1000 * 2)%Z query sites excludedSites w1)
        as [completion w2].
      simpl in Hnew, Htyped. subst w2.
      unfold w1. rewrite extend_extend.
      do 2 eexists; split; [reflexivity|exact Htyped].
    + rewrite (attempts_surfaces _ _ _ _ _ _ _ _ _ Hb Hc).
      do 2 eexists; split; [reflexivity|discriminate].
Qed.

Lemma scrapeWithGrounding_events v query sites excludedSites w :
  let run := scrapeWithGrounding v query sites excludedSites in
  snd (run w) = extend w (eventsDuring run w)
  /\ Forall (orchestratorEvent (request query sites excludedSites))
            (eventsDuring run w).
Proof.
  intros run.
  destruct (attempts_frame v query sites excludedSites MAX_RETRIES 0 1000%Z w)
    as (new & Hnew & Hall).
  fold (scrapeWithGrounding v query sites excludedSites) in Hnew. fold run in Hnew.
  rewrite (eventsDuring_extend run w new Hnew). auto.
Qed.

(* ================================================================== *)
(** * The orchestrator: retry policy and failures *)
(* ================================================================== *)

(** C1, as amended.  When the backend rejects all three attempts with
    status 503, the orchestrator sends exactly three requests, sleeps
    1000 ms and then 2000 ms between them, sends no fourth request, and
    throws the overload error, unless the third rejection is an [Error]
    whose message contains 'API key not valid', in which case it throws
    the invalid-key error. *)
Theorem overload_on_every_attempt :
  forall v query sites excludedSites w e0 e1 e2,
    let req := request query sites excludedSites in
    let run := scrapeWithGrounding v query sites excludedSites in
    backend w (requestsSent w) req = Rejects e0 ->
    backend w (requestsSent w + 1) req = Rejects e1 ->
    backend w (requestsSent w + 2) req = Rejects e2 ->
    status e0 = Some 503%Z -> status e1 = Some 503%Z -> status e2 = Some 503%Z ->
    eventsDuring run w
    = [Generate req; retryEvent v (retryNotice 1000 0); SetTimeout 1000;
       Generate req; retryEvent v (retryNotice 2000 1); SetTimeout 2000;
       Generate req; ConsoleError "Error calling Gemini API:" (Some e2)]
    /\ requestsIn (eventsDuring run w) = [req; req; req]
    /\ delaysIn (eventsDuring run w) = [1000%Z; 2000%Z]
    /\ fst (run w)
       = Throw (new_Error
                  (if instanceofError e2
                      && includes (message e2) "API key not valid"
                   then invalidKeyMessage else overloadedMessage)).
Proof.
  intros v query sites excludedSites w e0 e1 e2 req run H0 H1 H2 S0 S1 S2.
  assert (T0 : status503 e0 = true) by (unfold status503; now rewrite S0).
  assert (T1 : status503 e1 = true) by (unfold status503; now rewrite S1).
  assert (T2 : status503 e2 = true) by (unfold status503; now rewrite S2).
  assert (Hrun : run w
    = (Throw (surfaced e2),
       extend w [Generate req; retryEvent v (retryNotice 1000 0); SetTimeout 1000;
                 Generate req; retryEvent v (retryNotice 2000 1); SetTimeout 2000;
                 Generate req;
                 ConsoleError "Error calling Gemini API:" (Some e2)])).
  { unfold run, scrapeWithGrounding, MAX_RETRIES.
    rewrite (attempts_retries v query sites excludedSites 2 0 1000%Z w e0 H0 T0)
      by (unfold MAX_RETRIES; lia).
    fold req.
    set (w1 := extend w _).
    assert (R1 : requestsSent w1 = requestsSent w + 1).
    { unfold w1. rewrite requestsSent_extend. destruct v; reflexivity. }
    rewrite (attempts_retries v query sites excludedSites 1 1 _ w1 e1)
      by (try (unfold MAX_RETRIES; lia); try assumption; rewrite R1; exact H1).
    fold req. set (w2 := extend w1 _).
    assert (R2 : requestsSent w2 = requestsSent w + 2).
    { unfold w2. rewrite requestsSent_extend, R1. destruct v; simpl; lia. }
    rewrite (attempts_surfaces v query sites excludedSites 0 2 _ w2 e2)
      by (try (rewrite R2; exact H2); rewrite T2; reflexivity).
    unfold w2, w1. rewrite !extend_extend. reflexivity. }
  assert (Hev := eventsDuring_extend run w _ (f_equal snd Hrun)).
  rewrite Hev, Hrun. repeat split.
  - destruct v; reflexivity.
  - destruct v; reflexivity.
  - simpl. unfold surfaced. rewrite T2. reflexivity.
Qed.

(** A backend that answers 503 for ever: three requests, two sleeps, the
    overload error. *)
Lemma overload_on_every_attempt_witness :
  let w := Sample.fresh Sample.overloaded in
  let run := scrapeWithGrounding Terminal "X" ["a.com"; "b.com"] ["c.com"] in
  requestsIn (eventsDuring run w)
  = [request "X" ["a.com"; "b.com"] ["c.com"];
     request "X" ["a.com"; "b.com"] ["c.com"];
     request "X" ["a.com"; "b.com"] ["c.com"]]
  /\ delaysIn (eventsDuring run w) = [1000%Z; 2000%Z]
  /\ fst (run w) = Throw (new_Error overloadedMessage).
Proof.
  intros w run.
  destruct (overload_on_every_attempt Terminal "X" ["a.com"; "b.com"] ["c.com"]
              w _ _ _ eq_refl eq_refl eq_refl eq_refl eq_refl eq_refl)
    as (_ & Hreq & Hdelay & Hres).
  repeat split; assumption.
Defined.

(** C1 as stated fails: three rejections with status 503 whose message
    contains 'API key not valid' end in the invalid-key error, not in the
    overload error. *)
Lemma overload_on_every_attempt_counterexample :
  let w := Sample.fresh Sample.overloadedKeyMessage in
  let run := scrapeWithGrounding Terminal "X" ["a.com"; "b.com"] ["c.com"] in
  (forall n r, exists e, backend w n r = Rejects e /\ status e = Some 503%Z)
  /\ length (requestsIn (eventsDuring run w)) = 3
  /\ delaysIn (eventsDuring run w) = [1000%Z; 2000%Z]
  /\ fst (run w) = Throw (new_Error invalidKeyMessage)
  /\ fst (run w) <> Throw (new_Error overloadedMessage).
Proof.
  intros w run. split; [|repeat split; try reflexivity; discriminate].
  intros n r. eexists; split; reflexivity.
Qed.

(** C4, as amended.  When the first attempt is rejected with anything but
    status 503, the orchestrator sends that one request, sets no timer,
    and throws at once: the invalid-key error when the rejection is an
    [Error] whose message contains 'API key not valid', otherwise the
    fixed error 'Failed to fetch data from Gemini API.'; the original
    message goes to the console only. *)
Theorem non_overload_fails_immediately :
  forall v query sites excludedSites w e,
    let req := request query sites excludedSites in
    let run := scrapeWithGrounding v query sites excludedSites in
    backend w (requestsSent w) req = Rejects e ->
    status e <> Some 503%Z ->
    eventsDuring run w
    = [Generate req; ConsoleError "Error calling Gemini API:" (Some e)]
    /\ delaysIn (eventsDuring run w) = []
    /\ fst (run w)
       = Throw (new_Error
                  (if instanceofError e
                      && includes (message e) "API key not valid"
                   then invalidKeyMessage else upstreamMessage)).
Proof.
  intros v query sites excludedSites w e req run Hb Hs.
  assert (T : status503 e = false).
  { unfold status503. destruct (status e) as [n|]; [|reflexivity].
    apply Z.eqb_neq. intros ->. now apply Hs. }
  assert (Hrun : run w
    = (Throw (surfaced e),
       extend w [Generate req;
                 ConsoleError "Error calling Gemini API:" (Some e)])).
  { unfold run, scrapeWithGrounding, MAX_RETRIES.
    apply attempts_surfaces; [exact Hb|]. now rewrite T. }
  rewrite (eventsDuring_extend run w _ (f_equal snd Hrun)), Hrun.
  repeat split. simpl. unfold surfaced. now rewrite T.
Qed.

(** A backend that fails with a quota error: no sleep, the fixed error. *)
Lemma non_overload_fails_immediately_witness :
  let w := Sample.fresh Sample.failing in
  let run := scrapeWithGrounding Terminal "X" ["a.com"] [] in
  delaysIn (eventsDuring run w) = []
  /\ fst (run w) = Throw (new_Error upstreamMessage).
Proof.
  intros w run.
  assert (Hs : status Sample.quotaError <> Some 503%Z) by discriminate.
  destruct (non_overload_fails_immediately Terminal "X" ["a.com"] [] w
              Sample.quotaError eq_refl Hs) as (_ & Hdelay & Hres).
  split; assumption.
Defined.

(** C4 as stated fails: the error thrown for a non-overload, non-key
    failure carries the fixed message only; the original message
    ('quota exceeded') is not part of it. *)
Lemma non_overload_fails_immediately_counterexample :
  let w := Sample.fresh Sample.failing in
  let run := scrapeWithGrounding Terminal "X" ["a.com"] [] in
  backend w (requestsSent w) (request "X" ["a.com"] []) = Rejects Sample.quotaError
  /\ status Sample.quotaError <> Some 503%Z
  /\ includes (message Sample.quotaError) "API key not valid" = false
  /\ fst (run w)
     = Throw (mkThrown true None None "Failed to fetch data from Gemini API.")
  /\ forall thrown, fst (run w) = Throw thrown ->
       includes (message thrown) (message Sample.quotaError) = false.
Proof.
  intros w run. repeat split; try reflexivity; try discriminate.
  intros thrown H. vm_compute in H. injection H as <-. reflexivity.
Qed.

(* ================================================================== *)
(** * The orchestrator: scoped query and citations *)
(* ================================================================== *)

(** C2.  Every request the orchestrator sends, and it sends at least one,
    carries as its contents the query, a space, the include sites as
    'site:' terms joined by ' OR ', a space, and the exclude sites as
    '-site:' terms joined by a space, each site trimmed and the whole
    trimmed.  For "X", [a.com, b.com] and [c.com] this is
    "X site:a.com OR site:b.com -site:c.com"; with no include site the
    site-restriction clause is empty. *)
Theorem scoped_query_submitted :
  (forall v query sites excludedSites w,
     let scoped :=
       trim (query ++ " "
               ++ join " OR " (map (fun s => "site:" ++ trim s) sites) ++ " "
               ++ join " " (map (fun e => "-site:" ++ trim e) excludedSites))%string in
     let sent :=
       requestsIn (eventsDuring
                     (scrapeWithGrounding v query sites excludedSites) w) in
     sent <> [] /\ Forall (fun r => contents r = scoped) sent)
  /\ fullQuery "X" ["a.com"; "b.com"] ["c.com"]
     = "X site:a.com OR site:b.com -site:c.com"
  /\ (forall query excludedSites,
        siteSearchQuery [] = EmptyString
        /\ fullQuery query [] excludedSites
           = trim (query ++ "  " ++ excludeQuery excludedSites)%string).
Proof.
  split; [|split; [reflexivity|split; reflexivity]].
  intros v query sites excludedSites w scoped sent.
  destruct (scrapeWithGrounding_events v query sites excludedSites w)
    as (_ & Hall).
  split.
  - unfold sent.
    destruct (scrapeWithGrounding_starts v query sites excludedSites w)
      as (completion & rest & Hrun & _).
    rewrite (eventsDuring_extend _ w _ (f_equal snd Hrun)). discriminate.
  - unfold sent. revert Hall. cbv zeta.
    generalize (eventsDuring (scrapeWithGrounding v query sites excludedSites) w).
    induction l as [|e l IH]; intros Hall; [constructor|].
    inversion Hall as [|? ? He Hl]; subst.
    destruct e; simpl in *; try contradiction; auto.
    constructor; [subst; reflexivity|auto].
Qed.

(** ** The reduce of [extractSources] against the specification *)

Lemma sameUri_eq a b : sameUri a b = true <-> uri a = uri b.
Proof.
  unfold sameUri. destruct (uri a) as [x|], (uri b) as [y|]; split;
    try discriminate; try reflexivity.
  - intros H. apply String.eqb_eq in H. now subst.
  - intros [= ->]. apply String.eqb_refl.
Qed.

Lemma sameUri_trans a b c :
  sameUri a b = true -> sameUri b c = true -> sameUri a c = true.
Proof. rewrite !sameUri_eq. congruence. Qed.

Lemma find_none_existsb {A} (p : A -> bool) l :
  find p l = None <-> existsb p l = false.
Proof.
  induction l as [|x l IH]; simpl; [tauto|].
  destruct (p x); simpl; [split; discriminate|exact IH].
Qed.

Lemma hasUri_withUri o rest :
  withUri (o :: rest)
  = match o with
    | Some x => if hasUri o then x :: withUri rest else withUri rest
    | None => withUri rest
    end.
Proof. destruct o as [[[u|] t]|]; simpl; try reflexivity. Qed.

Lemma filter_filter {A} (p q : A -> bool) l :
  filter p (filter q l) = filter (fun y => q y && p y) l.
Proof.
  induction l as [|x l IH]; simpl; [reflexivity|].
  destruct (q x); simpl; [destruct (p x)|]; now rewrite IH.
Qed.

Lemma reduce_dedupByUri entries :
  forall acc,
    fold_left pushUnlessFound (filter hasUri entries) acc
    = acc ++ filter (fun y => negb (seen acc y)) (dedupByUri (withUri entries)).
Proof.
  induction entries as [|o entries IH]; intros acc.
  - simpl. now rewrite app_nil_r.
  - rewrite hasUri_withUri. simpl filter.
    destruct o as [x|]; [|simpl; apply IH].
    destruct (hasUri (Some x)); [|apply IH].
    simpl fold_left. rewrite IH. clear IH.
    set (D := dedupByUri (withUri entries)).
    simpl dedupByUri. fold D. simpl filter.
    destruct (find (fun item => sameUri item x) acc) as [hit|] eqn:Hfind.
    + assert (Hseen : seen acc x = true).
      { destruct (seen acc x) eqn:E; [reflexivity|].
        apply find_none_existsb in E. congruence. }
      rewrite Hseen. simpl. f_equal.
      rewrite filter_filter. apply filter_ext_in. intros y _.
      destruct (sameUri x y) eqn:Exy; [|reflexivity]. simpl.
      apply existsb_exists in Hseen as (item & Hin & Hitem).
      assert (Hy : seen acc y = true).
      { apply existsb_exists. exists item. split; [assumption|].
        eapply sameUri_trans; eassumption. }
      now rewrite Hy.
    + apply find_none_existsb in Hfind. fold (seen acc x) in Hfind.
      rewrite Hfind. simpl.
      rewrite <- app_assoc. simpl. do 2 f_equal.
      rewrite filter_filter. apply filter_ext. intros y. unfold seen.
      rewrite existsb_app. simpl. rewrite orb_false_r, negb_orb.
      apply andb_comm.
Qed.

(** ** What [dedupByUri] and [withUri] keep *)

Lemma withUri_In x entries :
  In x (withUri entries) <-> In (Some x) entries /\ hasUri (Some x) = true.
Proof.
  induction entries as [|o entries IH]; [simpl; tauto|].
  rewrite hasUri_withUri. destruct o as [y|].
  - destruct (hasUri (Some y)) eqn:Hy; cbn [In]; rewrite IH; split.
    + intros [->|[Hin Hx]]; auto.
    + intros [[[= ->]|Hin] Hx]; auto.
    + intros [Hin Hx]; auto.
    + intros [[[= ->]|Hin] Hx]; [congruence|auto].
  - cbn [In]. rewrite IH. split; [intros [Hin Hx]; auto|].
    intros [[Habs|Hin] Hx]; [discriminate|auto].
Qed.

Lemma dedupByUri_In x entries : In x (dedupByUri entries) -> In x entries.
Proof.
  induction entries as [|first rest IH]; simpl; [tauto|].
  intros [->|Hin]; [now left|].
  apply filter_In in Hin as [Hin _]. right. now apply IH.
Qed.

(** Every URI of the list survives. *)
Lemma dedupByUri_covers x entries :
  In x entries ->
  exists kept, In kept (dedupByUri entries) /\ sameUri kept x = true.
Proof.
  induction entries as [|first rest IH]; simpl; [tauto|].
  intros [->|Hin].
  - exists x. split; [now left|]. now apply sameUri_eq.
  - destruct (IH Hin) as (kept & Hkept & Hsame).
    destruct (sameUri first kept) eqn:Hfirst.
    + exists first. split; [now left|]. eapply sameUri_trans; eassumption.
    + exists kept. split; [|exact Hsame].
      right. apply filter_In. split; [exact Hkept|]. now rewrite Hfirst.
Qed.

Lemma NoDup_map_filter {A B} (f : A -> B) (p : A -> bool) l :
  NoDup (map f l) -> NoDup (map f (filter p l)).
Proof.
  induction l as [|x l IH]; simpl; intros H; [constructor|].
  inversion H as [|? ? Hx Hl]; subst.
  destruct (p x); simpl; [constructor|]; auto.
  intros Hin. apply Hx. apply in_map_iff in Hin as (y & Hy & Hin).
  apply filter_In in Hin as [Hin _]. apply in_map_iff. eauto.
Qed.

(** No URI is kept twice. *)
Lemma dedupByUri_NoDup entries : NoDup (map uri (dedupByUri entries)).
Proof.
  induction entries as [|first rest IH]; simpl; constructor.
  - intros Hin. apply in_map_iff in Hin as (y & Hy & Hin).
    apply filter_In in Hin as [_ Hdiff].
    assert (Hsame : sameUri first y = true) by (apply sameUri_eq; congruence).
    now rewrite Hsame in Hdiff.
  - now apply NoDup_map_filter.
Qed.

Lemma extractSources_spec response :
  extractSources (groundingChunksOf response)
  = dedupByUri (withUri (citations response)).
Proof.
  unfold extractSources, citations.
  destruct (groundingChunksOf response) as [chunks|]; [|reflexivity].
  rewrite reduce_dedupByUri. simpl.
  induction (dedupByUri (withUri (map web chunks))) as [|x l IH];
    simpl; congruence.
Qed.

Lemma attempts_succeedsAfter v query sites excludedSites response :
  forall k remaining i delay w,
    k < remaining -> i + k < MAX_RETRIES ->
    succeedsAfter w (request query sites excludedSites) k response ->
    fst (attempts v remaining i delay query sites excludedSites w)
    = Normal (mkResult (text response)
                       (extractSources (groundingChunksOf response))).
Proof.
  induction k as [|k IH]; intros remaining i delay w Hk Hi [Hrej Hres];
    (destruct remaining as [|remaining]; [lia|]).
  - rewrite Nat.add_0_r in Hres.
    now rewrite (attempts_resolves _ _ _ _ _ _ _ _ _ Hres).
  - destruct (Hrej 0) as (e & He & Hs); [lia|].
    rewrite Nat.add_0_r in He.
    rewrite (attempts_retries _ _ _ _ _ _ _ _ _ He)
      by (try (unfold status503; now rewrite Hs); unfold MAX_RETRIES in *; lia).
    apply IH; try lia.
    assert (R : forall j, requestsSent
                (extend w [Generate (request query sites excludedSites);
                           retryEvent v (retryNotice delay i);
                           SetTimeout delay]) + j
              = requestsSent w + S j).
    { intros j. rewrite requestsSent_extend. destruct v; simpl; lia. }
    split.
    + intros j Hj. rewrite R. simpl backend. apply Hrej. lia.
    + rewrite R. exact Hres.
Qed.

Lemma status503_true e : status503 e = true -> status e = Some 503%Z.
Proof.
  unfold status503. destruct (status e) as [n|]; [|discriminate].
  intros H. apply Z.eqb_eq in H. now subst.
Qed.

(** Conversely, a result always comes from a response the backend resolved
    a request with, after retried overloads only. *)
Lemma attempts_normal_inv v query sites excludedSites result :
  forall remaining i delay w,
    fst (attempts v remaining i delay query sites excludedSites w)
    = Normal result ->
    exists k response,
      k < remaining
      /\ succeedsAfter w (request query sites excludedSites) k response
      /\ result = mkResult (text response)
                           (dedupByUri (withUri (citations response))).
Proof.
  induction remaining as [|remaining IH]; intros i delay w H; [discriminate|].
  destruct (backend w (requestsSent w) (request query sites excludedSites))
    as [response|error] eqn:Hb.
  - rewrite (attempts_resolves _ _ _ _ _ _ _ _ _ Hb) in H.
    injection H as <-. exists 0, response. split; [lia|]. split.
    + split; [intros j Hj; lia|]. now rewrite Nat.add_0_r.
    + now rewrite extractSources_spec.
  - destruct (status503 error && (i <? MAX_RETRIES - 1)) eqn:Hc.
    + apply andb_true_iff in Hc as [H503 Hi]. apply Nat.ltb_lt in Hi.
      rewrite (attempts_retries _ _ _ _ _ _ _ _ _ Hb H503 Hi) in H.
      destruct (IH _ _ _ H) as (k & response & Hk & [Hrej Hres] & Hresult).
      assert (R : forall j, requestsSent
                  (extend w [Generate (request query sites excludedSites);
                             retryEvent v (retryNotice delay i);
                             SetTimeout delay]) + j
                = requestsSent w + S j).
      { intros j. rewrite requestsSent_extend. destruct v; simpl; lia. }
      exists (S k), response. split; [lia|]. split; [|exact Hresult].
      split.
      * intros [|j] Hj.
        -- exists error. rewrite Nat.add_0_r.
           split; [exact Hb|now apply status503_true].
        -- destruct (Hrej j) as (e & He & Hs); [lia|].
           rewrite R in He. exists e. auto.
      * rewrite R in Hres. exact Hres.
    + rewrite (attempts_surfaces _ _ _ _ _ _ _ _ _ Hb Hc) in H. discriminate.
Qed.

(** C3.  When the backend resolves a request (the first, or one sent after
    retried overloads) with a response, [scrapeWithGrounding] returns that
    response's text verbatim, and as sources the response's grounding
    citation list with the entries lacking a URI removed and duplicates
    removed by URI, first occurrence kept, order preserved.  Citations
    a/A1, b/B, a/A2 give sources a/A1, b/B. *)
Theorem sources_first_seen_by_uri :
  forall v query sites excludedSites w k response,
    k < MAX_RETRIES ->
    succeedsAfter w (request query sites excludedSites) k response ->
    fst (scrapeWithGrounding v query sites excludedSites w)
    = Normal (mkResult (text response)
                       (dedupByUri (withUri (citations response))))
    /\ extractSources
         (Some [mkChunk (Some (mkWeb (Some "a") (Some "A1")));
                mkChunk (Some (mkWeb (Some "b") (Some "B")));
                mkChunk (Some (mkWeb (Some "a") (Some "A2")))])
       = [mkWeb (Some "a") (Some "A1"); mkWeb (Some "b") (Some "B")].
Proof.
  intros v query sites excludedSites w k response Hk Hsucc.
  split; [|reflexivity].
  rewrite <- extractSources_spec.
  unfold scrapeWithGrounding.
  apply (attempts_succeedsAfter v query sites excludedSites response k);
    [exact Hk|lia|exact Hsucc].
Qed.

(** A backend that is overloaded once and then answers with the citations
    a/A1, (no web part), b/B, (no uri), a/A2. *)
Lemma sources_first_seen_by_uri_witness :
  fst (scrapeWithGrounding Terminal "X" ["a.com"] []
         (Sample.fresh SampleResponse.backend))
  = Normal (mkResult (Some "Answer.")
                     [mkWeb (Some "a") (Some "A1"); mkWeb (Some "b") (Some "B")]).
Proof.
  assert (Hk : 1 < MAX_RETRIES) by (unfold MAX_RETRIES; lia).
  assert (Hs : succeedsAfter (Sample.fresh SampleResponse.backend)
                 (request "X" ["a.com"] []) 1 SampleResponse.response).
  { split; [|reflexivity].
    intros j Hj. destruct j as [|j]; [|lia].
    eexists; split; reflexivity. }
  exact (proj1 (sources_first_seen_by_uri Terminal "X" ["a.com"] []
                  (Sample.fresh SampleResponse.backend) 1
                  SampleResponse.response Hk Hs)).
Defined.

(* ================================================================== *)
(** * JSON: what [stringify] writes, [parse] reads back *)
(* ================================================================== *)

Lemma append_assoc (a b c : string) : ((a ++ b) ++ c = a ++ (b ++ c))%string.
Proof. induction a as [|x a IH]; simpl; congruence. Qed.

Lemma length_append (a b : string) :
  String.length (a ++ b) = String.length a + String.length b.
Proof. induction a as [|x a IH]; simpl; congruence. Qed.

Lemma append_nil_r (a : string) : (a ++ EmptyString)%string = a.
Proof. induction a as [|x a IH]; simpl; congruence. Qed.

Module JSONFacts.
Import JsString JSON.

Lemma stringBody_escapeChar c text r :
  stringBody text = Ok r ->
  stringBody (escapeChar c ++ text) = Ok (String c (fst r), snd r).
Proof.
  intros H.
  destruct c as [[] [] [] [] [] [] [] []]; simpl; rewrite H; reflexivity.
Qed.

Lemma stringBody_escape s rest :
  stringBody (escape s ++ dquote ++ rest) = Ok (s, rest).
Proof.
  induction s as [|c s IH]; [reflexivity|].
  cbn [escape]. rewrite append_assoc.
  now rewrite (stringBody_escapeChar c _ _ IH).
Qed.

Lemma skipWs_idempotent s : skipWs (skipWs s) = skipWs s.
Proof.
  induction s as [|c s IH]; [reflexivity|].
  simpl. destruct (isWs c) eqn:E; [exact IH|]. simpl. now rewrite E.
Qed.

(** White space in front of anything is skipped. *)
Lemma skipWs_app ws text :
  skipWs ws = EmptyString -> skipWs (ws ++ text) = skipWs text.
Proof.
  induction ws as [|c ws IH]; [reflexivity|].
  simpl. destruct (isWs c); [exact IH|discriminate].
Qed.

Lemma skipWs_LF text : skipWs (LF ++ text) = skipWs text.
Proof. reflexivity. Qed.

Lemma skipWs_comma text : skipWs ("," ++ text) = ("," ++ text)%string.
Proof. reflexivity. Qed.

Lemma skipWs_gap text : skipWs (gap ++ text) = skipWs text.
Proof. reflexivity. Qed.

Lemma skipWs_quote s text : skipWs (quote s ++ text) = (quote s ++ text)%string.
Proof. reflexivity. Qed.

Lemma parseValue_skipWs fuel text :
  parseValue fuel (skipWs text) = parseValue fuel text.
Proof. destruct fuel; [reflexivity|]. simpl. now rewrite skipWs_idempotent. Qed.

Lemma parseElements_skipWs fuel done text :
  parseElements fuel done (skipWs text) = parseElements fuel done text.
Proof. destruct fuel; [reflexivity|]. simpl. now rewrite parseValue_skipWs. Qed.

Lemma parseMembers_skipWs fuel done text :
  parseMembers fuel done (skipWs text) = parseMembers fuel done text.
Proof. destruct fuel; [reflexivity|]. simpl. now rewrite skipWs_idempotent. Qed.

Lemma parsesBack_Str indent fuel s : parsesBack indent (S fuel) (Str s).
Proof.
  intros rest. cbn [parseValue serialize]. rewrite skipWs_quote.
  unfold quote. rewrite !append_assoc.
  change (dquote ++ escape s ++ dquote ++ rest)%string
    with (String (ascii_of_nat 34) (escape s ++ dquote ++ rest)).
  cbv beta iota zeta.
  change (nat_of_ascii (ascii_of_nat 34) =? 34) with true. cbv iota.
  now rewrite stringBody_escape.
Qed.

Lemma parseValue_Str fuel text s rest :
  skipWs text = (quote s ++ rest)%string ->
  parseValue (S fuel) text = Ok (Str s, rest).
Proof.
  intros H. rewrite <- parseValue_skipWs, H.
  apply (parsesBack_Str EmptyString).
Qed.

Section Elements.

Variables inner indent : string.
Hypothesis inner_ws : skipWs inner = EmptyString.
Hypothesis indent_ws : skipWs indent = EmptyString.

Lemma parseElements_strings :
  forall l done fuel text rest,
    l <> [] -> length l < fuel ->
    skipWs text
    = (join (separator inner) (map quote l)
         ++ LF ++ indent ++ "]" ++ rest)%string ->
    parseElements fuel done text = Ok (Arr (done ++ map Str l), rest).
Proof.
  induction l as [|x l IH]; intros done fuel text rest Hne Hfuel Htext;
    [contradiction|].
  destruct fuel as [|fuel]; [simpl in Hfuel; lia|].
  cbn [parseElements].
  destruct l as [|y l].
  - cbn [map join] in Htext.
    destruct fuel as [|fuel]; [simpl in Hfuel; lia|].
    rewrite (parseValue_Str fuel text x _ Htext).
    cbn [andThen snd fst].
    rewrite skipWs_LF, skipWs_app by exact indent_ws.
    reflexivity.
  - assert (Hjoin : join (separator inner) (map quote (x :: y :: l))
                    = (quote x ++ separator inner
                         ++ join (separator inner) (map quote (y :: l)))%string)
      by reflexivity.
    rewrite Hjoin in Htext. rewrite append_assoc in Htext.
    destruct fuel as [|fuel]; [simpl in Hfuel; lia|].
    rewrite (parseValue_Str fuel text x _ Htext).
    cbn [andThen snd fst].
    unfold separator at 1. rewrite !append_assoc.
    rewrite skipWs_comma. cbn [append].
    cbv beta iota zeta.
    change (nat_of_ascii "," =? 44) with true. cbv iota.
    erewrite IH; [now rewrite <- app_assoc|discriminate|simpl in *; lia|].
    rewrite skipWs_LF, skipWs_app by exact inner_ws.
    destruct l; reflexivity.
Qed.

End Elements.

Lemma serialize_strings indent x l :
  serialize indent (Arr (map Str (x :: l)))
  = ("[" ++ LF ++ (indent ++ gap)
         ++ join ("," ++ LF ++ (indent ++ gap)) (map quote (x :: l))
         ++ LF ++ indent ++ "]")%string.
Proof.
  cbn [map serialize]. rewrite map_map. reflexivity.
Qed.

Lemma skipWs_indent indent :
  skipWs indent = EmptyString -> skipWs (indent ++ gap) = EmptyString.
Proof. intros H. now rewrite skipWs_app. Qed.

Lemma parsesBack_strings indent fuel l :
  skipWs indent = EmptyString -> length l < fuel ->
  parsesBack indent (S fuel) (Arr (map Str l)).
Proof.
  intros Hws Hfuel rest. cbn [parseValue].
  destruct l as [|x l]; [reflexivity|].
  rewrite serialize_strings, !append_assoc.
  cbn [append skipWs]. cbv beta iota zeta.
  change (isWs "[") with false. cbv iota.
  change (nat_of_ascii "[" =? 34) with false.
  change (nat_of_ascii "[" =? 91) with true. cbv iota.
  rewrite skipWs_LF, (skipWs_app indent), skipWs_gap by exact Hws.
  assert (Hhead : exists tail,
             (join ("," ++ LF ++ indent ++ gap) (map quote (x :: l))
                ++ LF ++ indent ++ String "]" rest)%string
             = String (ascii_of_nat 34) tail)
    by (destruct l; eexists; reflexivity).
  destruct Hhead as (tail & Htail).
  rewrite Htail at 1. cbn [skipWs].
  change (isWs (ascii_of_nat 34)) with false. cbv iota.
  change (nat_of_ascii (ascii_of_nat 34) =? 93) with false. cbv iota.
  rewrite <- Htail.
  apply (parseElements_strings (indent ++ gap) indent
           (skipWs_indent indent Hws) Hws (x :: l) [] fuel);
    [discriminate|exact Hfuel|].
  destruct l; reflexivity.
Qed.

Section Members.

Variables inner indent : string.
Hypothesis inner_ws : skipWs inner = EmptyString.
Hypothesis indent_ws : skipWs indent = EmptyString.

(** The members of an object read back, when each value does. *)
Lemma parseMembers_members :
  forall ms done fuel base text rest,
    ms <> [] -> base + length ms <= fuel ->
    (forall m f, In m ms -> base <= f -> parsesBack inner f (snd m)) ->
    skipWs text
    = (join (separator inner) (map (memberText inner) ms)
         ++ LF ++ indent ++ "}" ++ rest)%string ->
    parseMembers fuel done text
    = Ok (Obj (fold_left setProperty ms done), rest).
Proof.
  induction ms as [|[key v] ms IH];
    intros done fuel base text rest Hne Hfuel Hvalues Htext;
    [contradiction|].
  destruct fuel as [|fuel]; [simpl in Hfuel; lia|].
  assert (Hv : forall R, parseValue fuel (" " ++ serialize inner v ++ R)
                         = Ok (v, R)).
  { intros R. rewrite <- parseValue_skipWs.
    change (skipWs (" " ++ serialize inner v ++ R))
      with (skipWs (serialize inner v ++ R)).
    rewrite parseValue_skipWs.
    apply (Hvalues (key, v) fuel); [now left|simpl in Hfuel; lia]. }
  cbn [parseMembers]. rewrite Htext.
  assert (Hstep : forall tail,
    (memberText inner (key, v) ++ tail)%string
    = String (ascii_of_nat 34)
        (escape key ++ dquote ++ String ":" (" " ++ serialize inner v ++ tail))).
  { intros tail. unfold memberText, quote. cbn [fst snd].
    rewrite !append_assoc. reflexivity. }
  destruct ms as [|m' ms].
  - cbn [map join]. rewrite Hstep.
    cbv beta iota zeta.
    change (nat_of_ascii (ascii_of_nat 34) =? 34) with true. cbv iota.
    rewrite stringBody_escape. cbn [andThen snd fst skipWs].
    change (isWs ":") with false. cbv beta iota zeta.
    change (nat_of_ascii ":" =? 58) with true. cbv iota.
    rewrite Hv. cbn [andThen snd fst].
    rewrite skipWs_LF, skipWs_app by exact indent_ws.
    reflexivity.
  - assert (Hjoin : join (separator inner)
                         (map (memberText inner) ((key, v) :: m' :: ms))
                    = (memberText inner (key, v) ++ separator inner
                         ++ join (separator inner)
                              (map (memberText inner) (m' :: ms)))%string)
      by reflexivity.
    rewrite Hjoin, append_assoc, Hstep.
    cbv beta iota zeta.
    change (nat_of_ascii (ascii_of_nat 34) =? 34) with true. cbv iota.
    rewrite stringBody_escape. cbn [andThen snd fst skipWs].
    change (isWs ":") with false. cbv beta iota zeta.
    change (nat_of_ascii ":" =? 58) with true. cbv iota.
    rewrite append_assoc, Hv. cbn [andThen snd fst].
    unfold separator at 1. rewrite !append_assoc.
    rewrite skipWs_comma. cbn [append]. cbv beta iota zeta.
    change (nat_of_ascii "," =? 44) with true. cbv iota.
    apply (IH _ fuel base); [discriminate|simpl in *; lia| |].
    + intros m f Hin Hf. apply Hvalues; [now right|exact Hf].
    + rewrite skipWs_LF, skipWs_app by exact inner_ws.
      destruct m' as [k' v'], ms; reflexivity.
Qed.

End Members.

Lemma serialize_members indent m ms :
  serialize indent (Obj (m :: ms))
  = ("{" ++ LF ++ (indent ++ gap)
         ++ join ("," ++ LF ++ (indent ++ gap))
              (map (fun m => quote (fst m) ++ ": "
                               ++ serialize (indent ++ gap) (snd m))
                   (m :: ms))
         ++ LF ++ indent ++ "}")%string.
Proof. reflexivity. Qed.

(** An object whose members' values read back, reads back. *)
Lemma parseValue_object indent fuel base ms rest :
  skipWs indent = EmptyString ->
  ms <> [] -> base + length ms <= fuel ->
  (forall m f, In m ms -> base <= f -> parsesBack (indent ++ gap) f (snd m)) ->
  parseValue (S fuel) (serialize indent (Obj ms) ++ rest)
  = Ok (Obj (fold_left setProperty ms []), rest).
Proof.
  intros Hws Hne Hfuel Hvalues.
  destruct ms as [|m ms]; [contradiction|].
  rewrite serialize_members, !append_assoc.
  cbn [parseValue append skipWs]. cbv beta iota zeta.
  change (isWs "{") with false. cbv iota.
  change (nat_of_ascii "{" =? 34) with false.
  change (nat_of_ascii "{" =? 91) with false.
  change (nat_of_ascii "{" =? 123) with true. cbv iota.
  rewrite skipWs_LF, (skipWs_app indent), skipWs_gap by exact Hws.
  set (members := join _ _).
  assert (Hhead : exists tail,
             (members ++ LF ++ indent ++ String "}" rest)%string
             = String (ascii_of_nat 34) tail)
    by (unfold members; destruct m, ms; eexists; reflexivity).
  destruct Hhead as (tail & Htail).
  rewrite Htail at 1. cbn [skipWs].
  change (isWs (ascii_of_nat 34)) with false. cbv iota.
  change (nat_of_ascii (ascii_of_nat 34) =? 125) with false. cbv iota.
  rewrite <- Htail. unfold members.
  apply (parseMembers_members (indent ++ gap) indent
           (skipWs_indent indent Hws) Hws (m :: ms) [] fuel base);
    [discriminate|exact Hfuel|exact Hvalues|].
  change (skipWs (members ++ LF ++ indent ++ String "}" rest)
          = (members ++ LF ++ indent ++ String "}" rest)%string).
  rewrite Htail. reflexivity.
Qed.

Lemma length_quote s : 2 <= String.length (quote s).
Proof.
  unfold quote. rewrite !length_append.
  change (String.length dquote) with 1. lia.
Qed.

Lemma length_join_quote sep l :
  length l <= String.length (join sep (map quote l)).
Proof.
  induction l as [|x l IH]; [simpl; lia|].
  destruct l as [|y l].
  - pose proof (length_quote x). simpl. lia.
  - change (join sep (map quote (x :: y :: l)))
      with (quote x ++ sep ++ join sep (map quote (y :: l)))%string.
    rewrite !length_append. pose proof (length_quote x).
    simpl length in *. lia.
Qed.

Lemma length_serialize_strings indent l :
  length l <= String.length (serialize indent (Arr (map Str l))).
Proof.
  destruct l as [|x l]; [simpl; lia|].
  rewrite serialize_strings, !length_append.
  pose proof (length_join_quote ("," ++ LF ++ indent ++ gap) (x :: l)). lia.
Qed.
(** ** The parser always returns *)

Lemma skipWs_length s : String.length (skipWs s) <= String.length s.
Proof.
  induction s as [|c s IH]; simpl; [lia|].
  destruct (isWs c); simpl; lia.
Qed.

Lemma andThen_Ok {A B} (r : result A) (k : A -> result B) b :
  andThen r k = Ok b -> exists a, r = Ok a /\ k a = Ok b.
Proof. destruct r; simpl; try discriminate. eauto. Qed.

Lemma andThen_fuel {A B} (r : result A) (k : A -> result B) :
  r <> OutOfFuel -> (forall a, r = Ok a -> k a <> OutOfFuel) ->
  andThen r k <> OutOfFuel.
Proof. destruct r; simpl; auto; discriminate. Qed.

(** A string literal is shorter than the text it was read from. *)
Lemma stringBody_progress :
  forall n s x rest,
    String.length s < n ->
    stringBody s = Ok (x, rest) -> String.length rest < String.length s.
Proof.
  induction n as [|n IH]; intros s x rest Hn H; [lia|].
  destruct s as [|c s]; [discriminate|].
  cbn [stringBody] in H. cbv zeta in H. simpl String.length in *.
  repeat match type of H with
         | (if ?c then _ else _) = _ => destruct c
         | match ?t with EmptyString => _ | String _ _ => _ end = _ =>
             destruct t; simpl String.length in *
         | match hexValue ?h with _ => _ end = _ => destruct (hexValue h)
         | match stringBody ?t with _ => _ end = _ =>
             destruct (stringBody t); try discriminate
         | andThen (stringBody ?t) _ = Ok _ =>
             let r := fresh "r" in
             let Hr := fresh "Hr" in
             let Hk := fresh "Hk" in
             apply andThen_Ok in H as (r & Hr & Hk);
             destruct r as [x' rest']; cbn [fst snd] in Hk;
             injection Hk as <- <-;
             apply IH in Hr; [lia|lia]
         end; try discriminate.
  injection H as <- <-. lia.
Qed.

Lemma stringBody_fuel s : stringBody s <> OutOfFuel.
Proof.
  remember (String.length s) as n eqn:Hn.
  assert (Hle : String.length s <= n) by lia. clear Hn.
  revert s Hle. induction n as [|n IH]; intros s Hle.
  - destruct s; [discriminate|simpl in Hle; lia].
  - destruct s as [|c s]; [discriminate|].
    cbn [stringBody]. cbv zeta. simpl String.length in *.
    repeat match goal with
           | |- (if ?c then _ else _) <> _ => destruct c
           | |- match ?t with EmptyString => _ | String _ _ => _ end <> _ =>
               destruct t; simpl String.length in *
           | |- match hexValue ?h with _ => _ end <> _ => destruct (hexValue h)
           | |- match stringBody ?t with _ => _ end <> _ =>
               destruct (stringBody t)
           | |- andThen (stringBody ?t) _ <> _ =>
               apply andThen_fuel; [apply IH; lia|discriminate]
           end; try discriminate.
Qed.

Lemma spanNumber_length s :
  String.length (fst (spanNumber s)) + String.length (snd (spanNumber s))
  = String.length s.
Proof.
  induction s as [|c s IH]; [reflexivity|].
  simpl. destruct (isNumberChar c); [|reflexivity].
  destruct (spanNumber s) as [token after]. simpl in *. lia.
Qed.

Lemma drop_length n s : String.length (drop n s) <= String.length s.
Proof.
  revert s. induction n as [|n IH]; intros [|c s]; simpl; try lia.
  specialize (IH s). lia.
Qed.

(** A literal read by [drop] leaves less text. *)
Lemma drop_progress n c s :
  String.length (drop (S n) (String c s)) < S (String.length s).
Proof. simpl. pose proof (drop_length n s). lia. Qed.

(** Whatever the parser reads, it leaves less text than it was given. *)
Lemma parse_progress fuel :
  (forall text v rest,
      parseValue fuel text = Ok (v, rest) ->
      String.length rest < String.length text)
  /\ (forall done text v rest,
        parseElements fuel done text = Ok (v, rest) ->
        String.length rest < String.length text)
  /\ (forall done text v rest,
        parseMembers fuel done text = Ok (v, rest) ->
        String.length rest < String.length text).
Proof.
  induction fuel as [|fuel (IHv & IHe & IHm)];
    [repeat split; intros; discriminate|].
  repeat split.
  - (* a value *)
    intros text v rest H. cbn [parseValue] in H.
    pose proof (skipWs_length text) as Hws.
    destruct (skipWs text) as [|c s] eqn:Hs; [discriminate|].
    cbv zeta in H. simpl String.length in Hws.
    destruct (nat_of_ascii c =? 34).
    { apply andThen_Ok in H as ([x r] & Hbody & Hk).
      cbn [fst snd] in Hk. injection Hk as <- <-.
      apply (stringBody_progress (S (String.length s))) in Hbody; lia. }
    destruct (nat_of_ascii c =? 91).
    { pose proof (skipWs_length s) as Hin.
      destruct (skipWs s) as [|c' s'] eqn:Hs'; [discriminate|].
      simpl String.length in Hin.
      destruct (nat_of_ascii c' =? 93).
      - injection H as <- <-. lia.
      - apply IHe in H. simpl String.length in H. lia. }
    destruct (nat_of_ascii c =? 123).
    { pose proof (skipWs_length s) as Hin.
      destruct (skipWs s) as [|c' s'] eqn:Hs'; [discriminate|].
      simpl String.length in Hin.
      destruct (nat_of_ascii c' =? 125).
      - injection H as <- <-. lia.
      - apply IHm in H. simpl String.length in H. lia. }
    destruct (startsWith (String c s) "true").
    { injection H as <- <-. pose proof (drop_progress 3 c s) as Hd.
      simpl in Hd |- *. lia. }
    destruct (startsWith (String c s) "false").
    { injection H as <- <-. pose proof (drop_progress 4 c s) as Hd.
      simpl in Hd |- *. lia. }
    destruct (startsWith (String c s) "null").
    { injection H as <- <-. pose proof (drop_progress 3 c s) as Hd.
      simpl in Hd |- *. lia. }
    pose proof (spanNumber_length (String c s)) as Hspan.
    destruct (spanNumber (String c s)) as [token after].
    destruct (isNumber token) eqn:Hnum; [|discriminate].
    injection H as <- <-.
    destruct token; [discriminate|]. simpl in Hspan |- *. lia.
  - (* the elements of an array *)
    intros done text v rest H. cbn [parseElements] in H.
    apply andThen_Ok in H as ([v0 r0] & Hv & H). cbn [fst snd] in H.
    apply IHv in Hv.
    pose proof (skipWs_length r0) as Hws.
    destruct (skipWs r0) as [|c s]; [discriminate|].
    cbv zeta in H. simpl String.length in Hws.
    destruct (nat_of_ascii c =? 44); [apply IHe in H; lia|].
    destruct (nat_of_ascii c =? 93); [|discriminate].
    injection H as <- <-. lia.
  - (* the members of an object *)
    intros done text v rest H. cbn [parseMembers] in H.
    pose proof (skipWs_length text) as Hws.
    destruct (skipWs text) as [|q s]; [discriminate|].
    simpl String.length in Hws.
    destruct (nat_of_ascii q =? 34); [|discriminate].
    apply andThen_Ok in H as ([key r1] & Hkey & H). cbn [fst snd] in H.
    apply (stringBody_progress (S (String.length s))) in Hkey; [|lia].
    pose proof (skipWs_length r1) as Hws1.
    destruct (skipWs r1) as [|colon s1]; [discriminate|].
    simpl String.length in Hws1.
    destruct (nat_of_ascii colon =? 58); [|discriminate].
    apply andThen_Ok in H as ([v0 r0] & Hv & H). cbn [fst snd] in H.
    apply IHv in Hv.
    pose proof (skipWs_length r0) as Hws0.
    destruct (skipWs r0) as [|c s0]; [discriminate|].
    cbv zeta in H. simpl String.length in Hws0.
    destruct (nat_of_ascii c =? 44); [apply IHm in H; lia|].
    destruct (nat_of_ascii c =? 125); [|discriminate].
    injection H as <- <-. lia.
Qed.

(** The fuel [parse] provides is enough: two units for each character. *)
Lemma parse_fuel_enough fuel :
  (forall text,
      2 * String.length text + 1 <= fuel ->
      parseValue fuel text <> OutOfFuel)
  /\ (forall done text,
        2 * String.length text + 2 <= fuel ->
        parseElements fuel done text <> OutOfFuel)
  /\ (forall done text,
        2 * String.length text + 2 <= fuel ->
        parseMembers fuel done text <> OutOfFuel).
Proof.
  induction fuel as [|fuel (IHv & IHe & IHm)];
    [repeat split; intros; lia|].
  destruct (parse_progress fuel) as (Pv & Pe & Pm).
  repeat split.
  - intros text Hfuel. cbn [parseValue].
    pose proof (skipWs_length text) as Hws.
    destruct (skipWs text) as [|c s]; [discriminate|].
    cbv zeta. simpl String.length in Hws.
    destruct (nat_of_ascii c =? 34).
    { apply andThen_fuel; [apply stringBody_fuel|discriminate]. }
    destruct (nat_of_ascii c =? 91).
    { pose proof (skipWs_length s) as Hin.
      destruct (skipWs s) as [|c' s']; [discriminate|].
      destruct (nat_of_ascii c' =? 93); [discriminate|].
      apply IHe. simpl String.length in *. lia. }
    destruct (nat_of_ascii c =? 123).
    { pose proof (skipWs_length s) as Hin.
      destruct (skipWs s) as [|c' s']; [discriminate|].
      destruct (nat_of_ascii c' =? 125); [discriminate|].
      apply IHm. simpl String.length in *. lia. }
    destruct (startsWith (String c s) "true"); [discriminate|].
    destruct (startsWith (String c s) "false"); [discriminate|].
    destruct (startsWith (String c s) "null"); [discriminate|].
    destruct (spanNumber (String c s)) as [token after].
    destruct (isNumber token); discriminate.
  - intros done text Hfuel. cbn [parseElements].
    apply andThen_fuel; [apply IHv; lia|].
    intros [v0 r0] Hv. apply Pv in Hv. cbn [fst snd].
    pose proof (skipWs_length r0) as Hws.
    destruct (skipWs r0) as [|c s]; [discriminate|].
    cbv zeta. simpl String.length in Hws.
    destruct (nat_of_ascii c =? 44); [apply IHe; lia|].
    destruct (nat_of_ascii c =? 93); discriminate.
  - intros done text Hfuel. cbn [parseMembers].
    pose proof (skipWs_length text) as Hws.
    destruct (skipWs text) as [|q s]; [discriminate|].
    simpl String.length in Hws.
    destruct (nat_of_ascii q =? 34); [|discriminate].
    apply andThen_fuel; [apply stringBody_fuel|].
    intros [key r1] Hkey. cbn [fst snd].
    apply (stringBody_progress (S (String.length s))) in Hkey; [|lia].
    pose proof (skipWs_length r1) as Hws1.
    destruct (skipWs r1) as [|colon s1]; [discriminate|].
    simpl String.length in Hws1.
    destruct (nat_of_ascii colon =? 58); [|discriminate].
    apply andThen_fuel; [apply IHv; lia|].
    intros [v0 r0] Hv. apply Pv in Hv. cbn [fst snd].
    pose proof (skipWs_length r0) as Hws0.
    destruct (skipWs r0) as [|c s0]; [discriminate|].
    cbv zeta. simpl String.length in Hws0.
    destruct (nat_of_ascii c =? 44); [apply IHm; lia|].
    destruct (nat_of_ascii c =? 125); discriminate.
Qed.

(** [JSON.parse] always returns: a value, a [SyntaxError], or a text
    outside the model. *)
Lemma parse_total text : parse text <> OutOfFuel.
Proof.
  unfold parse. apply andThen_fuel.
  - apply (proj1 (parse_fuel_enough (2 * String.length text + 2))). lia.
  - intros [v rest] _. cbn [fst snd]. destruct (skipWs rest); discriminate.
Qed.

End JSONFacts.

Lemma asStrings_Str l : asStrings (map JSON.Str l) = Some l.
Proof. induction l as [|x l IH]; simpl; [reflexivity|now rewrite IH]. Qed.

(** The object [loadState] builds from a saved state is that state. *)
Lemma asState_stateToJson st :
  asState (withDefaults (stateToJson st)) = Some st.
Proof.
  destruct st as [ss es [q|]]; unfold asState; simpl;
    now rewrite !asStrings_Str.
Qed.

(** [JSON.parse] reads back what [JSON.stringify] wrote for a state. *)
Lemma parse_stringify_state st :
  JSON.parse (JSON.stringify (stateToJson st)) = JSON.Ok (stateToJson st).
Proof.
  unfold JSON.parse, JSON.stringify.
  set (doc := stateToJson st).
  set (text := JSON.serialize EmptyString doc).
  assert (Hdoc : exists ms, doc = JSON.Obj ms /\ ms <> []
                 /\ length ms <= 3
                 /\ fold_left JSON.setProperty ms [] = ms
                 /\ forall m f, In m ms ->
                      S (S (length (sites st) + length (excludedSites st))) <= f ->
                      JSON.parsesBack JSON.gap f (snd m)).
  { unfold doc, stateToJson. eexists; split; [reflexivity|].
    split; [discriminate|].
    split; [destruct (morningQuery st); simpl; lia|].
    split; [destruct (morningQuery st); reflexivity|].
    intros m f Hin Hf. destruct f as [|[|f]]; try lia.
    assert (Hsites : JSON.parsesBack JSON.gap (S (S f))
                       (JSON.Arr (map JSON.Str (sites st))))
      by (apply JSONFacts.parsesBack_strings; [reflexivity|lia]).
    assert (Hexcl : JSON.parsesBack JSON.gap (S (S f))
                      (JSON.Arr (map JSON.Str (excludedSites st))))
      by (apply JSONFacts.parsesBack_strings; [reflexivity|lia]).
    destruct Hin as [<-|[<-|Hin]]; [exact Hsites|exact Hexcl|].
    destruct (morningQuery st) as [q|]; [|contradiction].
    destruct Hin as [<-|[]]. apply JSONFacts.parsesBack_Str. }
  destruct Hdoc as (ms & Hms & Hne & Hlen & Hfold & Hvalues).
  assert (Hsize : length (sites st) + length (excludedSites st) + 4
                  <= String.length text).
  { unfold text, doc, stateToJson. cbn [app].
    rewrite JSONFacts.serialize_members.
    cbn [map fst snd app].
    set (inner := (EmptyString ++ JSON.gap)%string).
    destruct (morningQuery st) as [q|]; cbn [app map join];
      rewrite !length_append;
      pose proof (JSONFacts.length_serialize_strings inner (sites st));
      pose proof (JSONFacts.length_serialize_strings inner (excludedSites st));
      cbn [String.length]; lia. }
  replace (2 * String.length text + 2)
    with (S (2 * String.length text + 1)) by lia.
  set (fuel := 2 * String.length text + 1).
  assert (Hfuel : S (S (length (sites st) + length (excludedSites st)))
                  + length ms <= fuel) by (unfold fuel; lia).
  clearbody fuel.
  rewrite <- (append_nil_r text). unfold text. rewrite Hms.
  rewrite (JSONFacts.parseValue_object EmptyString fuel _ ms
             EmptyString eq_refl Hne Hfuel Hvalues).
  rewrite Hfold. reflexivity.
Qed.

(* ================================================================== *)
(** * Session state on disk *)
(* ================================================================== *)

(** What [saveState] does, by whether the disk can be written. *)
Lemma saveState_run w :
  saveState w
  = if writable (disk w)
    then (Normal tt,
          mkWorld (state w)
                  (mkDisk (Content (JSON.stringify (stateToJson (state w)))) true)
                  (backend w) (trace w))
    else (Normal tt,
          extend w [ConsoleError "Error saving state:"
                      (Some (mkThrown true None (Some "EACCES")
                               "EACCES: permission denied, open 'scraper-state.json'"))]).
Proof.
  unfold saveState, try_catch, bind, getState, writeFile.
  destruct (writable (disk w)); reflexivity.
Qed.

Lemma saveState_state w : state (snd (saveState w)) = state w.
Proof. rewrite saveState_run. destruct (writable (disk w)); reflexivity. Qed.

Lemma loadState_content w data :
  file (disk w) = Content data ->
  loadState w
  = match JSON.parse data with
    | JSON.Ok loadedState =>
        match asState (withDefaults loadedState) with
        | Some st => (Normal tt, mkWorld st (disk w) (backend w) (trace w))
        | None => (Untyped, w)
        end
    | JSON.SyntaxError =>
        (Normal tt,
         extend w [ConsoleError "Error loading state:"
                     (Some (mkThrown true None None "Unexpected token in JSON"))])
    | JSON.Unrepresented | JSON.OutOfFuel => (Untyped, w)
    end.
Proof.
  intros Hfile.
  unfold loadState, try_catch, bind, readFile, JSON_parse. rewrite Hfile.
  destruct (JSON.parse data) as [loadedState| | |]; try reflexivity.
  destruct (asState (withDefaults loadedState)); reflexivity.
Qed.

Lemma loadState_absent w : file (disk w) = Absent -> loadState w = (Normal tt, w).
Proof.
  intros Hfile. unfold loadState, try_catch, bind, readFile. now rewrite Hfile.
Qed.

Lemma loadState_unreadable w c :
  file (disk w) = Unreadable c ->
  loadState w
  = if String.eqb c "ENOENT" then (Normal tt, w)
    else (Normal tt,
          extend w [ConsoleError "Error loading state:"
                      (Some (mkThrown true None (Some c)
                               (c ++ ": open 'scraper-state.json'")%string))]).
Proof.
  intros Hfile. unfold loadState, try_catch, bind, readFile. rewrite Hfile.
  unfold isENOENT. simpl. destruct (String.eqb c "ENOENT"); reflexivity.
Qed.

(** C7.  Saving any session state (empty or non-empty site lists, any
    morning query) to a writable disk and loading it after a restart
    gives back the saved state: the load completes normally, logs nothing,
    and the in-memory state equals the one that was saved. *)
Theorem save_then_load_roundtrip :
  forall w,
    writable (disk w) = true ->
    let saved := snd (saveState w) in
    let loaded := loadState (restart saved) in
    file (disk saved) = Content (JSON.stringify (stateToJson (state w)))
    /\ fst loaded = Normal tt
    /\ state (snd loaded) = state w
    /\ trace (snd loaded) = trace w.
Proof.
  intros w Hw saved loaded.
  assert (Hsaved : saved
    = mkWorld (state w)
              (mkDisk (Content (JSON.stringify (stateToJson (state w)))) true)
              (backend w) (trace w)).
  { unfold saved. rewrite saveState_run, Hw. reflexivity. }
  assert (Hloaded : loaded
    = (Normal tt,
       mkWorld (state w) (disk saved) (backend w) (trace w))).
  { unfold loaded.
    rewrite (loadState_content (restart saved)
               (JSON.stringify (stateToJson (state w))))
      by (rewrite Hsaved; reflexivity).
    rewrite parse_stringify_state, asState_stateToJson.
    rewrite Hsaved. reflexivity. }
  rewrite Hloaded, Hsaved. repeat split.
Qed.

(** An empty priority list, one excluded site and a morning query of the
    user's. *)
Lemma save_then_load_roundtrip_witness :
  let st := mkState [] ["ads.example.com"] (Some "Any news about Rocq?") in
  let w := mkWorld st (mkDisk Absent true) Sample.overloaded [] in
  state (snd (loadState (restart (snd (saveState w))))) = st.
Proof.
  intros st w.
  exact (proj1 (proj2 (proj2 (save_then_load_roundtrip w eq_refl)))).
Defined.

(** C8.  [loadState] never throws.  With no state file it completes
    normally, logs nothing and changes nothing; with a state file that is
    not JSON it completes normally, logs the error, and leaves the
    in-memory state as it was.  Called at start-up, when the in-memory
    state is the default one, it leaves the defaults in both cases. *)
Theorem loadState_never_throws :
  forall w,
    (forall e, fst (loadState w) <> Throw e)
    /\ (file (disk w) = Absent -> loadState w = (Normal tt, w))
    /\ (forall data,
          file (disk w) = Content data ->
          JSON.parse data = JSON.SyntaxError ->
          exists error,
            loadState w
            = (Normal tt,
               extend w [ConsoleError "Error loading state:" (Some error)]))
    /\ (state w = initialState ->
        file (disk w) = Absent
        \/ (exists data, file (disk w) = Content data
                         /\ JSON.parse data = JSON.SyntaxError) ->
        state (snd (loadState w)) = initialState).
Proof.
  intros w. repeat split.
  - intros e. destruct (file (disk w)) as [|c|data] eqn:Hfile.
    + now rewrite loadState_absent.
    + rewrite (loadState_unreadable w c Hfile).
      destruct (String.eqb c "ENOENT"); discriminate.
    + rewrite (loadState_content w data Hfile).
      destruct (JSON.parse data) as [v| | |]; try discriminate.
      destruct (asState (withDefaults v)); discriminate.
  - apply loadState_absent.
  - intros data Hfile Hparse. eexists.
    rewrite (loadState_content w data Hfile), Hparse. reflexivity.
  - intros Hinit [Hfile|(data & Hfile & Hparse)].
    + now rewrite loadState_absent.
    + now rewrite (loadState_content w data Hfile), Hparse.
Qed.

(** No state file, and a state file that is not JSON. *)
Lemma loadState_never_throws_witness :
  let missing := Sample.fresh Sample.overloaded in
  let malformed :=
    mkWorld initialState (mkDisk (Content "{ sites: [") true)
            Sample.overloaded [] in
  loadState missing = (Normal tt, missing)
  /\ state (snd (loadState malformed)) = initialState.
Proof.
  intros missing malformed. split.
  - exact (proj1 (proj2 (loadState_never_throws missing)) eq_refl).
  - apply (proj2 (proj2 (proj2 (loadState_never_throws malformed))) eq_refl).
    right. exists "{ sites: [". split; reflexivity.
Defined.

(* ================================================================== *)
(** * The dispatcher: scrape and scrape-morning *)
(* ================================================================== *)

(** A command word that selects a case is not empty. *)
Lemma verbOf_truthy cmd verb :
  verbOf (toLowerCase cmd) = Some verb -> truthy cmd = true.
Proof. destruct cmd; [discriminate|reflexivity]. Qed.

Lemma processCommand_scrape line cmd args (isMorningScrape : bool) :
  split_space (trim line) = cmd :: args ->
  verbOf (toLowerCase cmd)
  = Some (if isMorningScrape then ScrapeMorning else Scrape) ->
  processCommand line = (scrapeCommand isMorningScrape args ;; ret false).
Proof.
  intros Hsplit Hverb. unfold processCommand.
  rewrite Hsplit, (verbOf_truthy _ _ Hverb), Hverb.
  destruct isMorningScrape; reflexivity.
Qed.

Lemma length_eqb_0 {A} (l : list A) : l <> [] -> (length l =? 0) = false.
Proof. destruct l; [contradiction|reflexivity]. Qed.

Lemma falsy_not_truthy query q :
  query = Some q -> truthy q = true -> falsy query = false.
Proof. intros -> H. simpl. now rewrite H. Qed.

Lemma scrapeCommand_no_sites isMorningScrape args w :
  sites (state w) = [] ->
  scrapeCommand isMorningScrape args w
  = (Normal tt, extend w [ConsoleLog noSitesMessage]).
Proof.
  intros Hsites. unfold scrapeCommand, bind, getState. now rewrite Hsites.
Qed.

Lemma scrapeCommand_usage (isMorningScrape : bool) args w :
  sites (state w) <> [] ->
  falsy (if isMorningScrape then morningQuery (state w)
         else Some (join " " args)) = true ->
  scrapeCommand isMorningScrape args w
  = (Normal tt, extend w [ConsoleLog scrapeUsage]).
Proof.
  intros Hsites Hfalsy. unfold scrapeCommand, bind, getState.
  rewrite (length_eqb_0 _ Hsites).
  destruct (if isMorningScrape then morningQuery (state w)
            else Some (join " " args)) as [q|]; [|reflexivity].
  simpl in Hfalsy. now rewrite Hfalsy.
Qed.

Lemma scrapeCommand_invokes (isMorningScrape : bool) args w q :
  sites (state w) <> [] ->
  (if isMorningScrape then morningQuery (state w) else Some (join " " args))
  = Some q ->
  truthy q = true ->
  exists rest,
    scrapeCommand isMorningScrape args w
    = (Normal tt,
       extend w (ShowProcessingAnimation "Scraping the web with Gemini..."
                 :: Generate (request q (sites (state w))
                                      (excludedSites (state w)))
                 :: rest)).
Proof.
  intros Hsites Hquery Htruthy.
  unfold scrapeCommand, bind at 1, getState.
  rewrite (length_eqb_0 _ Hsites), Hquery, Htruthy. cbn [negb].
  unfold bind at 1, emit, try_catch, bind at 1.
  destruct (scrapeWithGrounding_starts Terminal q (sites (state w))
              (excludedSites (state w))
              (extend w [ShowProcessingAnimation
                           "Scraping the web with Gemini..."]))
    as (completion & rest & Hrun & Htyped).
  rewrite Hrun. rewrite extend_extend.
  destruct completion as [result|error|]; [| |contradiction].
  - unfold bind, emit. rewrite !extend_extend. eexists. reflexivity.
  - unfold bind, emit. rewrite !extend_extend. eexists. reflexivity.
Qed.

Lemma WebApp_processCommand_scrape line cmd args :
  split_space (trim line) = cmd :: args ->
  verbOf (toLowerCase cmd) = Some Scrape ->
  WebApp.processCommand line = (o <- WebApp.scrapeCommand args ;; ret (Some o)).
Proof.
  intros Hsplit Hverb. unfold WebApp.processCommand. now rewrite Hsplit, Hverb.
Qed.

Lemma WebApp_processCommand_scrapeMorning line cmd args :
  split_space (trim line) = cmd :: args ->
  verbOf (toLowerCase cmd) = Some ScrapeMorning ->
  WebApp.processCommand line = (o <- WebApp.scrapeMorningCommand ;; ret (Some o)).
Proof.
  intros Hsplit Hverb. unfold WebApp.processCommand. now rewrite Hsplit, Hverb.
Qed.

Lemma WebApp_answer heading q w :
  exists output rest,
    WebApp.answer heading q (state w) w
    = (Normal output,
       extend w (Generate (request q (sites (state w))
                                   (excludedSites (state w))) :: rest)).
Proof.
  unfold WebApp.answer, try_catch, bind.
  destruct (scrapeWithGrounding_starts Browser q (sites (state w))
              (excludedSites (state w)) w)
    as (completion & rest & Hrun & Htyped).
  rewrite Hrun.
  destruct completion as [result|error|]; [| |contradiction];
    do 2 eexists; reflexivity.
Qed.

(** In the browser variant the morning query starts non-empty and stays
    so, which is why its [scrape-morning] has no usage branch. *)
Lemma WebApp_initialMorningQuery_truthy stored :
  truthy (WebApp.initialMorningQuery stored) = true.
Proof.
  unfold WebApp.initialMorningQuery.
  destruct stored as [q|]; [|reflexivity].
  destruct (truthy q) eqn:E; [exact E|reflexivity].
Qed.

Lemma WebApp_processCommand_keeps_morningQuery command w :
  hasMorningQuery (state w) ->
  hasMorningQuery (state (snd (WebApp.processCommand command w))).
Proof.
  intros Hq. unfold WebApp.processCommand.
  destruct (split_space (trim command)) as [|cmd args]; [exact Hq|].
  destruct (verbOf (toLowerCase cmd)) as [[]|]; try exact Hq.
  - (* add-site *)
    unfold bind, WebApp.addCommand. destruct (0 <? length args); [|exact Hq].
    unfold bind, getState.
    destruct (sortArgs (sites (state w)) args) as [added duplicates].
    destruct (0 <? length added); exact Hq.
  - unfold bind, WebApp.listCommand, bind, getState.
    destruct (0 <? length (sites (state w))); exact Hq.
  - unfold bind, WebApp.removeCommand. destruct args as [|site args]; [exact Hq|].
    unfold bind, getState.
    destruct (arrayIncludes (sites (state w)) site); exact Hq.
  - unfold bind, WebApp.clearCommand, bind, getState.
    destruct (0 <? length (sites (state w))); exact Hq.
  - unfold bind, WebApp.addCommand. destruct (0 <? length args); [|exact Hq].
    unfold bind, getState.
    destruct (sortArgs (excludedSites (state w)) args) as [added duplicates].
    destruct (0 <? length added); exact Hq.
  - unfold bind, WebApp.listCommand, bind, getState.
    destruct (0 <? length (excludedSites (state w))); exact Hq.
  - unfold bind, WebApp.removeCommand. destruct args as [|site args]; [exact Hq|].
    unfold bind, getState.
    destruct (arrayIncludes (excludedSites (state w)) site); exact Hq.
  - unfold bind, WebApp.clearCommand, bind, getState.
    destruct (0 <? length (excludedSites (state w))); exact Hq.
  - (* set-morning-query *)
    destruct (truthy (join " " args)) eqn:E; [|exact Hq].
    simpl. exists (join " " args). split; [reflexivity|exact E].
  - (* scrape *)
    unfold bind at 1, WebApp.scrapeCommand, bind, getState.
    destruct (length (sites (state w)) =? 0); [exact Hq|].
    destruct (negb (truthy (join " " args))); [exact Hq|].
    destruct (WebApp_answer None (join " " args) w) as (o & rest & Hrun).
    rewrite Hrun. exact Hq.
  - (* scrape-morning *)
    unfold bind at 1, WebApp.scrapeMorningCommand, bind, getState.
    destruct (length (sites (state w)) =? 0); [exact Hq|].
    destruct (morningQuery (state w)) as [q|] eqn:E; [|exact Hq].
    match goal with
    | |- context [WebApp.answer ?h q (state w) w] =>
        destruct (WebApp_answer h q w) as (o & rest & Hrun)
    end.
    rewrite Hrun. unfold hasMorningQuery. simpl. rewrite E.
    destruct Hq as (q' & Hq' & Ht). exists q'. split; [congruence|exact Ht].
Qed.

(** C6.  For [scrape] and [scrape-morning], in both variants: with no
    priority site the command prints the fixed 'no priority sites' error
    and sends nothing to the backend; with at least one priority site and
    an empty query (the argument text for [scrape], the stored morning
    query for [scrape-morning]) it prints the usage message and does
    nothing else; with a non-empty query it invokes the orchestrator on
    that query and the two site lists.  (The browser's [scrape-morning]
    has no usage branch: its stored query is never empty, see
    [WebApp_processCommand_keeps_morningQuery].) *)
Theorem scrape_requires_sites_and_query :
  forall line cmd args (isMorningScrape : bool) w,
    split_space (trim line) = cmd :: args ->
    verbOf (toLowerCase cmd)
    = Some (if isMorningScrape then ScrapeMorning else Scrape) ->
    let query := if isMorningScrape then morningQuery (state w)
                 else Some (join " " args) in
    let req q := request q (sites (state w)) (excludedSites (state w)) in
    (sites (state w) = [] ->
     processCommand line w
     = (Normal false, extend w [ConsoleLog noSitesMessage])
     /\ WebApp.processCommand line w
        = (Normal (Some (WebApp.Text WebApp.noSitesMessage)), w))
    /\ (sites (state w) <> [] -> falsy query = true ->
        processCommand line w
        = (Normal false, extend w [ConsoleLog scrapeUsage])
        /\ (isMorningScrape = false ->
            WebApp.processCommand line w
            = (Normal (Some (WebApp.Text "Usage: scrape <query>")), w)))
    /\ (sites (state w) <> [] ->
        forall q, query = Some q -> truthy q = true ->
        (exists rest,
            processCommand line w
            = (Normal false,
               extend w (ShowProcessingAnimation "Scraping the web with Gemini..."
                         :: Generate (req q) :: rest)))
        /\ (exists output rest,
              WebApp.processCommand line w
              = (Normal (Some output), extend w (Generate (req q) :: rest)))).
Proof.
  intros line cmd args isMorningScrape w Hsplit Hverb query req.
  rewrite (processCommand_scrape line cmd args isMorningScrape Hsplit Hverb).
  assert (Hweb : WebApp.processCommand line
                 = (o <- (if isMorningScrape then WebApp.scrapeMorningCommand
                          else WebApp.scrapeCommand args) ;; ret (Some o))).
  { destruct isMorningScrape.
    - exact (WebApp_processCommand_scrapeMorning line cmd args Hsplit Hverb).
    - exact (WebApp_processCommand_scrape line cmd args Hsplit Hverb). }
  rewrite Hweb. clear Hweb.
  split; [|split].
  - intros Hsites. split.
    + unfold bind. now rewrite scrapeCommand_no_sites.
    + unfold bind. destruct isMorningScrape;
        unfold WebApp.scrapeMorningCommand, WebApp.scrapeCommand, bind, getState;
        now rewrite Hsites.
  - intros Hsites Hfalsy. split.
    + unfold bind. now rewrite scrapeCommand_usage.
    + intros ->. unfold bind, WebApp.scrapeCommand, bind, getState.
      rewrite (length_eqb_0 _ Hsites).
      unfold query, falsy in Hfalsy. now rewrite Hfalsy.
  - intros Hsites q Hquery Htruthy. split.
    + destruct (scrapeCommand_invokes isMorningScrape args w q
                  Hsites Hquery Htruthy) as (rest & Hrun).
      exists rest. unfold bind. now rewrite Hrun.
    + unfold bind at 1.
      destruct isMorningScrape;
        unfold WebApp.scrapeMorningCommand, WebApp.scrapeCommand, bind, getState;
        rewrite (length_eqb_0 _ Hsites); unfold query in Hquery.
      * rewrite Hquery.
        match goal with
        | |- context [WebApp.answer ?h q (state w) w] =>
            destruct (WebApp_answer h q w) as (o & rest & Hrun)
        end.
        rewrite Hrun. exists o, rest. reflexivity.
      * injection Hquery as <-. rewrite Htruthy. cbn [negb].
        destruct (WebApp_answer None (join " " args) w) as (o & rest & Hrun).
        rewrite Hrun. exists o, rest. reflexivity.
Qed.

(** [scrape] without priority sites, and [scrape-morning] without a
    morning query. *)
Lemma scrape_requires_sites_and_query_witness :
  let empty := Sample.fresh Sample.overloaded in
  let noQuery :=
    mkWorld (mkState ["a.com"] [] None) (mkDisk Absent true)
            Sample.overloaded [] in
  processCommand "scrape latest news" empty
  = (Normal false, extend empty [ConsoleLog noSitesMessage])
  /\ processCommand "Scrape-Morning" noQuery
     = (Normal false, extend noQuery [ConsoleLog scrapeUsage]).
Proof.
  intros empty noQuery. split.
  - exact (proj1 (proj1 (scrape_requires_sites_and_query
                           "scrape latest news" "scrape" ["latest"; "news"]
                           false empty eq_refl eq_refl) eq_refl)).
  - assert (Hsites : sites (state noQuery) <> []) by discriminate.
    exact (proj1 (proj1 (proj2 (scrape_requires_sites_and_query
                                  "Scrape-Morning" "Scrape-Morning" []
                                  true noQuery eq_refl eq_refl))
                        Hsites eq_refl)).
Defined.

(* ================================================================== *)
(** * The dispatcher: adding sites *)
(* ================================================================== *)

(** The [forEach] of [add-site] sorts the arguments into those not in the
    list and those in it, each in argument order. *)
Lemma sortArgs_partition arr args :
  sortArgs arr args
  = (filter (fun s => negb (arrayIncludes arr s)) args,
     filter (arrayIncludes arr) args).
Proof.
  unfold sortArgs.
  enough (H : forall added duplicates,
             fold_left
               (fun acc s =>
                  if arrayIncludes arr s then (fst acc, snd acc ++ [s])
                  else (fst acc ++ [s], snd acc))
               args (added, duplicates)
             = (added ++ filter (fun s => negb (arrayIncludes arr s)) args,
                duplicates ++ filter (arrayIncludes arr) args))
    by apply (H [] []).
  induction args as [|s args IH]; intros added duplicates.
  - simpl. now rewrite !app_nil_r.
  - simpl. destruct (arrayIncludes arr s); simpl; rewrite IH;
      now rewrite <- app_assoc.
Qed.

Lemma arrayIncludes_In arr s : arrayIncludes arr s = true <-> In s arr.
Proof.
  unfold arrayIncludes. rewrite existsb_exists. split.
  - intros (x & Hin & Heq). apply String.eqb_eq in Heq. now subst.
  - intros Hin. exists s. split; [exact Hin|apply String.eqb_refl].
Qed.

Lemma processCommand_addSite line cmd args :
  split_space (trim line) = cmd :: args ->
  verbOf (toLowerCase cmd) = Some AddSite ->
  processCommand line
  = (addCommand sites setSites
       "Priority sites added:" "Sites already existed:"
       "Usage: add-site <url1> [url2]..." args ;;
     ret false).
Proof.
  intros Hsplit Hverb. unfold processCommand.
  now rewrite Hsplit, (verbOf_truthy _ _ Hverb), Hverb.
Qed.

(** What [add-site] does to the priority list: the arguments not in the
    list are appended in argument order, the list's own entries stay in
    place, and nothing else of the state changes. *)
Lemma addSite_appends line cmd args w :
  split_space (trim line) = cmd :: args ->
  verbOf (toLowerCase cmd) = Some AddSite ->
  let added := filter (fun s => negb (arrayIncludes (sites (state w)) s)) args in
  exists w',
    processCommand line w = (Normal false, w')
    /\ sites (state w') = sites (state w) ++ added
    /\ excludedSites (state w') = excludedSites (state w)
    /\ morningQuery (state w') = morningQuery (state w).
Proof.
  intros Hsplit Hverb added.
  rewrite (processCommand_addSite line cmd args Hsplit Hverb).
  unfold addCommand.
  destruct args as [|arg args].
  { eexists. split; [reflexivity|]. simpl. rewrite app_nil_r. auto. }
  change (0 <? length (arg :: args)) with true. cbv iota.
  unfold bind at 1 2, getState. cbv beta iota.
  rewrite sortArgs_partition. fold added.
  set (duplicates := filter (arrayIncludes (sites (state w))) (arg :: args)).
  set (report := if 0 <? length duplicates then console_log _ else ret tt).
  assert (Hreport : forall w', exists new, report w' = (Normal tt, extend w' new)).
  { intros w'. unfold report.
    destruct (0 <? length duplicates); eexists; [reflexivity|].
    unfold ret. now rewrite extend_nil. }
  clearbody report.
  destruct added as [|a added'].
  - change (0 <? length (@nil string)) with false. cbv iota.
    unfold bind at 1, ret at 1.
    destruct (Hreport w) as (new & Hnew). rewrite Hnew.
    eexists. split; [reflexivity|].
    rewrite app_nil_r. simpl. auto.
  - change (0 <? length (a :: added')) with true. cbv iota.
    unfold bind at 1 2 3, setSites, setState.
    rewrite saveState_run. cbn [disk state writable].
    destruct (writable (disk w)); unfold console_log, emit;
      match goal with
      | |- context [report ?w'] =>
          destruct (Hreport w') as (new & Hnew); rewrite Hnew
      end; eexists; (split; [reflexivity|]); simpl; auto.
Qed.

(** The same for the browser variant. *)
Lemma WebApp_addSite_appends line cmd args w :
  split_space (trim line) = cmd :: args ->
  verbOf (toLowerCase cmd) = Some AddSite ->
  let added := filter (fun s => negb (arrayIncludes (sites (state w)) s)) args in
  let duplicates := filter (arrayIncludes (sites (state w))) args in
  exists w',
    WebApp.processCommand line w
    = (Normal (Some (if 0 <? length args
                     then WebApp.AddReport "Sites added: " added
                                        "Sites already existed: " duplicates
                     else WebApp.Text "Usage: add-site <url1> [url2]...")),
       w')
    /\ sites (state w') = sites (state w) ++ added
    /\ excludedSites (state w') = excludedSites (state w)
    /\ morningQuery (state w') = morningQuery (state w).
Proof.
  intros Hsplit Hverb added duplicates.
  unfold WebApp.processCommand. rewrite Hsplit, Hverb.
  unfold WebApp.addCommand.
  destruct args as [|arg args].
  { eexists. split; [reflexivity|]. simpl. rewrite app_nil_r. auto. }
  change (0 <? length (arg :: args)) with true. cbv iota.
  unfold bind at 1 2, getState. cbv beta iota.
  rewrite sortArgs_partition. fold added. fold duplicates.
  destruct added as [|a added'].
  - eexists. split; [reflexivity|]. simpl. rewrite app_nil_r. auto.
  - eexists. split; [reflexivity|]. simpl. auto.
Qed.

(** The list stays free of repetitions when it was, provided no argument
    is given twice. *)
Lemma addSite_NoDup arr args :
  NoDup arr -> NoDup args ->
  NoDup (arr ++ filter (fun s => negb (arrayIncludes arr s)) args).
Proof.
  intros Harr Hargs.
  assert (Hfilter : NoDup (filter (fun s => negb (arrayIncludes arr s)) args))
    by now apply NoDup_filter.
  revert Hfilter.
  assert (Hnew : forall s,
             In s (filter (fun s => negb (arrayIncludes arr s)) args) ->
             ~ In s arr).
  { intros s Hin Harr'. apply filter_In in Hin as [_ Hnot].
    apply arrayIncludes_In in Harr'. now rewrite Harr' in Hnot. }
  revert Hnew. generalize (filter (fun s => negb (arrayIncludes arr s)) args).
  intros new Hnew Hnodup.
  induction Harr as [|x arr Hx Harr IH]; [exact Hnodup|].
  simpl. constructor.
  - intros Hin. apply in_app_or in Hin as [Hin|Hin]; [now apply Hx|].
    apply (Hnew x Hin). now left.
  - apply IH. intros s Hs Hin. apply (Hnew s Hs). now right.
Qed.

(** C5 fails on the code: an argument given twice to [add-site] is added
    twice, in the terminal variant and in the browser variant, so the
    priority list does not stay free of duplicates. *)
Theorem addSite_repeated_argument :
  let w := Sample.fresh Sample.overloaded in
  sites (state w) = []
  /\ sites (state (snd (processCommand "add-site a.com a.com" w)))
     = ["a.com"; "a.com"]
  /\ sites (state (snd (WebApp.processCommand "add-site a.com a.com" w)))
     = ["a.com"; "a.com"]
  /\ ~ NoDup (sites (state (snd (processCommand "add-site a.com a.com" w)))).
Proof.
  intros w. repeat split.
  intros H. inversion H as [|x l Hin _]; subst. apply Hin. now left.
Qed.

(* ================================================================== *)
(** * A state file without a morning query *)
(* ================================================================== *)









(* ================================================================== *)
(** * The orchestrator under any backend *)
(* ================================================================== *)

Lemma requestsIn_app a b : requestsIn (a ++ b) = requestsIn a ++ requestsIn b.
Proof. unfold requestsIn. now rewrite flat_map_app. Qed.

Lemma delaysIn_app a b : delaysIn (a ++ b) = delaysIn a ++ delaysIn b.
Proof. unfold delaysIn. now rewrite flat_map_app. Qed.

Lemma requestsIn_retryEvents v r delay i k :
  requestsIn (retryEvents v r delay i k) = repeat r k.
Proof.
  revert delay i. induction k as [|k IH]; intros delay i; [reflexivity|].
  cbn [retryEvents].
  change (repeat r (S k)) with (r :: repeat r k). rewrite <- (IH (delay * 2)%Z (S i)).
  destruct v; reflexivity.
Qed.

Lemma delaysIn_retry v r delay line rest :
  delaysIn (Generate r :: retryEvent v line :: SetTimeout delay :: rest)
  = delay :: delaysIn rest.
Proof. destruct v; reflexivity. Qed.

(** The delays of [k] retries: [delay], twice that, and so on. *)
Lemma delaysIn_retryEvents v r delay i k :
  delaysIn (retryEvents v r delay i k)
  = map (fun j => (delay * 2 ^ Z.of_nat j)%Z) (seq 0 k).
Proof.
  revert delay i. induction k as [|k IH]; intros delay i; [reflexivity|].
  cbn [retryEvents]. rewrite delaysIn_retry, IH. cbn [seq map].
  replace (delay * 2 ^ Z.of_nat 0)%Z with delay by (simpl; lia).
  f_equal.
  rewrite <- seq_shift, map_map. apply map_ext. intros j.
  rewrite Nat2Z.inj_succ, Z.pow_succ_r by lia. lia.
Qed.

(** The shape of every run of the loop that starts with at least one
    iteration left: some retried attempts, then one last request that is
    either resolved or surfaces its error. *)
Lemma attempts_shape v query sites excludedSites :
  forall remaining i delay w,
    0 < remaining -> i + remaining = MAX_RETRIES ->
    exists k,
      k < remaining
      /\ ((exists response,
              succeedsAfter w (request query sites excludedSites) k response
              /\ attempts v remaining i delay query sites excludedSites w
                 = (Normal (mkResult (text response)
                                     (extractSources (groundingChunksOf response))),
                    extend w (retryEvents v (request query sites excludedSites)
                                          delay i k
                              ++ [Generate (request query sites excludedSites)])))
          \/ (exists e,
                 failsAfter w (request query sites excludedSites) k e
                 /\ (status503 e = false \/ i + k = MAX_RETRIES - 1)
                 /\ attempts v remaining i delay query sites excludedSites w
                    = (Throw (surfaced e),
                       extend w (retryEvents v (request query sites excludedSites)
                                             delay i k
                                 ++ [Generate (request query sites excludedSites);
                                     ConsoleError "Error calling Gemini API:"
                                                  (Some e)])))).
Proof.
  induction remaining as [|remaining IH]; intros i delay w Hpos Hsum; [lia|].
  destruct (backend w (requestsSent w) (request query sites excludedSites))
    as [response|error] eqn:Hb.
  - exists 0. split; [lia|]. left. exists response. split.
    + split; [intros j Hj; lia|now rewrite Nat.add_0_r].
    + now rewrite (attempts_resolves _ _ _ _ _ _ _ _ _ Hb).
  - destruct (status503 error && (i <? MAX_RETRIES - 1)) eqn:Hc.
    + apply andb_true_iff in Hc as [H503 Hi]. apply Nat.ltb_lt in Hi.
      rewrite (attempts_retries _ _ _ _ _ _ _ _ _ Hb H503 Hi).
      set (w1 := extend w _).
      assert (R : forall j, requestsSent w1 + j = requestsSent w + S j).
      { intros j. unfold w1. rewrite requestsSent_extend.
        destruct v; simpl; lia. }
      destruct (IH (S i) (delay * 2)%Z w1) as (k & Hk & Hcase);
        [unfold MAX_RETRIES in *; lia|lia|].
      exists (S k). split; [lia|].
      assert (Hprefix :
                 (forall j, j < k ->
                    exists e', backend w1 (requestsSent w1 + j)
                                 (request query sites excludedSites) = Rejects e'
                               /\ status e' = Some 503%Z) ->
                 forall j, j < S k ->
                   exists e', backend w (requestsSent w + j)
                                (request query sites excludedSites) = Rejects e'
                              /\ status e' = Some 503%Z).
      { intros Hrej [|j] Hj.
        - exists error. rewrite Nat.add_0_r.
          split; [exact Hb|now apply status503_true].
        - destruct (Hrej j) as (e' & He' & Hs); [lia|].
          rewrite R in He'. exists e'. auto. }
      destruct Hcase as [(response & [Hrej Hres] & Hrun)
                        |(e & [Hrej Hres] & Hwhy & Hrun)].
      * left. exists response. split.
        -- split; [now apply Hprefix|].
           rewrite R in Hres. exact Hres.
        -- rewrite Hrun. unfold w1. rewrite extend_extend. reflexivity.
      * right. exists e. split; [|split].
        -- split; [now apply Hprefix|].
           rewrite R in Hres. exact Hres.
        -- destruct Hwhy; [now left|right; lia].
        -- rewrite Hrun. unfold w1. rewrite extend_extend. reflexivity.
    + exists 0. split; [lia|]. right. exists error. split; [|split].
      * split; [intros j Hj; lia|now rewrite Nat.add_0_r].
      * apply andb_false_iff in Hc as [H|H]; [now left|].
        right. apply Nat.ltb_ge in H. unfold MAX_RETRIES in *. lia.
      * now rewrite (attempts_surfaces _ _ _ _ _ _ _ _ _ Hb Hc).
Qed.



(** X1.  Whatever the backend does, one call of [scrapeWithGrounding]
    sends between one and three requests, all of them the same scoped
    request, and sleeps once between two consecutive requests, 1000 ms
    after the first and 2000 ms after the second: its requests and sleeps,
    in the order in which they happen, are request, sleep 1000, request,
    sleep 2000, request, cut after the first, the second or the third
    request.  It never sleeps before the first request or after the
    last. *)
Theorem retry_budget_never_exceeded :
  forall v query sites excludedSites w,
    let req := request query sites excludedSites in
    let events :=
      eventsDuring (scrapeWithGrounding v query sites excludedSites) w in
    exists retries,
      retries <= 2
      /\ requestsAndSleeps events
         = firstn (2 * retries + 1)
                  [Generate req; SetTimeout 1000; Generate req;
                   SetTimeout 2000; Generate req]
      /\ requestsIn events = repeat req (S retries)
      /\ delaysIn events = firstn retries [1000%Z; 2000%Z].
Proof.
  intros v query sites excludedSites w req events.
  destruct (attempts_shape v query sites excludedSites MAX_RETRIES 0 1000%Z w)
    as (k & Hk & Hcase); [unfold MAX_RETRIES; lia|lia|].
  fold (scrapeWithGrounding v query sites excludedSites) in Hcase.
  fold req in Hcase.
  exists k. unfold MAX_RETRIES in Hk. split; [lia|].
  assert (Hevents : exists last,
             events = retryEvents v req 1000 0 k ++ Generate req :: last
             /\ requestsAndSleeps last = []).
  { destruct Hcase as [(response & _ & Hrun)|(e & _ & _ & Hrun)].
    - exists []. split; [|reflexivity].
      unfold events. now rewrite (eventsDuring_extend _ w _ (f_equal snd Hrun)).
    - exists [ConsoleError "Error calling Gemini API:" (Some e)].
      split; [|reflexivity].
      unfold events.
      rewrite (eventsDuring_extend _ w _ (f_equal snd Hrun)). reflexivity. }
  destruct Hevents as (last & -> & Hlast).
  assert (Hreq : requestsIn last = [] /\ delaysIn last = []).
  { clear - Hlast. unfold requestsAndSleeps in Hlast.
    induction last as [|e last IH]; [split; reflexivity|].
    simpl in Hlast. destruct e; simpl in Hlast; try discriminate;
      destruct (IH Hlast) as [Hr Hd]; split; simpl; assumption. }
  destruct Hreq as [Hreq Hdelay].
  split; [|split].
  - unfold requestsAndSleeps. rewrite filter_app.
    change (filter isRequestOrSleep (Generate req :: last))
      with (Generate req :: requestsAndSleeps last).
    rewrite Hlast.
    destruct k as [|[|[|k]]]; try lia; destruct v; reflexivity.
  - rewrite requestsIn_app, requestsIn_retryEvents.
    change (requestsIn (Generate req :: last)) with (req :: requestsIn last).
    rewrite Hreq. clear. induction k as [|k IH]; [reflexivity|].
    simpl. now rewrite IH.
  - rewrite delaysIn_app, delaysIn_retryEvents.
    change (delaysIn (Generate req :: last)) with (delaysIn last).
    rewrite Hdelay, app_nil_r.
    destruct k as [|[|[|k]]]; try lia; reflexivity.
Qed.

(** X2.  [scrapeWithGrounding] ends in one of four ways: a result, the
    invalid-key error, the overload error or the generic fetch error.  The
    fallback error after the loop ('... after multiple retries') is never
    thrown. *)
Theorem fallback_error_unreachable :
  forall v query sites excludedSites w,
    let completion := fst (scrapeWithGrounding v query sites excludedSites w) in
    ((exists result, completion = Normal result)
     \/ completion = Throw (new_Error invalidKeyMessage)
     \/ completion = Throw (new_Error overloadedMessage)
     \/ completion = Throw (new_Error upstreamMessage))
    /\ completion <> Throw (new_Error retriesExhaustedMessage).
Proof.
  intros v query sites excludedSites w completion.
  destruct (attempts_shape v query sites excludedSites MAX_RETRIES 0 1000%Z w)
    as (k & Hk & Hcase); [unfold MAX_RETRIES; lia|lia|].
  fold (scrapeWithGrounding v query sites excludedSites) in Hcase.
  destruct Hcase as [(response & _ & Hrun)|(e & _ & _ & Hrun)];
    unfold completion; rewrite Hrun; cbn [fst].
  - split; [left; eauto|discriminate].
  - unfold surfaced.
    destruct (instanceofError e && includes (message e) "API key not valid");
      [split; [auto|discriminate]|].
    destruct (status503 e); split; auto; discriminate.
Qed.

Lemma attempts_failsAfter v query sites excludedSites e :
  forall k remaining i delay w,
    k < remaining -> i + k < MAX_RETRIES ->
    failsAfter w (request query sites excludedSites) k e ->
    status503 e = false ->
    attempts v remaining i delay query sites excludedSites w
    = (Throw (surfaced e),
       extend w (retryEvents v (request query sites excludedSites) delay i k
                 ++ [Generate (request query sites excludedSites);
                     ConsoleError "Error calling Gemini API:" (Some e)])).
Proof.
  induction k as [|k IH]; intros remaining i delay w Hk Hi [Hrej Hres] He;
    (destruct remaining as [|remaining]; [lia|]).
  - rewrite Nat.add_0_r in Hres.
    rewrite (attempts_surfaces _ _ _ _ _ _ _ _ _ Hres); [reflexivity|].
    now rewrite He.
  - destruct (Hrej 0) as (e0 & He0 & Hs); [lia|].
    rewrite Nat.add_0_r in He0.
    rewrite (attempts_retries _ _ _ _ _ _ _ _ _ He0)
      by (try (unfold status503; now rewrite Hs); unfold MAX_RETRIES in *; lia).
    set (w1 := extend w _).
    assert (R : forall j, requestsSent w1 + j = requestsSent w + S j).
    { intros j. unfold w1. rewrite requestsSent_extend.
      destruct v; simpl; lia. }
    rewrite (IH remaining (S i) (delay * 2)%Z w1); try lia; try assumption.
    + unfold w1. rewrite extend_extend. reflexivity.
    + split.
      * intros j Hj. rewrite R. simpl backend. apply Hrej. lia.
      * rewrite R. exact Hres.
Qed.

(** X3.  A rejection that is not an overload ends the call at once also
    when it comes after retried overloads: after [k] rejections with
    status 503 ([k] below 3) and then a rejection with another status, the
    orchestrator has slept the first [k] delays of 1000, 2000, sends no
    further request, logs the rejection and throws the invalid-key error
    or the generic fetch error. *)
Theorem later_failure_fails_immediately :
  forall v query sites excludedSites w k e,
    let req := request query sites excludedSites in
    let run := scrapeWithGrounding v query sites excludedSites in
    k < MAX_RETRIES ->
    failsAfter w req k e ->
    status e <> Some 503%Z ->
    eventsDuring run w
    = retryEvents v req 1000 0 k
      ++ [Generate req; ConsoleError "Error calling Gemini API:" (Some e)]
    /\ delaysIn (eventsDuring run w) = firstn k [1000%Z; 2000%Z]
    /\ fst (run w)
       = Throw (new_Error
                  (if instanceofError e
                      && includes (message e) "API key not valid"
                   then invalidKeyMessage else upstreamMessage)).
Proof.
  intros v query sites excludedSites w k e req run Hk Hfails Hs.
  assert (T : status503 e = false).
  { unfold status503. destruct (status e) as [n|]; [|reflexivity].
    apply Z.eqb_neq. intros ->. now apply Hs. }
  assert (Hrun := attempts_failsAfter v query sites excludedSites e k
                    MAX_RETRIES 0 1000%Z w Hk ltac:(lia) Hfails T).
  fold (scrapeWithGrounding v query sites excludedSites) in Hrun.
  fold run req in Hrun.
  rewrite (eventsDuring_extend run w _ (f_equal snd Hrun)), Hrun.
  split; [reflexivity|]. split.
  - rewrite delaysIn_app, delaysIn_retryEvents.
    change (delaysIn [Generate req;
                      ConsoleError "Error calling Gemini API:" (Some e)])
      with (@nil Z).
    rewrite app_nil_r. unfold MAX_RETRIES in Hk.
    destruct k as [|[|[|k]]]; try lia; reflexivity.
  - cbn [fst]. unfold surfaced. now rewrite T.
Qed.

(** One overload, then a quota error: one sleep of 1000 ms, two requests,
    the generic fetch error. *)
Lemma later_failure_fails_immediately_witness :
  let w := Sample.fresh SampleFailure.backend in
  let run := scrapeWithGrounding Terminal "X" ["a.com"] [] in
  delaysIn (eventsDuring run w) = [1000%Z]
  /\ fst (run w) = Throw (new_Error upstreamMessage).
Proof.
  intros w run.
  assert (Hk : 1 < MAX_RETRIES) by (unfold MAX_RETRIES; lia).
  assert (Hf : failsAfter w (request "X" ["a.com"] []) 1 Sample.quotaError).
  { split; [|reflexivity].
    intros j Hj. destruct j as [|j]; [|lia].
    eexists; split; reflexivity. }
  assert (Hs : status Sample.quotaError <> Some 503%Z) by discriminate.
  destruct (later_failure_fails_immediately Terminal "X" ["a.com"] [] w 1
              Sample.quotaError Hk Hf Hs) as (_ & Hdelay & Hres).
  split; assumption.
Defined.

(* ================================================================== *)
(** * The sources of a result *)
(* ================================================================== *)

Lemma extractSources_chunks chunks :
  extractSources (Some chunks) = dedupByUri (withUri (map web chunks)).
Proof.
  unfold extractSources. rewrite reduce_dedupByUri. simpl.
  induction (dedupByUri (withUri (map web chunks))) as [|x l IH];
    simpl; congruence.
Qed.

(** X4.  The sources extracted from any list of grounding chunks have
    pairwise different URIs, each is a chunk's web part with a non-empty
    URI, and every such web part of the list has its URI among them. *)
Theorem sources_have_distinct_uris :
  forall chunks,
    let result := extractSources (Some chunks) in
    NoDup (map uri result)
    /\ (forall x, In x result ->
          In (Some x) (map web chunks)
          /\ exists u, uri x = Some u /\ u <> EmptyString)
    /\ (forall x u, In (Some x) (map web chunks) ->
          uri x = Some u -> u <> EmptyString ->
          exists kept, In kept result /\ uri kept = Some u).
Proof.
  intros chunks result. unfold result. rewrite extractSources_chunks.
  split; [apply dedupByUri_NoDup|]. split.
  - intros x Hin. apply dedupByUri_In, withUri_In in Hin as [Hin Hx].
    split; [exact Hin|].
    destruct x as [[u|] t]; [|discriminate]. exists u. split; [reflexivity|].
    intros ->. discriminate.
  - intros x u Hin Hu Hne.
    assert (Hx : In x (withUri (map web chunks))).
    { apply withUri_In. split; [exact Hin|].
      destruct x as [[u'|] t]; simpl in *; [|discriminate].
      injection Hu as ->. destruct u; [contradiction|reflexivity]. }
    destruct (dedupByUri_covers x _ Hx) as (kept & Hkept & Hsame).
    exists kept. split; [exact Hkept|].
    apply sameUri_eq in Hsame. congruence.
Qed.

Lemma withUri_all webs :
  (forall x, In x webs -> hasUri (Some x) = true) ->
  withUri (map Some webs) = webs.
Proof.
  induction webs as [|x webs IH]; intros Hall; [reflexivity|].
  cbn [map]. rewrite hasUri_withUri, (Hall x) by now left.
  f_equal. apply IH. intros y Hy. apply Hall. now right.
Qed.

Lemma dedupByUri_distinct webs :
  NoDup (map uri webs) -> dedupByUri webs = webs.
Proof.
  induction webs as [|x webs IH]; intros H; [reflexivity|].
  inversion H as [|? ? Hx Hrest]; subst.
  cbn [dedupByUri]. rewrite (IH Hrest). f_equal.
  apply forallb_filter_id. apply forallb_forall. intros y Hy.
  destruct (sameUri x y) eqn:E; [|reflexivity].
  apply sameUri_eq in E. exfalso. apply Hx. rewrite E. now apply in_map.
Qed.

(** X5.  Nothing is lost when there is nothing to remove: grounding
    chunks whose web parts all have a non-empty URI, no two the same, come
    back as the sources, all of them and in their order. *)
Theorem distinct_sources_kept :
  forall webs,
    (forall x, In x webs -> hasUri (Some x) = true) ->
    NoDup (map uri webs) ->
    extractSources (Some (map (fun x => mkChunk (Some x)) webs)) = webs.
Proof.
  intros webs Hall Hdistinct.
  rewrite extractSources_chunks, map_map.
  rewrite (map_ext _ Some) by reflexivity.
  rewrite (withUri_all webs Hall). now apply dedupByUri_distinct.
Qed.

(** Two citations with different URIs and the same title. *)
Lemma distinct_sources_kept_witness :
  let webs := [mkWeb (Some "https://a.example/1") (Some "News");
               mkWeb (Some "https://b.example/2") (Some "News")] in
  extractSources (Some (map (fun x => mkChunk (Some x)) webs)) = webs.
Proof.
  intros webs. apply distinct_sources_kept.
  - intros x [<-|[<-|[]]]; reflexivity.
  - repeat constructor; simpl; intuition discriminate.
Defined.

(* ================================================================== *)
(** * The scoped query string *)
(* ================================================================== *)






Lemma trimStart_app s tail :
  trimStart (s ++ tail)
  = match trimStart s with
    | EmptyString => trimStart tail
    | kept => (kept ++ tail)%string
    end.
Proof.
  induction s as [|c s IH]; simpl; [now destruct (trimStart tail)|].
  destruct (isWhiteSpace c); [exact IH|reflexivity].
Qed.

Lemma trimEnd_app_space s : trimEnd (s ++ " ") = trimEnd s.
Proof.
  induction s as [|c s IH]; [reflexivity|].
  simpl. now rewrite IH.
Qed.

Lemma trim_app_space s : trim (s ++ " ") = trim s.
Proof.
  unfold trim. rewrite trimStart_app.
  destruct (trimStart s) as [|c kept]; [reflexivity|].
  change (String c kept ++ " ")%string with (String c (kept ++ " ")).
  change (String c (kept ++ " ")) with (String c kept ++ " ")%string.
  apply trimEnd_app_space.
Qed.




(** X7.  Empty site lists leave no trace in the query string: with no
    excluded site it is the trimmed query followed by the 'site:' terms,
    and with no site at all it is the trimmed query alone. *)
Theorem fullQuery_without_sites :
  forall query sites,
    fullQuery query sites []
    = trim (query ++ " " ++ siteSearchQuery sites)%string
    /\ fullQuery query [] [] = trim query.
Proof.
  intros query sites. unfold fullQuery.
  assert (H : forall clause,
             trim (query ++ " " ++ clause ++ " " ++ excludeQuery [])%string
             = trim (query ++ " " ++ clause)%string).
  { intros clause. cbn [excludeQuery map join].
    rewrite <- (trim_app_space (query ++ " " ++ clause)).
    rewrite !append_assoc. reflexivity. }
  split; [apply H|].
  rewrite H. cbn [siteSearchQuery map join].
  rewrite <- (trim_app_space query). reflexivity.
Qed.

(* ================================================================== *)
(** * The dispatcher, command by command *)
(* ================================================================== *)

Lemma saveState_persist st w :
  exists new,
    consoleOnly new
    /\ saveState (mkWorld st (disk w) (backend w) (trace w))
       = (Normal tt, persist w st new).
Proof.
  rewrite saveState_run. unfold persist. cbn [disk state backend trace].
  destruct (writable (disk w)).
  - exists []. split; [split; reflexivity|]. now rewrite app_nil_r.
  - eexists. split; [|reflexivity]. split; reflexivity.
Qed.

Lemma persist_more w st new more :
  extend (persist w st new) more = persist w st (new ++ more).
Proof. unfold extend, persist. simpl. now rewrite app_assoc. Qed.

Lemma consoleOnly_app a b : consoleOnly a -> consoleOnly b -> consoleOnly (a ++ b).
Proof.
  intros [Ha1 Ha2] [Hb1 Hb2]. split.
  - now rewrite requestsIn_app, Ha1, Hb1.
  - now rewrite delaysIn_app, Ha2, Hb2.
Qed.

Section Field.

(** One of the two site lists: how it is read, how the dispatcher assigns
    to it, and what the assignment does to the state. *)
Variable current : State -> list string.
Variable update : list string -> M unit.
Variable replace : list string -> State -> State.
Hypothesis update_run :
  forall l w,
    update l w
    = (Normal tt, mkWorld (replace l (state w)) (disk w) (backend w) (trace w)).

Lemma addCommand_effect addedLabel duplicatesLabel usage args w :
  exists new,
    consoleOnly new
    /\ addCommand current update addedLabel duplicatesLabel usage args w
       = (Normal tt,
          match newEntries (current (state w)) args with
          | [] => extend w new
          | added =>
              persist w (replace (current (state w) ++ added) (state w)) new
          end).
Proof.
  unfold addCommand.
  destruct args as [|arg args].
  { eexists. split; [|reflexivity]. split; reflexivity. }
  change (0 <? length (arg :: args)) with true. cbv iota.
  unfold bind at 1, getState. cbv beta iota.
  rewrite sortArgs_partition. fold (newEntries (current (state w)) (arg :: args)).
  set (duplicates := filter (arrayIncludes (current (state w))) (arg :: args)).
  set (report := if 0 <? length duplicates then console_log _ else ret tt).
  assert (Hreport : forall w', exists new,
             consoleOnly new /\ report w' = (Normal tt, extend w' new)).
  { intros w'. unfold report.
    destruct (0 <? length duplicates).
    - eexists. split; [|reflexivity]. split; reflexivity.
    - exists []. split; [split; reflexivity|].
      unfold ret. now rewrite extend_nil. }
  clearbody report.
  destruct (newEntries (current (state w)) (arg :: args)) as [|a added'].
  - change (0 <? length (@nil string)) with false. cbv iota.
    unfold bind at 1, ret at 1.
    destruct (Hreport w) as (new & Hconsole & Hnew). rewrite Hnew.
    exists new. split; [exact Hconsole|reflexivity].
  - change (0 <? length (a :: added')) with true. cbv iota.
    unfold bind at 1 2 3. rewrite update_run.
    destruct (saveState_persist
                (replace (current (state w) ++ a :: added') (state w)) w)
      as (saved & Hsaved & Hsave).
    rewrite Hsave. unfold console_log at 1, emit. rewrite persist_more.
    match goal with
    | |- context [report ?w'] =>
        destruct (Hreport w') as (new & Hconsole & Hnew); rewrite Hnew
    end.
    rewrite persist_more. eexists. split; [|reflexivity].
    repeat apply consoleOnly_app; try assumption. split; reflexivity.
Qed.

Lemma removeCommand_effect removedLabel notFoundLabel usage args w :
  exists new,
    consoleOnly new
    /\ removeCommand current update removedLabel notFoundLabel usage args w
       = (Normal tt,
          match args with
          | site :: _ =>
              if arrayIncludes (current (state w)) site
              then persist w (replace (without site (current (state w)))
                                      (state w)) new
              else extend w new
          | [] => extend w new
          end).
Proof.
  unfold removeCommand.
  destruct args as [|site args].
  { eexists. split; [|reflexivity]. split; reflexivity. }
  unfold bind at 1, getState. cbv beta iota.
  destruct (arrayIncludes (current (state w)) site).
  - unfold bind at 1 2. rewrite update_run.
    destruct (saveState_persist
                (replace (without site (current (state w))) (state w)) w)
      as (saved & Hsaved & Hsave).
    rewrite Hsave. unfold console_log, emit. rewrite persist_more.
    eexists. split; [|reflexivity].
    apply consoleOnly_app; [assumption|split; reflexivity].
  - eexists. split; [|reflexivity]. split; reflexivity.
Qed.

Lemma clearCommand_effect cleared alreadyEmpty w :
  exists new,
    consoleOnly new
    /\ clearCommand current update cleared alreadyEmpty w
       = (Normal tt,
          match current (state w) with
          | [] => extend w new
          | _ => persist w (replace [] (state w)) new
          end).
Proof.
  unfold clearCommand, bind at 1, getState. cbv beta iota.
  destruct (current (state w)) as [|x l].
  - eexists. split; [|reflexivity]. split; reflexivity.
  - change (0 <? length (x :: l)) with true. cbv iota.
    unfold bind at 1 2. rewrite update_run.
    destruct (saveState_persist (replace [] (state w)) w)
      as (saved & Hsaved & Hsave).
    rewrite Hsave. unfold console_log, emit. rewrite persist_more.
    eexists. split; [|reflexivity].
    apply consoleOnly_app; [assumption|split; reflexivity].
Qed.

End Field.

Lemma printSites_run arr w :
  exists new, consoleOnly new /\ printSites arr w = (Normal tt, extend w new).
Proof.
  revert w. induction arr as [|site arr IH]; intros w.
  - exists []. split; [split; reflexivity|].
    unfold printSites, ret. now rewrite extend_nil.
  - cbn [printSites]. unfold bind, console_log, emit.
    destruct (IH (extend w [ConsoleLog ("- " ++ site)]))
      as (new & Hconsole & Hrun).
    rewrite Hrun, extend_extend. eexists. split; [|reflexivity].
    apply (consoleOnly_app [_]); [split; reflexivity|assumption].
Qed.

Lemma listCommand_effect current header empty w :
  exists new,
    consoleOnly new
    /\ listCommand current header empty w = (Normal tt, extend w new).
Proof.
  unfold listCommand, bind at 1, getState. cbv beta iota.
  destruct (0 <? length (current (state w))).
  - unfold bind, console_log, emit.
    destruct (printSites_run (current (state w)) (extend w [ConsoleLog header]))
      as (new & Hconsole & Hrun).
    rewrite Hrun, extend_extend. eexists. split; [|reflexivity].
    apply (consoleOnly_app [_]); [split; reflexivity|assumption].
  - eexists. split; [|reflexivity]. split; reflexivity.
Qed.

(** [scrape] and [scrape-morning] end normally whatever the orchestrator
    does, and leave the state and the disk alone. *)
Lemma scrapeCommand_effect isMorningScrape args w :
  exists new, scrapeCommand isMorningScrape args w = (Normal tt, extend w new).
Proof.
  unfold scrapeCommand, bind at 1, getState. cbv beta iota.
  destruct (length (sites (state w)) =? 0);
    [eexists; reflexivity|].
  destruct (if isMorningScrape then morningQuery (state w)
            else Some (join " " args)) as [q|]; [|eexists; reflexivity].
  destruct (negb (truthy q)); [eexists; reflexivity|].
  unfold bind at 1, emit, try_catch, bind at 1.
  destruct (scrapeWithGrounding_starts Terminal q (sites (state w))
              (excludedSites (state w))
              (extend w [ShowProcessingAnimation
                           "Scraping the web with Gemini..."]))
    as (completion & rest & Hrun & Htyped).
  rewrite Hrun, extend_extend.
  destruct completion as [result|error|]; [| |contradiction];
    unfold bind, emit; rewrite !extend_extend; eexists; reflexivity.
Qed.

(** Every command ends normally; it asks to exit exactly in the [exit]
    case; it changes the session state as [transition] says and saves it
    when it does; and it prints only, unless it is a scrape command. *)
Lemma processCommand_effect line w :
  exists new,
    (isScrapeVerb (verbOfLine line) = false -> consoleOnly new)
    /\ processCommand line w
       = (Normal (isExitVerb (verbOfLine line)),
          match transition line (state w) with
          | Some st => persist w st new
          | None => extend w new
          end).
Proof.
  unfold processCommand, transition, verbOfLine, commandWord, arguments.
  destruct (split_space (trim line)) as [|cmd args].
  { exists []. split; [split; reflexivity|].
    unfold ret. simpl. now rewrite extend_nil. }
  destruct cmd as [|c cmd].
  { exists []. split; [split; reflexivity|].
    unfold ret. simpl. now rewrite extend_nil. }
  change (negb (truthy (String c cmd))) with false. cbv iota.
  set (word := String c cmd).
  assert (Hsites : forall l w0,
             setSites l w0
             = (Normal tt,
                mkWorld ((fun l st => mkState l (excludedSites st) (morningQuery st))
                           l (state w0))
                        (disk w0) (backend w0) (trace w0)))
    by reflexivity.
  assert (Hexcluded : forall l w0,
             setExcludedSites l w0
             = (Normal tt,
                mkWorld ((fun l st => mkState (sites st) l (morningQuery st))
                           l (state w0))
                        (disk w0) (backend w0) (trace w0)))
    by reflexivity.
  destruct (verbOf (toLowerCase word)) as [[]|]; cbn [isScrapeVerb isExitVerb].
  - (* help *)
    eexists. split; [|reflexivity]. intros _. split; reflexivity.
  - (* add-site *)
    destruct (addCommand_effect sites setSites _ Hsites
                "Priority sites added:" "Sites already existed:"
                "Usage: add-site <url1> [url2]..." args w)
      as (new & Hconsole & Hrun).
    unfold bind. rewrite Hrun. exists new. split; [auto|].
    destruct (newEntries (sites (state w)) args); reflexivity.
  - (* list-sites *)
    destruct (listCommand_effect sites "Priority sites:"
                "No priority sites saved." w) as (new & Hconsole & Hrun).
    unfold bind. rewrite Hrun. exists new. split; [auto|reflexivity].
  - (* remove-site *)
    destruct (removeCommand_effect sites setSites _ Hsites
                "Site removed: " "Site not found in priority list: "
                "Usage: remove-site <url>" args w)
      as (new & Hconsole & Hrun).
    unfold bind. rewrite Hrun. exists new. split; [auto|].
    destruct args as [|site args]; [reflexivity|].
    destruct (arrayIncludes (sites (state w)) site); reflexivity.
  - (* clear-sites *)
    destruct (clearCommand_effect sites setSites _ Hsites
                "All priority sites have been cleared."
                "Priority site list is already empty." w)
      as (new & Hconsole & Hrun).
    unfold bind. rewrite Hrun. exists new. split; [auto|].
    destruct (sites (state w)); reflexivity.
  - (* add-exclude *)
    destruct (addCommand_effect excludedSites setExcludedSites _ Hexcluded
                "Excluded sites added:" "Sites already excluded:"
                "Usage: add-exclude <url1> [url2]..." args w)
      as (new & Hconsole & Hrun).
    unfold bind. rewrite Hrun. exists new. split; [auto|].
    destruct (newEntries (excludedSites (state w)) args); reflexivity.
  - (* list-excludes *)
    destruct (listCommand_effect excludedSites "Excluded sites:"
                "No sites excluded." w) as (new & Hconsole & Hrun).
    unfold bind. rewrite Hrun. exists new. split; [auto|reflexivity].
  - (* remove-exclude *)
    destruct (removeCommand_effect excludedSites setExcludedSites _ Hexcluded
                "Site removed from exclusion list: "
                "Site not found in exclusion list: "
                "Usage: remove-exclude <url>" args w)
      as (new & Hconsole & Hrun).
    unfold bind. rewrite Hrun. exists new. split; [auto|].
    destruct args as [|site args]; [reflexivity|].
    destruct (arrayIncludes (excludedSites (state w)) site); reflexivity.
  - (* clear-excludes *)
    destruct (clearCommand_effect excludedSites setExcludedSites _ Hexcluded
                "Exclusion list has been cleared."
                "Exclusion list is already empty." w)
      as (new & Hconsole & Hrun).
    unfold bind. rewrite Hrun. exists new. split; [auto|].
    destruct (excludedSites (state w)); reflexivity.
  - (* set-morning-query *)
    cbv zeta. destruct (truthy (join " " args)); cbn [negb].
    + unfold bind at 1 2 3, setMorningQuery, setState.
      destruct (saveState_persist
                  (mkState (sites (state w)) (excludedSites (state w))
                           (Some (join " " args))) w)
        as (saved & Hsaved & Hsave).
      rewrite Hsave. unfold console_log, emit. rewrite persist_more.
      eexists. split; [|reflexivity]. intros _.
      apply consoleOnly_app; [assumption|split; reflexivity].
    + eexists. split; [|reflexivity]. intros _. split; reflexivity.
  - (* scrape *)
    destruct (scrapeCommand_effect false args w) as (new & Hrun).
    unfold bind. rewrite Hrun. exists new. split; [discriminate|reflexivity].
  - (* scrape-morning *)
    destruct (scrapeCommand_effect true args w) as (new & Hrun).
    unfold bind. rewrite Hrun. exists new. split; [discriminate|reflexivity].
  - (* clear *)
    exists [ConsoleClear; ShowWelcomeMessage].
    split; [intros _; split; reflexivity|].
    unfold bind, emit, ret. now rewrite extend_extend.
  - (* exit *)
    exists []. split; [split; reflexivity|].
    unfold ret. now rewrite extend_nil.
  - (* default *)
    eexists. split; [|reflexivity]. intros _. split; reflexivity.
Qed.

Lemma eventsDuring_persist {A} (m : M A) w st new :
  snd (m w) = persist w st new -> eventsDuring m w = new.
Proof.
  unfold eventsDuring; intros ->; simpl.
  rewrite skipn_app, skipn_all, Nat.sub_diag; reflexivity.
Qed.

Lemma processCommand_events line w :
  exists new,
    (isScrapeVerb (verbOfLine line) = false -> consoleOnly new)
    /\ eventsDuring (processCommand line) w = new
    /\ trace (snd (processCommand line w)) = trace w ++ new.
Proof.
  destruct (processCommand_effect line w) as (new & Hconsole & Hrun).
  exists new. split; [exact Hconsole|].
  destruct (transition line (state w)) as [st|].
  - split; [|now rewrite Hrun].
    apply (eventsDuring_persist _ w st). now rewrite Hrun.
  - split; [|now rewrite Hrun].
    apply eventsDuring_extend. now rewrite Hrun.
Qed.


(** X9.  The session state after a command is a function of the line and
    of the session state before it: what the disk holds, whether the save
    succeeds, what the backend answers and what was printed before play no
    part.  In particular a failed save rolls nothing back. *)
Theorem state_after_command :
  forall line w,
    state (snd (processCommand line w))
    = match transition line (state w) with
      | Some st => st
      | None => state w
      end.
Proof.
  intros line w.
  destruct (processCommand_effect line w) as (new & _ & Hrun).
  rewrite Hrun. destruct (transition line (state w)); reflexivity.
Qed.

(** X10.  On a disk that can be written, a command either leaves both the
    session state and the state file as they were, or leaves the state
    file holding the new session state.  So a state file that is in step
    with the session state stays in step. *)
Theorem state_file_follows_state :
  forall line w,
    writable (disk w) = true ->
    let w' := snd (processCommand line w) in
    writable (disk w') = true
    /\ ((state w' = state w /\ disk w' = disk w) \/ persisted w')
    /\ (persisted w -> persisted w').
Proof.
  intros line w Hwritable w'. unfold w'.
  destruct (processCommand_effect line w) as (new & _ & Hrun).
  rewrite Hrun. cbn [snd].
  destruct (transition line (state w)) as [st|].
  - unfold persist, persisted. cbn [disk state]. rewrite Hwritable.
    repeat split. now right.
  - repeat split; auto.
Qed.

Lemma state_file_follows_state_witness :
  let w := Sample.fresh Sample.overloaded in
  persisted (snd (processCommand "add-site a.com" w)).
Proof.
  intros w.
  destruct (state_file_follows_state "add-site a.com" w eq_refl)
    as (_ & [[Hsame _]|Hpersisted] & _); [discriminate|exact Hpersisted].
Defined.

(** A state file in step with the state loads back as that state. *)
Lemma loadState_persisted w :
  persisted w -> state (snd (loadState (restart w))) = state w.
Proof.
  intros Hp.
  rewrite (loadState_content (restart w) _ Hp).
  now rewrite parse_stringify_state, asState_stateToJson.
Qed.

(** X11.  What a command did survives a restart: on a disk that can be
    written, after a command that changed the session state, or after any
    command when the state file was in step before, restarting and loading
    gives the session state the command left. *)
Theorem command_survives_restart :
  forall line w,
    writable (disk w) = true ->
    persisted w \/ transition line (state w) <> None ->
    let w' := snd (processCommand line w) in
    state (snd (loadState (restart w'))) = state w'.
Proof.
  intros line w Hwritable Hwhy w'. apply loadState_persisted. unfold w'.
  destruct (processCommand_effect line w) as (new & _ & Hrun).
  rewrite Hrun. cbn [snd].
  destruct (transition line (state w)) as [st|].
  - unfold persist, persisted. cbn [disk state]. now rewrite Hwritable.
  - destruct Hwhy as [Hp|Hne]; [exact Hp|contradiction].
Qed.

Lemma command_survives_restart_witness :
  let w := Sample.fresh Sample.overloaded in
  let w' := snd (processCommand "set-morning-query any news on Rocq?" w) in
  state (snd (loadState (restart w')))
  = mkState [] [] (Some "any news on Rocq?").
Proof.
  intros w w'.
  assert (Hwhy : persisted w
                 \/ transition "set-morning-query any news on Rocq?" (state w)
                    <> None) by (right; discriminate).
  exact (command_survives_restart "set-morning-query any news on Rocq?" w
           eq_refl Hwhy).
Defined.

(** X12.  Only [scrape] and [scrape-morning] reach the backend: any other
    line, known command or not, sends no request and sets no timer. *)
Theorem only_scrape_commands_reach_backend :
  forall line w,
    isScrapeVerb (verbOfLine line) = false ->
    requestsIn (eventsDuring (processCommand line) w) = []
    /\ delaysIn (eventsDuring (processCommand line) w) = [].
Proof.
  intros line w Hverb.
  destruct (processCommand_events line w) as (new & Hconsole & Hevents & _).
  rewrite Hevents. exact (Hconsole Hverb).
Qed.

Lemma only_scrape_commands_reach_backend_witness :
  requestsIn (eventsDuring (processCommand "scrap the news")
                           (Sample.fresh Sample.overloaded)) = [].
Proof.
  exact (proj1 (only_scrape_commands_reach_backend "scrap the news"
                  (Sample.fresh Sample.overloaded) eq_refl)).
Defined.

(* ================================================================== *)
(** * What the commands do to the session state *)
(* ================================================================== *)

Lemma processCommand_state line w :
  state (snd (processCommand line w))
  = match transition line (state w) with
    | Some st => st
    | None => state w
    end.
Proof.
  destruct (processCommand_effect line w) as (new & _ & Hrun).
  rewrite Hrun. destruct (transition line (state w)); reflexivity.
Qed.

Lemma arrayIncludes_false arr s : arrayIncludes arr s = false <-> ~ In s arr.
Proof.
  rewrite <- arrayIncludes_In. destruct (arrayIncludes arr s); split;
    congruence.
Qed.

Lemma without_In site arr x : In x (without site arr) <-> In x arr /\ x <> site.
Proof.
  unfold without. rewrite filter_In, negb_true_iff, String.eqb_neq. reflexivity.
Qed.

Lemma without_absent site arr : ~ In site arr -> without site arr = arr.
Proof.
  intros Hnot. unfold without. induction arr as [|x arr IH]; [reflexivity|].
  simpl. destruct (String.eqb_spec x site) as [->|Hne].
  - destruct Hnot. now left.
  - simpl. f_equal. apply IH. intros Hin. apply Hnot. now right.
Qed.

Lemma without_app site arr more :
  without site (arr ++ more) = without site arr ++ without site more.
Proof. apply filter_app. Qed.

Lemma newEntries_In arr args x :
  In x (newEntries arr args) <-> In x args /\ ~ In x arr.
Proof.
  unfold newEntries.
  now rewrite filter_In, negb_true_iff, arrayIncludes_false.
Qed.

Lemma newEntries_again arr args :
  newEntries (arr ++ newEntries arr args) args = [].
Proof.
  destruct (newEntries (arr ++ newEntries arr args) args) as [|x rest] eqn:E;
    [reflexivity|exfalso].
  assert (Hin : In x (newEntries (arr ++ newEntries arr args) args))
    by (rewrite E; now left).
  apply newEntries_In in Hin. destruct Hin as [Hargs Hnot].
  apply Hnot, in_app_iff.
  destruct (arrayIncludes arr x) eqn:Hx.
  - left. now apply arrayIncludes_In.
  - right. apply newEntries_In. split; [exact Hargs|].
    now apply arrayIncludes_false.
Qed.

(** X13.  [remove-site <url>] removes every occurrence of its first
    argument from the priority sites and keeps the others in their order;
    when the site is not in the list nothing changes.  Further arguments
    are ignored, and the exclusion list and the morning query are left
    alone. *)
Theorem removeSite_removes_every_occurrence :
  forall line w site others,
    verbOfLine line = Some RemoveSite ->
    arguments line = site :: others ->
    let st := state w in
    let st' := state (snd (processCommand line w)) in
    sites st' = without site (sites st)
    /\ ~ In site (sites st')
    /\ (forall x, x <> site -> (In x (sites st') <-> In x (sites st)))
    /\ (~ In site (sites st) -> st' = st)
    /\ excludedSites st' = excludedSites st
    /\ morningQuery st' = morningQuery st.
Proof.
  intros line w site others Hverb Hargs st st'.
  assert (Hst' : st' = match transition line st with
                       | Some new => new
                       | None => st
                       end) by apply processCommand_state.
  unfold transition in Hst'. rewrite Hverb, Hargs in Hst'.
  assert (Hsites : sites st' = without site (sites st)).
  { destruct (arrayIncludes (sites st) site) eqn:Hin; rewrite Hst'.
    - reflexivity.
    - symmetry. apply without_absent. now apply arrayIncludes_false. }
  split; [exact Hsites|]. rewrite Hsites.
  split; [intros Hin; apply without_In in Hin; now destruct Hin|].
  split; [intros x Hx; rewrite without_In; tauto|].
  split.
  - intros Hnot. apply arrayIncludes_false in Hnot.
    now rewrite Hnot in Hst'.
  - destruct (arrayIncludes (sites st) site); rewrite Hst'; split; reflexivity.
Qed.

Lemma removeSite_removes_every_occurrence_witness :
  let w := Sample.fresh Sample.overloaded in
  let w1 := snd (processCommand "add-site a.com b.org a.com" w) in
  sites (state (snd (processCommand "remove-site a.com b.org" w1)))
  = without "a.com" (sites (state w1)).
Proof.
  intros w w1.
  exact (proj1 (removeSite_removes_every_occurrence
                  "remove-site a.com b.org" w1 "a.com" ["b.org"]
                  eq_refl eq_refl)).
Defined.

(** X14.  Each command changes at most its own part of the session state:
    the priority sites change only under [add-site], [remove-site] and
    [clear-sites], the exclusion list only under [add-exclude],
    [remove-exclude] and [clear-excludes], and the morning query only
    under [set-morning-query]. *)
Theorem commands_change_their_own_field :
  forall line w,
    let st := state w in
    let st' := state (snd (processCommand line w)) in
    (sites st' <> sites st ->
     In (verbOfLine line) [Some AddSite; Some RemoveSite; Some ClearSites])
    /\ (excludedSites st' <> excludedSites st ->
        In (verbOfLine line)
           [Some AddExclude; Some RemoveExclude; Some ClearExcludes])
    /\ (morningQuery st' <> morningQuery st ->
        verbOfLine line = Some SetMorningQuery).
Proof.
  intros line w st st'.
  assert (Hst' : st' = match transition line st with
                       | Some new => new
                       | None => st
                       end) by apply processCommand_state.
  unfold transition in Hst'.
  destruct (verbOfLine line) as [[]|];
    repeat match type of Hst' with
           | context [newEntries ?arr ?args] => destruct (newEntries arr args)
           | context [match arguments line with _ => _ end] =>
               destruct (arguments line)
           | context [arrayIncludes ?arr ?s] => destruct (arrayIncludes arr s)
           | context [truthy ?q] => destruct (truthy q)
           | context [match sites st with _ => _ end] =>
               destruct (sites st) eqn:?
           | context [match excludedSites st with _ => _ end] =>
               destruct (excludedSites st) eqn:?
           end;
    rewrite Hst'; cbn [sites excludedSites morningQuery];
    repeat split; intros H; try (now destruct H); simpl; auto.
Qed.

(** X15.  [add-exclude] appends to the exclusion list, in the order
    given, those of its arguments that the list does not hold yet, and
    leaves the entries that were there in place; afterwards every argument
    is excluded.  The priority sites and the morning query are left
    alone. *)
Theorem addExclude_appends_new_arguments :
  forall line w,
    verbOfLine line = Some AddExclude ->
    let st := state w in
    let st' := state (snd (processCommand line w)) in
    excludedSites st'
    = excludedSites st
      ++ filter (fun s => negb (arrayIncludes (excludedSites st) s))
                (arguments line)
    /\ (forall s, In s (excludedSites st')
                  <-> In s (excludedSites st) \/ In s (arguments line))
    /\ sites st' = sites st
    /\ morningQuery st' = morningQuery st.
Proof.
  intros line w Hverb st st'.
  assert (Hst' : st' = match transition line st with
                       | Some new => new
                       | None => st
                       end) by apply processCommand_state.
  unfold transition in Hst'. rewrite Hverb in Hst'.
  fold (newEntries (excludedSites st) (arguments line)).
  assert (Hlist : excludedSites st'
                  = excludedSites st
                    ++ newEntries (excludedSites st) (arguments line)).
  { destruct (newEntries (excludedSites st) (arguments line));
      rewrite Hst'; [now rewrite app_nil_r|reflexivity]. }
  split; [exact Hlist|]. split.
  - intros s. rewrite Hlist, in_app_iff, newEntries_In.
    destruct (arrayIncludes (excludedSites st) s) eqn:Hs.
    + apply arrayIncludes_In in Hs. tauto.
    + apply arrayIncludes_false in Hs. tauto.
  - destruct (newEntries (excludedSites st) (arguments line));
      rewrite Hst'; split; reflexivity.
Qed.

Lemma addExclude_appends_new_arguments_witness :
  let w := Sample.fresh Sample.overloaded in
  let w1 := snd (processCommand "add-exclude spam.com" w) in
  excludedSites (state (snd (processCommand "ADD-EXCLUDE ads.net spam.com" w1)))
  = ["spam.com"; "ads.net"].
Proof.
  intros w w1.
  exact (proj1 (addExclude_appends_new_arguments
                  "ADD-EXCLUDE ads.net spam.com" w1 eq_refl)).
Defined.

(** X16.  [set-morning-query] followed by [scrape-morning]: when there is
    a priority site and the arguments of [set-morning-query] joined by
    spaces are not empty, the next [scrape-morning] sends the request
    built from exactly that text and the lists of the session. *)
Theorem morning_query_set_then_scraped :
  forall line w,
    verbOfLine line = Some SetMorningQuery ->
    truthy (join " " (arguments line)) = true ->
    sites (state w) <> [] ->
    let w1 := snd (processCommand line w) in
    exists rest,
      eventsDuring (processCommand "scrape-morning") w1
      = ShowProcessingAnimation "Scraping the web with Gemini..."
        :: Generate (request (join " " (arguments line))
                             (sites (state w)) (excludedSites (state w)))
        :: rest.
Proof.
  intros line w Hverb Htruthy Hsites w1.
  assert (Hst : state w1
                = mkState (sites (state w)) (excludedSites (state w))
                          (Some (join " " (arguments line)))).
  { unfold w1. rewrite processCommand_state. unfold transition.
    now rewrite Hverb, Htruthy. }
  rewrite (processCommand_scrape "scrape-morning" "scrape-morning" [] true
             eq_refl eq_refl).
  destruct (scrapeCommand_invokes true [] w1 (join " " (arguments line)))
    as (rest & Hrun).
  - now rewrite Hst.
  - now rewrite Hst.
  - exact Htruthy.
  - exists rest. rewrite Hst in Hrun. cbn [sites excludedSites] in Hrun.
    apply eventsDuring_extend. unfold bind. now rewrite Hrun.
Qed.

Lemma morning_query_set_then_scraped_witness :
  let w := snd (processCommand "add-site rocq-prover.org"
                               (Sample.fresh Sample.overloaded)) in
  let w1 := snd (processCommand "set-morning-query what is  new" w) in
  exists rest,
    eventsDuring (processCommand "scrape-morning") w1
    = ShowProcessingAnimation "Scraping the web with Gemini..."
      :: Generate (request "what is  new" ["rocq-prover.org"] [])
      :: rest.
Proof.
  intros w w1.
  assert (Hsites : sites (state w) <> []) by discriminate.
  exact (morning_query_set_then_scraped "set-morning-query what is  new" w
           eq_refl eq_refl Hsites).
Defined.

(** X17.  After [clear-sites] the session scrapes nothing: whatever the
    state was, [scrape] and [scrape-morning] then only print that there is
    no priority site, and send no request. *)
Theorem cleared_sites_block_scraping :
  forall line w (isMorningScrape : bool) query,
    verbOfLine line = Some ClearSites ->
    let w1 := snd (processCommand line w) in
    let scrapeLine := if isMorningScrape then "scrape-morning"
                      else ("scrape " ++ query)%string in
    sites (state w1) = []
    /\ (verbOfLine scrapeLine
        = Some (if isMorningScrape then ScrapeMorning else Scrape) ->
        eventsDuring (processCommand scrapeLine) w1
        = [ConsoleLog noSitesMessage]).
Proof.
  intros line w isMorningScrape query Hverb w1 scrapeLine.
  assert (Hsites : sites (state w1) = []).
  { unfold w1. rewrite processCommand_state. unfold transition.
    rewrite Hverb. destruct (sites (state w)) eqn:E; [exact E|reflexivity]. }
  split; [exact Hsites|]. intros Hscrape.
  unfold verbOfLine, commandWord in Hscrape.
  destruct (split_space (trim scrapeLine)) as [|cmd args] eqn:Hsplit.
  { destruct isMorningScrape; discriminate. }
  rewrite (processCommand_scrape scrapeLine cmd args isMorningScrape
             Hsplit Hscrape).
  apply eventsDuring_extend. unfold bind.
  now rewrite (scrapeCommand_no_sites isMorningScrape args w1 Hsites).
Qed.

Lemma cleared_sites_block_scraping_witness :
  let w := snd (processCommand "add-site rocq-prover.org"
                               (Sample.fresh Sample.overloaded)) in
  let w1 := snd (processCommand "clear-sites" w) in
  eventsDuring (processCommand "scrape latest release") w1
  = [ConsoleLog noSitesMessage].
Proof.
  intros w w1.
  exact (proj2 (cleared_sites_block_scraping "clear-sites" w false
                  "latest release" eq_refl) eq_refl).
Defined.

(** X18.  Adding a site that is not in the list and then removing it
    gives back the list of priority sites there was. *)
Theorem addSite_then_removeSite_restores :
  forall addLine removeLine site others w,
    verbOfLine addLine = Some AddSite ->
    arguments addLine = [site] ->
    verbOfLine removeLine = Some RemoveSite ->
    arguments removeLine = site :: others ->
    ~ In site (sites (state w)) ->
    let w1 := snd (processCommand addLine w) in
    sites (state w1) = sites (state w) ++ [site]
    /\ state (snd (processCommand removeLine w1)) = state w.
Proof.
  intros addLine removeLine site others w Hadd Hargs Hremove Hargs' Hnot w1.
  assert (Hst : state w1
                = mkState (sites (state w) ++ [site])
                          (excludedSites (state w)) (morningQuery (state w))).
  { unfold w1. rewrite processCommand_state. unfold transition.
    rewrite Hadd, Hargs. unfold newEntries. simpl.
    apply arrayIncludes_false in Hnot. now rewrite Hnot. }
  split; [now rewrite Hst|].
  rewrite processCommand_state. unfold transition.
  rewrite Hremove, Hargs', Hst. cbn [sites excludedSites morningQuery].
  assert (Hin : arrayIncludes (sites (state w) ++ [site]) site = true).
  { apply arrayIncludes_In, in_app_iff. right. now left. }
  rewrite Hin, without_app, (without_absent _ _ Hnot).
  unfold without. simpl. rewrite String.eqb_refl. simpl.
  rewrite app_nil_r. now destruct (state w).
Qed.

Lemma addSite_then_removeSite_restores_witness :
  let w := snd (processCommand "add-site a.com b.org"
                               (Sample.fresh Sample.overloaded)) in
  let w1 := snd (processCommand "add-site c.net" w) in
  state (snd (processCommand "remove-site c.net" w1)) = state w.
Proof.
  intros w w1.
  assert (Hnot : ~ In "c.net" (sites (state w))).
  { simpl. intros [H|[H|[]]]; discriminate. }
  exact (proj2 (addSite_then_removeSite_restores
                  "add-site c.net" "remove-site c.net" "c.net" [] w
                  eq_refl eq_refl eq_refl eq_refl Hnot)).
Defined.

Lemma transition_idempotent line st st' :
  transition line st = Some st' ->
  match transition line st' with
  | Some st'' => st'' = st'
  | None => True
  end.
Proof.
  unfold transition.
  destruct (verbOfLine line) as [[]|]; try discriminate.
  - destruct (newEntries (sites st) (arguments line)) as [|x added] eqn:E;
      [discriminate|].
    intros [= <-]. cbn [sites]. rewrite <- E.
    now rewrite newEntries_again.
  - destruct (arguments line) as [|site others]; [discriminate|].
    destruct (arrayIncludes (sites st) site); [|discriminate].
    intros [= <-]. cbn [sites].
    assert (Hnot : arrayIncludes (without site (sites st)) site = false).
    { apply arrayIncludes_false. intros Hin. apply without_In in Hin.
      now destruct Hin. }
    now rewrite Hnot.
  - destruct (sites st); [discriminate|]. now intros [= <-].
  - destruct (newEntries (excludedSites st) (arguments line))
      as [|x added] eqn:E; [discriminate|].
    intros [= <-]. cbn [excludedSites]. rewrite <- E.
    now rewrite newEntries_again.
  - destruct (arguments line) as [|site others]; [discriminate|].
    destruct (arrayIncludes (excludedSites st) site); [|discriminate].
    intros [= <-]. cbn [excludedSites].
    assert (Hnot : arrayIncludes (without site (excludedSites st)) site
                   = false).
    { apply arrayIncludes_false. intros Hin. apply without_In in Hin.
      now destruct Hin. }
    now rewrite Hnot.
  - destruct (excludedSites st); [discriminate|]. now intros [= <-].
  - destruct (truthy (join " " (arguments line))); [|discriminate].
    now intros [= <-].
Qed.

(** X19.  Every command is idempotent on the session state: entering the
    same line a second time leaves the state the first run produced.  (A
    second [add-site] finds all its arguments in the list, a second
    [remove-site] finds nothing to remove.) *)
Theorem commands_are_idempotent :
  forall line w,
    let w1 := snd (processCommand line w) in
    state (snd (processCommand line w1)) = state w1.
Proof.
  intros line w w1.
  rewrite processCommand_state.
  destruct (transition line (state w1)) as [st''|] eqn:Hagain; [|reflexivity].
  unfold w1 in *. rewrite processCommand_state in *.
  destruct (transition line (state w)) as [st'|] eqn:Hfirst.
  - pose proof (transition_idempotent line (state w) st' Hfirst) as H.
    now rewrite Hagain in H.
  - congruence.
Qed.

(* ================================================================== *)
(** * Wrapping text: [wordWrap] *)
(* ================================================================== *)

Lemma split_space_on s : split_space s = split_on " " s.
Proof. induction s as [|c s IH]; simpl; [reflexivity|now rewrite IH]. Qed.

Lemma split_on_nonempty sep s : split_on sep s <> [].
Proof.
  destruct s as [|c s]; simpl; [discriminate|].
  destruct (Ascii.eqb c sep); [discriminate|].
  destruct (split_on sep s); discriminate.
Qed.

Lemma occurs_app c a b : occurs c (a ++ b) = occurs c a || occurs c b.
Proof.
  induction a as [|x a IH]; simpl; [reflexivity|].
  now rewrite IH, orb_assoc.
Qed.

Lemma includes_occurs s c : includes s (String c EmptyString) = occurs c s.
Proof.
  induction s as [|a s IH]; [reflexivity|].
  cbn [includes startsWith occurs]. rewrite IH.
  destruct s; now rewrite andb_true_r.
Qed.

(** The pieces of a split hold no separator, and only code units of the
    string that was split. *)
Lemma split_on_occurs sep s piece :
  In piece (split_on sep s) ->
  occurs sep piece = false
  /\ forall c, occurs c piece = true -> occurs c s = true.
Proof.
  revert piece. induction s as [|a s IH]; intros piece; simpl.
  - intros [<-|[]]. split; [reflexivity|auto].
  - destruct (Ascii.eqb a sep) eqn:Ea.
    + intros [<-|Hin].
      * split; [reflexivity|discriminate].
      * destruct (IH piece Hin) as [Hsep Hsub]. split; [exact Hsep|].
        intros c Hc. rewrite (Hsub c Hc). apply orb_true_r.
    + pose proof (split_on_nonempty sep s) as Hne.
      destruct (split_on sep s) as [|first pieces]; [contradiction|].
      intros [<-|Hin].
      * destruct (IH first (or_introl eq_refl)) as [Hsep Hsub].
        split; [simpl; now rewrite Ea, Hsep|].
        intros c. simpl. destruct (Ascii.eqb a c); [reflexivity|].
        simpl. apply Hsub.
      * destruct (IH piece (or_intror Hin)) as [Hsep Hsub].
        split; [exact Hsep|].
        intros c Hc. rewrite (Hsub c Hc). apply orb_true_r.
Qed.

Lemma split_on_absent sep s : occurs sep s = false -> split_on sep s = [s].
Proof.
  induction s as [|a s IH]; simpl; [reflexivity|].
  intros H. apply orb_false_iff in H. destruct H as [Ha Hs].
  now rewrite Ha, (IH Hs).
Qed.

Lemma split_on_app sep a b :
  split_on sep (a ++ String sep b) = split_on sep a ++ split_on sep b.
Proof.
  induction a as [|x a IH]; simpl.
  - now rewrite Ascii.eqb_refl.
  - destruct (Ascii.eqb x sep); [now rewrite IH|].
    rewrite IH. pose proof (split_on_nonempty sep a) as Hne.
    destruct (split_on sep a); [contradiction|reflexivity].
Qed.

Lemma split_on_join sep lines :
  Forall (fun line => occurs sep line = false) lines ->
  lines <> [] ->
  split_on sep (join (String sep EmptyString) lines) = lines.
Proof.
  induction 1 as [|line lines Hline Hlines IH]; [contradiction|].
  intros _. destruct lines as [|next lines].
  - simpl. now apply split_on_absent.
  - change (join (String sep EmptyString) (line :: next :: lines))
      with (line ++ String sep (join (String sep EmptyString) (next :: lines)))%string.
    rewrite split_on_app, (split_on_absent sep line Hline), IH by discriminate.
    reflexivity.
Qed.

Lemma join_split_on sep s : join (String sep EmptyString) (split_on sep s) = s.
Proof.
  induction s as [|a s IH]; [reflexivity|].
  simpl. pose proof (split_on_nonempty sep s) as Hne.
  destruct (Ascii.eqb_spec a sep) as [->|Hne'].
  - destruct (split_on sep s) as [|p ps]; [contradiction|].
    change (join (String sep EmptyString) (EmptyString :: p :: ps))
      with (String sep (join (String sep EmptyString) (p :: ps))).
    now rewrite IH.
  - destruct (split_on sep s) as [|p ps]; [contradiction|].
    destruct ps as [|q ps].
    + simpl in *. now rewrite IH.
    + change (join (String sep EmptyString) (String a p :: q :: ps))
        with (String a (p ++ String sep (join (String sep EmptyString) (q :: ps))))%string.
      f_equal. exact IH.
Qed.

Section Wrapping.
Variable maxWidth : Z.

Lemma placeWord_wrapped lines currentLine word :
  Forall (wrapped maxWidth) lines -> (wrapped maxWidth) currentLine ->
  occurs " " word = false -> occurs (ascii_of_nat 10) word = false ->
  Forall (wrapped maxWidth) (fst (placeWord maxWidth (lines, currentLine) word))
  /\ (wrapped maxWidth) (snd (placeWord maxWidth (lines, currentLine) word)).
Proof.
  intros Hlines Hcur Hspace Hlf. unfold placeWord.
  destruct (Z.gtb_spec
              (Z.of_nat (String.length (trim (currentLine ++ " " ++ word))))
              maxWidth) as [Hgt|Hle]; cbn [fst snd].
  - split.
    + apply Forall_app. split; [exact Hlines|]. constructor; [exact Hcur|constructor].
    + split; [right; now rewrite includes_occurs|exact Hlf].
  - split; [exact Hlines|].
    destruct currentLine as [|c cur]; cbn [truthy].
    + split; [right; now rewrite includes_occurs|exact Hlf].
    + split; [now left|].
      rewrite occurs_app. destruct Hcur as [_ Hcur]. rewrite Hcur.
      simpl. exact Hlf.
Qed.

Lemma fold_placeWord_wrapped words : forall lines currentLine,
  Forall (wrapped maxWidth) lines -> (wrapped maxWidth) currentLine ->
  Forall (fun word => occurs " " word = false
                      /\ occurs (ascii_of_nat 10) word = false) words ->
  Forall (wrapped maxWidth) (fst (fold_left (placeWord maxWidth) words (lines, currentLine)))
  /\ (wrapped maxWidth) (snd (fold_left (placeWord maxWidth) words (lines, currentLine))).
Proof.
  induction words as [|word words IH]; intros lines currentLine Hlines Hcur Hwords.
  - now split.
  - inversion Hwords as [|? ? [Hspace Hlf] Hrest]; subst.
    destruct (placeWord_wrapped lines currentLine word Hlines Hcur Hspace Hlf)
      as [Hl Hc].
    cbn [fold_left].
    destruct (placeWord maxWidth (lines, currentLine) word) as [lines' cur'].
    now apply IH.
Qed.

Lemma wrapParagraph_wrapped lines paragraph :
  Forall (wrapped maxWidth) lines -> occurs (ascii_of_nat 10) paragraph = false ->
  Forall (wrapped maxWidth) (wrapParagraph maxWidth lines paragraph).
Proof.
  intros Hlines Hlf. unfold wrapParagraph.
  destruct (fold_placeWord_wrapped (split_space paragraph) lines EmptyString)
    as [Hl Hc].
  - exact Hlines.
  - split; [now right|reflexivity].
  - apply Forall_forall. intros word Hin. rewrite split_space_on in Hin.
    destruct (split_on_occurs _ _ _ Hin) as [Hspace Hsub]. split; [exact Hspace|].
    destruct (occurs (ascii_of_nat 10) word) eqn:E; [|reflexivity].
    rewrite (Hsub _ E) in Hlf. discriminate.
  - destruct (fold_left (placeWord maxWidth) (split_space paragraph)
                        (lines, EmptyString)) as [lines' cur'].
    cbn [fst snd] in *. destruct (truthy cur'); [|exact Hl].
    apply Forall_app. split; [exact Hl|]. now constructor.
Qed.

Lemma fold_wrapParagraph_wrapped paragraphs : forall lines,
  Forall (wrapped maxWidth) lines ->
  Forall (fun paragraph => occurs (ascii_of_nat 10) paragraph = false)
         paragraphs ->
  Forall (wrapped maxWidth) (fold_left (wrapParagraph maxWidth) paragraphs lines).
Proof.
  induction paragraphs as [|paragraph paragraphs IH]; intros lines Hlines Hps.
  - exact Hlines.
  - inversion Hps; subst. cbn [fold_left]. apply IH; [|assumption].
    now apply wrapParagraph_wrapped.
Qed.

Lemma wordWrap_wrapped text :
  Forall (wrapped maxWidth) (fold_left (wrapParagraph maxWidth) (split_LF text) []).
Proof.
  apply fold_wrapParagraph_wrapped; [constructor|].
  apply Forall_forall. intros paragraph Hin.
  now destruct (split_on_occurs _ _ _ Hin).
Qed.

Lemma printedLines_wrapped text :
  printedLines text maxWidth
  = match fold_left (wrapParagraph maxWidth) (split_LF text) [] with
    | [] => [EmptyString]
    | lines => lines
    end.
Proof.
  unfold printedLines, wordWrap.
  destruct text as [|c text].
  { unfold split_LF, split_on, wrapParagraph, placeWord.
    cbn [fold_left split_space truthy negb append].
    change (trim " ") with EmptyString.
    now destruct (Z.of_nat (String.length EmptyString) >? maxWidth)%Z. }
  cbn [truthy negb].
  pose proof (wordWrap_wrapped (String c text)) as Hfits.
  destruct (fold_left (wrapParagraph maxWidth) (split_LF (String c text)) [])
    as [|line lines]; [reflexivity|].
  apply split_on_join; [|discriminate].
  eapply Forall_impl; [|exact Hfits]. now intros l [_ Hlf].
Qed.

End Wrapping.

(** X20.  What [wordWrap] returns, split at the line feeds as
    [displayResults] prints it, consists of lines that are within the
    width once trimmed, or are single words: a line is longer than
    [maxWidth] only when it holds one word that is. *)
Theorem printedLines_fit_width :
  forall text maxWidth,
    Forall (fitsWidth maxWidth) (printedLines text maxWidth).
Proof.
  intros text maxWidth. rewrite printedLines_wrapped.
  pose proof (wordWrap_wrapped maxWidth text) as Hwrapped.
  destruct (fold_left (wrapParagraph maxWidth) (split_LF text) [])
    as [|line lines].
  - constructor; [now right|constructor].
  - eapply Forall_impl; [|exact Hwrapped]. now intros l [Hfits _].
Qed.

Lemma split_space_app a b :
  split_space (a ++ " " ++ b) = split_space a ++ split_space b.
Proof. rewrite !split_space_on. apply split_on_app. Qed.

Lemma wordsOf_app a b : wordsOf (a ++ " " ++ b) = wordsOf a ++ wordsOf b.
Proof. unfold wordsOf. now rewrite split_space_app, filter_app. Qed.

Lemma wordsOf_word word :
  occurs " " word = false -> wordsOf word = filter truthy [word].
Proof.
  intros H. unfold wordsOf. now rewrite split_space_on, split_on_absent.
Qed.

Lemma placeWord_words maxWidth lines currentLine word :
  occurs " " word = false ->
  flat_map wordsOf (fst (placeWord maxWidth (lines, currentLine) word))
  ++ wordsOf (snd (placeWord maxWidth (lines, currentLine) word))
  = (flat_map wordsOf lines ++ wordsOf currentLine) ++ filter truthy [word].
Proof.
  intros Hword. unfold placeWord.
  destruct (Z.of_nat (String.length (trim (currentLine ++ " " ++ word)))
            >? maxWidth)%Z; cbn [fst snd].
  - rewrite flat_map_app. cbn [flat_map]. rewrite app_nil_r.
    now rewrite (wordsOf_word word Hword).
  - destruct currentLine as [|c cur]; cbn [truthy].
    + change (wordsOf EmptyString) with (@nil string). rewrite app_nil_r.
      now rewrite (wordsOf_word word Hword).
    + rewrite wordsOf_app, (wordsOf_word word Hword). now rewrite app_assoc.
Qed.

Lemma fold_placeWord_words maxWidth words : forall lines currentLine,
  Forall (fun word => occurs " " word = false) words ->
  flat_map wordsOf
    (fst (fold_left (placeWord maxWidth) words (lines, currentLine)))
  ++ wordsOf (snd (fold_left (placeWord maxWidth) words (lines, currentLine)))
  = (flat_map wordsOf lines ++ wordsOf currentLine) ++ filter truthy words.
Proof.
  induction words as [|word words IH]; intros lines currentLine Hwords.
  - simpl. now rewrite app_nil_r.
  - inversion Hwords as [|? ? Hword Hrest]; subst. cbn [fold_left].
    pose proof (placeWord_words maxWidth lines currentLine word Hword) as Hstep.
    destruct (placeWord maxWidth (lines, currentLine) word) as [lines' cur'].
    cbn [fst snd] in Hstep. rewrite (IH lines' cur' Hrest), Hstep.
    rewrite <- app_assoc. f_equal. simpl. now destruct (truthy word).
Qed.

Lemma wrapParagraph_words maxWidth lines paragraph :
  flat_map wordsOf (wrapParagraph maxWidth lines paragraph)
  = flat_map wordsOf lines ++ wordsOf paragraph.
Proof.
  unfold wrapParagraph.
  pose proof (fold_placeWord_words maxWidth (split_space paragraph) lines
                EmptyString) as Hfold.
  destruct (fold_left (placeWord maxWidth) (split_space paragraph)
                      (lines, EmptyString)) as [lines' cur'].
  cbn [fst snd] in Hfold.
  change (wordsOf EmptyString) with (@nil string) in Hfold.
  rewrite app_nil_r in Hfold. fold (wordsOf paragraph) in Hfold.
  rewrite <- Hfold.
  - destruct cur' as [|c cur']; cbn [truthy].
    + change (wordsOf EmptyString) with (@nil string). now rewrite app_nil_r.
    + rewrite flat_map_app. cbn [flat_map]. now rewrite app_nil_r.
  - apply Forall_forall. intros word Hin. rewrite split_space_on in Hin.
    now destruct (split_on_occurs _ _ _ Hin).
Qed.

Lemma fold_wrapParagraph_words maxWidth paragraphs : forall lines,
  flat_map wordsOf (fold_left (wrapParagraph maxWidth) paragraphs lines)
  = flat_map wordsOf lines ++ flat_map wordsOf paragraphs.
Proof.
  induction paragraphs as [|paragraph paragraphs IH]; intros lines.
  - simpl. now rewrite app_nil_r.
  - cbn [fold_left flat_map]. rewrite IH, wrapParagraph_words.
    now rewrite app_assoc.
Qed.

(** X21.  [wordWrap] moves no word and loses none: the non-empty words of
    the lines it returns are, in order, the non-empty words of the lines
    of the text.  Only spaces and line feeds differ: a break replaces one
    space, spaces at the start of a paragraph go, and so do empty
    paragraphs. *)
Theorem wordWrap_keeps_words :
  forall text maxWidth,
    flat_map wordsOf (printedLines text maxWidth)
    = flat_map wordsOf (split_LF text).
Proof.
  intros text maxWidth. rewrite printedLines_wrapped.
  pose proof (fold_wrapParagraph_words maxWidth (split_LF text) []) as Hwords.
  destruct (fold_left (wrapParagraph maxWidth) (split_LF text) [])
    as [|line lines]; exact Hwords.
Qed.

Lemma trimEnd_length_app s tail :
  String.length (trimEnd s) <= String.length (trimEnd (s ++ tail)).
Proof.
  induction s as [|c s IH]; [apply Nat.le_0_l|].
  cbn [append trimEnd].
  destruct (trimEnd s) as [|k kept] eqn:E;
    destruct (trimEnd (s ++ tail)) as [|k' kept'] eqn:E'.
  - destruct (isWhiteSpace c); apply Nat.le_refl.
  - destruct (isWhiteSpace c); simpl; lia.
  - simpl in IH. lia.
  - simpl in *. lia.
Qed.

Lemma trim_length_app s tail :
  String.length (trim s) <= String.length (trim (s ++ tail)).
Proof.
  unfold trim. rewrite trimStart_app.
  destruct (trimStart s) as [|c kept]; [apply Nat.le_0_l|].
  apply trimEnd_length_app.
Qed.

Lemma join_cons sep x y rest :
  join sep (x :: y :: rest) = (x ++ sep ++ join sep (y :: rest))%string.
Proof. reflexivity. Qed.

Lemma fold_placeWord_joins maxWidth words : forall lines currentLine,
  truthy currentLine = true ->
  (Z.of_nat (String.length (trim (join " " (currentLine :: words))))
   <= maxWidth)%Z ->
  fold_left (placeWord maxWidth) words (lines, currentLine)
  = (lines, join " " (currentLine :: words)).
Proof.
  induction words as [|word words IH]; intros lines currentLine Hcur Hfits.
  - reflexivity.
  - cbn [fold_left]. unfold placeWord at 2. rewrite Hcur.
    assert (Hjoin : join " " (currentLine :: word :: words)
                    = join " " ((currentLine ++ " " ++ word)%string :: words)).
    { destruct words as [|next words]; [reflexivity|].
      rewrite !join_cons. now rewrite !append_assoc. }
    assert (Hprefix : exists tail,
               join " " (currentLine :: word :: words)
               = ((currentLine ++ " " ++ word) ++ tail)%string).
    { rewrite Hjoin. destruct words as [|next words].
      - exists EmptyString. simpl. now rewrite append_nil_r.
      - eexists. rewrite join_cons. reflexivity. }
    destruct Hprefix as (tail & Hprefix).
    pose proof (trim_length_app (currentLine ++ " " ++ word) tail) as Hle.
    rewrite <- Hprefix in Hle.
    destruct (Z.gtb_spec
                (Z.of_nat (String.length (trim (currentLine ++ " " ++ word))))
                maxWidth) as [Hgt|_]; [lia|].
    rewrite Hjoin. apply IH.
    + destruct currentLine; [discriminate|reflexivity].
    + now rewrite <- Hjoin.
Qed.

(** X22.  A text that fits is returned as it is: when the text has no
    line feed, does not start with a space and is no longer than
    [maxWidth] once trimmed, [wordWrap] returns it unchanged. *)
Theorem wordWrap_returns_text_that_fits :
  forall text maxWidth,
    includes text LF = false ->
    startsWith text " " = false ->
    (Z.of_nat (String.length (trim text)) <= maxWidth)%Z ->
    wordWrap text maxWidth = text.
Proof.
  intros text maxWidth Hlf Hstart Hfits. unfold wordWrap.
  destruct text as [|c text]; [reflexivity|]. cbn [truthy negb].
  unfold LF in Hlf. rewrite includes_occurs in Hlf.
  unfold split_LF. rewrite (split_on_absent _ _ Hlf). cbn [fold_left].
  unfold wrapParagraph.
  pose proof (join_split_on " " (String c text)) as Hjoin.
  rewrite <- split_space_on in Hjoin.
  assert (Hc : Ascii.eqb c " " = false).
  { simpl in Hstart. destruct (Ascii.eqb c " "); [|reflexivity].
    destruct text; discriminate. }
  destruct (split_space (String c text)) as [|word words] eqn:Hsplit.
  { simpl in Hsplit. rewrite Hc in Hsplit.
    destruct (split_space text); discriminate. }
  assert (Hword : truthy word = true).
  { simpl in Hsplit. rewrite Hc in Hsplit.
    destruct (split_space text); injection Hsplit as <- _; reflexivity. }
  change (String " " EmptyString) with " " in Hjoin.
  cbn [fold_left]. unfold placeWord at 2. cbn [truthy append].
  assert (Hfirst : (Z.of_nat (String.length (trim (String " " word)))
                    >? maxWidth)%Z = false).
  { change (trim (String " " word)) with (trim word).
    assert (Hprefix : exists tail, String c text = (word ++ tail)%string).
    { rewrite <- Hjoin. destruct words as [|next words].
      - exists EmptyString. simpl. now rewrite append_nil_r.
      - eexists. rewrite join_cons. reflexivity. }
    destruct Hprefix as (tail & Hprefix).
    pose proof (trim_length_app word tail) as Hle. rewrite <- Hprefix in Hle.
    destruct (Z.gtb_spec (Z.of_nat (String.length (trim word))) maxWidth);
      [lia|reflexivity]. }
  rewrite Hfirst.
  rewrite (fold_placeWord_joins maxWidth words [] word Hword)
    by now rewrite Hjoin.
  rewrite Hjoin. reflexivity.
Qed.

Lemma wordWrap_returns_text_that_fits_witness :
  wordWrap "Query: what is new in Rocq 9.3?" 76
  = "Query: what is new in Rocq 9.3?".
Proof.
  apply wordWrap_returns_text_that_fits;
    [reflexivity|reflexivity|vm_compute; discriminate].
Defined.

(* ================================================================== *)
(** * The browser variant *)
(* ================================================================== *)

Lemma WebApp_processCommand_effect line w :
  exists new completion,
    WebApp.processCommand line w
    = (completion,
       mkWorld (match transition line (state w) with
                | Some st => st
                | None => state w
                end)
               (disk w) (backend w) (trace w ++ new))
    /\ (isScrapeVerb (verbOfLine line) = false -> new = [])
    /\ (hasMorningQuery (state w) ->
        exists output, completion = Normal output).
Proof.
  unfold WebApp.processCommand, transition, verbOfLine, commandWord, arguments.
  destruct (split_space (trim line)) as [|cmd args].
  { change (verbOf (toLowerCase EmptyString)) with (@None Verb). (eexists [], _; split; [rewrite (app_nil_r (trace w)); destruct w; reflexivity|]; split; [reflexivity|intros _; eexists; reflexivity]). }
  cbv zeta.
  destruct (verbOf (toLowerCase cmd)) as [[]|]; cbn [isScrapeVerb].
  - (* help *) (eexists [], _; split; [rewrite (app_nil_r (trace w)); destruct w; reflexivity|]; split; [reflexivity|intros _; eexists; reflexivity]).
  - (* add-site *)
    unfold WebApp.addCommand, bind.
    destruct args as [|arg args]; [(eexists [], _; split; [rewrite (app_nil_r (trace w)); destruct w; reflexivity|]; split; [reflexivity|intros _; eexists; reflexivity])|].
    change (0 <? length (arg :: args)) with true. cbv iota.
    unfold getState. rewrite sortArgs_partition.
    fold (newEntries (sites (state w)) (arg :: args)).
    destruct (newEntries (sites (state w)) (arg :: args)) as [|x added]; (eexists [], _; split; [rewrite (app_nil_r (trace w)); destruct w; reflexivity|]; split; [reflexivity|intros _; eexists; reflexivity]).
  - (* list-sites *)
    unfold WebApp.listCommand, bind, getState.
    destruct (0 <? length (sites (state w))); (eexists [], _; split; [rewrite (app_nil_r (trace w)); destruct w; reflexivity|]; split; [reflexivity|intros _; eexists; reflexivity]).
  - (* remove-site *)
    unfold WebApp.removeCommand, bind.
    destruct args as [|site args]; [(eexists [], _; split; [rewrite (app_nil_r (trace w)); destruct w; reflexivity|]; split; [reflexivity|intros _; eexists; reflexivity])|].
    unfold getState.
    destruct (arrayIncludes (sites (state w)) site); (eexists [], _; split; [rewrite (app_nil_r (trace w)); destruct w; reflexivity|]; split; [reflexivity|intros _; eexists; reflexivity]).
  - (* clear-sites *)
    unfold WebApp.clearCommand, bind, getState.
    destruct (sites (state w)) as [|x l] eqn:E; (eexists [], _; split; [rewrite (app_nil_r (trace w)); destruct w; reflexivity|]; split; [reflexivity|intros _; eexists; reflexivity]).
  - (* add-exclude *)
    unfold WebApp.addCommand, bind.
    destruct args as [|arg args]; [(eexists [], _; split; [rewrite (app_nil_r (trace w)); destruct w; reflexivity|]; split; [reflexivity|intros _; eexists; reflexivity])|].
    change (0 <? length (arg :: args)) with true. cbv iota.
    unfold getState. rewrite sortArgs_partition.
    fold (newEntries (excludedSites (state w)) (arg :: args)).
    destruct (newEntries (excludedSites (state w)) (arg :: args))
      as [|x added]; (eexists [], _; split; [rewrite (app_nil_r (trace w)); destruct w; reflexivity|]; split; [reflexivity|intros _; eexists; reflexivity]).
  - (* list-excludes *)
    unfold WebApp.listCommand, bind, getState.
    destruct (0 <? length (excludedSites (state w))); (eexists [], _; split; [rewrite (app_nil_r (trace w)); destruct w; reflexivity|]; split; [reflexivity|intros _; eexists; reflexivity]).
  - (* remove-exclude *)
    unfold WebApp.removeCommand, bind.
    destruct args as [|site args]; [(eexists [], _; split; [rewrite (app_nil_r (trace w)); destruct w; reflexivity|]; split; [reflexivity|intros _; eexists; reflexivity])|].
    unfold getState.
    destruct (arrayIncludes (excludedSites (state w)) site); (eexists [], _; split; [rewrite (app_nil_r (trace w)); destruct w; reflexivity|]; split; [reflexivity|intros _; eexists; reflexivity]).
  - (* clear-excludes *)
    unfold WebApp.clearCommand, bind, getState.
    destruct (excludedSites (state w)) as [|x l] eqn:E; (eexists [], _; split; [rewrite (app_nil_r (trace w)); destruct w; reflexivity|]; split; [reflexivity|intros _; eexists; reflexivity]).
  - (* set-morning-query *)
    destruct (truthy (join " " args)); cbn [negb]; (eexists [], _; split; [rewrite (app_nil_r (trace w)); destruct w; reflexivity|]; split; [reflexivity|intros _; eexists; reflexivity]).
  - (* scrape *)
    unfold WebApp.scrapeCommand, bind, getState.
    destruct (length (sites (state w)) =? 0); [(eexists [], _; split; [rewrite (app_nil_r (trace w)); destruct w; reflexivity|]; split; [reflexivity|intros _; eexists; reflexivity])|].
    destruct (truthy (join " " args)); cbn [negb]; [|(eexists [], _; split; [rewrite (app_nil_r (trace w)); destruct w; reflexivity|]; split; [reflexivity|intros _; eexists; reflexivity])].
    destruct (WebApp_answer None (join " " args) w) as (output & rest & Hrun).
    rewrite Hrun. eexists _, _. split; [reflexivity|].
    split; [discriminate|]. intros _. eexists. reflexivity.
  - (* scrape-morning *)
    unfold WebApp.scrapeMorningCommand, bind, getState.
    destruct (length (sites (state w)) =? 0); [(eexists [], _; split; [rewrite (app_nil_r (trace w)); destruct w; reflexivity|]; split; [reflexivity|intros _; eexists; reflexivity])|].
    destruct (morningQuery (state w)) as [q|] eqn:Hq.
    + destruct (WebApp_answer
                  (Some ("Morning Scrape Results for: "
                           ++ dquote ++ q ++ dquote)%string)
                  q w) as (output & rest & Hrun).
      rewrite Hrun. eexists _, _. split; [reflexivity|].
      split; [discriminate|]. intros _. eexists. reflexivity.
    + eexists [], _.
      split; [rewrite (app_nil_r (trace w)); destruct w; reflexivity|].
      split; [discriminate|].
      intros (q & Hsome & _). congruence.
  - (* clear *) (eexists [], _; split; [rewrite (app_nil_r (trace w)); destruct w; reflexivity|]; split; [reflexivity|intros _; eexists; reflexivity]).
  - (* exit *) (eexists [], _; split; [rewrite (app_nil_r (trace w)); destruct w; reflexivity|]; split; [reflexivity|intros _; eexists; reflexivity]).
  - (* anything else *) (eexists [], _; split; [rewrite (app_nil_r (trace w)); destruct w; reflexivity|]; split; [reflexivity|intros _; eexists; reflexivity]).
Qed.

(** X23.  The browser variant has no usage branch for [scrape-morning]
    because its morning query is never empty: the stored value or the
    default it starts from is a non-empty string, every command keeps it
    so, and while it is so every command completes with an output (the
    orchestrator's errors are shown as text). *)
Theorem WebApp_morningQuery_always_set :
  (forall stored, truthy (WebApp.initialMorningQuery stored) = true)
  /\ forall command w,
       hasMorningQuery (state w) ->
       exists output w',
         WebApp.processCommand command w = (Normal output, w')
         /\ hasMorningQuery (state w').
Proof.
  split; [exact WebApp_initialMorningQuery_truthy|].
  intros command w Hquery.
  pose proof (WebApp_processCommand_keeps_morningQuery command w Hquery)
    as Hkept.
  destruct (WebApp_processCommand_effect command w)
    as (new & completion & Hrun & _ & Hnormal).
  destruct (Hnormal Hquery) as (output & ->).
  exists output. eexists. split; [exact Hrun|].
  now rewrite Hrun in Hkept.
Qed.

Lemma WebApp_morningQuery_always_set_witness :
  let w := mkWorld (mkState ["rocq-prover.org"] []
                            (Some (WebApp.initialMorningQuery None)))
                   (mkDisk Absent true) Sample.overloaded [] in
  exists output w',
    WebApp.processCommand "scrape-morning" w = (Normal output, w')
    /\ hasMorningQuery (state w').
Proof.
  intros w.
  assert (Hquery : hasMorningQuery (state w)).
  { exists (WebApp.initialMorningQuery None). split; reflexivity. }
  exact (proj2 WebApp_morningQuery_always_set "scrape-morning" w Hquery).
Defined.

(** X24.  The two variants keep the same session state: whatever the
    line, the browser's [processCommand] leaves the lists and the morning
    query that the terminal's leaves.  (They differ in what they show, and
    in that only the terminal variant knows [exit] and writes a state
    file.) *)
Theorem variants_agree_on_state :
  forall line w,
    state (snd (WebApp.processCommand line w))
    = state (snd (processCommand line w)).
Proof.
  intros line w. rewrite processCommand_state.
  destruct (WebApp_processCommand_effect line w)
    as (new & completion & Hrun & _).
  now rewrite Hrun.
Qed.

(** X25.  In the browser variant too only [scrape] and [scrape-morning]
    reach the backend: any other command sends no request and sets no
    timer. *)
Theorem WebApp_only_scrape_commands_reach_backend :
  forall line w,
    isScrapeVerb (verbOfLine line) = false ->
    requestsIn (eventsDuring (WebApp.processCommand line) w) = []
    /\ delaysIn (eventsDuring (WebApp.processCommand line) w) = [].
Proof.
  intros line w Hverb.
  destruct (WebApp_processCommand_effect line w)
    as (new & completion & Hrun & Hnone & _).
  rewrite (Hnone Hverb), app_nil_r in Hrun.
  unfold eventsDuring. rewrite Hrun. cbn [snd trace].
  rewrite skipn_all. split; reflexivity.
Qed.

Lemma WebApp_only_scrape_commands_reach_backend_witness :
  requestsIn (eventsDuring (WebApp.processCommand "exit")
                           (Sample.fresh Sample.overloaded)) = [].
Proof.
  exact (proj1 (WebApp_only_scrape_commands_reach_backend "exit"
                  (Sample.fresh Sample.overloaded) eq_refl)).
Defined.

(* ================================================================== *)
(** * The main loop: [main] *)
(* ================================================================== *)

Lemma processCommand_completes line w :
  fst (processCommand line w) = Normal (isExitVerb (verbOfLine line)).
Proof.
  destruct (processCommand_effect line w) as (new & _ & Hrun).
  now rewrite Hrun.
Qed.

Lemma loadState_run w :
  loadState w
  = match file (disk w) with
    | Absent => (Normal tt, w)
    | Unreadable c =>
        if String.eqb c "ENOENT" then (Normal tt, w)
        else (Normal tt,
              extend w [ConsoleError "Error loading state:"
                          (Some (mkThrown true None (Some c)
                                   (c ++ ": open 'scraper-state.json'")%string))])
    | Content data =>
        match JSON.parse data with
        | JSON.Ok loadedState =>
            match asState (withDefaults loadedState) with
            | Some st => (Normal tt, mkWorld st (disk w) (backend w) (trace w))
            | None => (Untyped, w)
            end
        | JSON.SyntaxError =>
            (Normal tt,
             extend w [ConsoleError "Error loading state:"
                         (Some (mkThrown true None None
                                  "Unexpected token in JSON"))])
        | JSON.Unrepresented | JSON.OutOfFuel => (Untyped, w)
        end
    end.
Proof.
  destruct (file (disk w)) as [|c|data] eqn:Hfile.
  - now apply loadState_absent.
  - now apply loadState_unreadable.
  - now apply loadState_content.
Qed.

(** [loadState] leaves the disk alone and throws nothing, and the state
    it leaves depends on the state file and the state before only. *)
Lemma loadState_disk w : disk (snd (loadState w)) = disk w.
Proof.
  rewrite loadState_run.
  destruct (file (disk w)) as [|c|data]; [reflexivity| |].
  - destruct (String.eqb c "ENOENT"); reflexivity.
  - destruct (JSON.parse data) as [v| | |]; try reflexivity.
    destruct (asState (withDefaults v)); reflexivity.
Qed.

Lemma loadState_caught w e : fst (loadState w) <> Throw e.
Proof.
  rewrite loadState_run.
  destruct (file (disk w)) as [|c|data]; [discriminate| |].
  - destruct (String.eqb c "ENOENT"); discriminate.
  - destruct (JSON.parse data) as [v| | |]; try discriminate.
    destruct (asState (withDefaults v)); discriminate.
Qed.

Lemma loadState_state w w' :
  disk w' = disk w -> state w' = state w ->
  state (snd (loadState w')) = state (snd (loadState w)).
Proof.
  intros Hdisk Hstate. rewrite !loadState_run, Hdisk.
  destruct (file (disk w)) as [|c|data]; [exact Hstate| |].
  - destruct (String.eqb c "ENOENT"); exact Hstate.
  - destruct (JSON.parse data) as [v| | |]; try exact Hstate.
    destruct (asState (withDefaults v)); [reflexivity|exact Hstate].
Qed.

Lemma readLines_cons line rest w :
  readLines (line :: rest) w
  = let w' := snd (processCommand line w) in
    if isExitVerb (verbOfLine line)
    then (Normal (Exited 0), extend w' [ConsoleLog goodbye])
    else readLines rest (extend w' [ConsoleLog EmptyString]).
Proof.
  cbn [readLines]. unfold bind at 1.
  pose proof (processCommand_completes line w) as Hfst.
  destruct (processCommand line w) as [completion w'] eqn:Hrun.
  cbn [fst snd] in *. rewrite Hfst.
  destruct (isExitVerb (verbOfLine line)); reflexivity.
Qed.

Lemma isExitVerb_true line :
  verbOfLine line = Some Exit -> isExitVerb (verbOfLine line) = true.
Proof. now intros ->. Qed.

Lemma readLines_after_exit before exitLine after : forall w,
  verbOfLine exitLine = Some Exit ->
  readLines (before ++ exitLine :: after) w
  = readLines (before ++ [exitLine]) w
  /\ fst (readLines (before ++ exitLine :: after) w) = Normal (Exited 0).
Proof.
  induction before as [|line before IH]; intros w Hexit.
  - cbn [app]. rewrite !readLines_cons, (isExitVerb_true _ Hexit).
    split; reflexivity.
  - cbn [app]. rewrite !readLines_cons. cbv zeta.
    destruct (isExitVerb (verbOfLine line)); [split; reflexivity|].
    now apply IH.
Qed.

Lemma main_run key lines w :
  truthy key = true ->
  main (Some key) lines w
  = match loadState w with
    | (Normal _, w') =>
        readLines lines (extend w' [ConsoleClear; ShowWelcomeMessage])
    | (Throw e, w') => (Throw e, w')
    | (Untyped, w') => (Untyped, w')
    end.
Proof.
  intros Hkey. unfold main. cbn [falsy]. rewrite Hkey. cbn [negb].
  unfold bind at 1. destruct (loadState w) as [[[]|e|] w']; try reflexivity.
  unfold bind, emit. now rewrite extend_extend.
Qed.

Lemma readLines_until_exit before exitLine after : forall w,
  Forall (fun line => verbOfLine line <> Some Exit) before ->
  verbOfLine exitLine = Some Exit ->
  fst (readLines (before ++ exitLine :: after) w) = Normal (Exited 0)
  /\ state (snd (readLines (before ++ exitLine :: after) w))
     = afterLines before (state w)
  /\ exists earlier,
       trace (snd (readLines (before ++ exitLine :: after) w))
       = earlier ++ [ConsoleLog goodbye].
Proof.
  induction before as [|line before IH]; intros w Hbefore Hexit.
  - cbn [app]. rewrite readLines_cons, (isExitVerb_true _ Hexit). cbv zeta.
    split; [reflexivity|]. split.
    + cbn [snd extend state afterLines fold_left].
      rewrite processCommand_state. unfold transition. now rewrite Hexit.
    + eexists. reflexivity.
  - inversion Hbefore as [|? ? Hline Hrest]; subst.
    cbn [app]. rewrite readLines_cons. cbv zeta.
    assert (Hno : isExitVerb (verbOfLine line) = false).
    { destruct (verbOfLine line) as [[]|]; try reflexivity. now destruct Hline. }
    rewrite Hno.
    destruct (IH (extend (snd (processCommand line w)) [ConsoleLog EmptyString])
                 Hrest Hexit) as (Hend & Hstate & Htrace).
    split; [exact Hend|]. split; [|exact Htrace].
    rewrite Hstate. cbn [extend state afterLines fold_left].
    now rewrite processCommand_state.
Qed.

(** X26.  [exit] ends a session whose lines are entered one after the
    other, each when the command before it has completed.  With the API
    key set and a state file within the model, [main] run on such lines
    ends at the first [exit] line with exit code 0; the last thing it
    prints is the farewell; the session state is the one the commands
    before that line produce, in their order, from the state that was
    loaded; and the lines after it are not run.  (Lines that arrive
    together are outside the model of [readLines].) *)
Theorem exit_ends_the_session :
  forall key before exitLine after w,
    truthy key = true ->
    fst (loadState w) <> Untyped ->
    Forall (fun line => verbOfLine line <> Some Exit) before ->
    verbOfLine exitLine = Some Exit ->
    let run := main (Some key) (before ++ exitLine :: after) w in
    fst run = Normal (Exited 0)
    /\ state (snd run) = afterLines before (state (snd (loadState w)))
    /\ (exists earlier, trace (snd run) = earlier ++ [ConsoleLog goodbye])
    /\ run = main (Some key) (before ++ [exitLine]) w.
Proof.
  intros key before exitLine after w Hkey Htyped Hbefore Hexit run.
  unfold run. rewrite !(main_run key _ w Hkey).
  pose proof (loadState_caught w) as Hcaught.
  destruct (loadState w) as [[[]|e|] w'];
    [|now destruct (Hcaught e)|now destruct Htyped].
  cbn [snd].
  destruct (readLines_until_exit before exitLine after
              (extend w' [ConsoleClear; ShowWelcomeMessage]) Hbefore Hexit)
    as (Hend & Hstate & Htrace).
  repeat split; [exact Hend|exact Hstate|exact Htrace|].
  apply (readLines_after_exit before exitLine after _ Hexit).
Qed.

Lemma exit_ends_the_session_witness :
  let w := mkWorld initialState
                   (mkDisk (Content (JSON.stringify
                                       (stateToJson (mkState ["a.com"] [] None))))
                           true)
                   Sample.overloaded [] in
  let run :=
    main (Some "key")
         ["add-site b.org a.com"; "remove-site a.com"; "EXIT"; "clear-sites"]
         w in
  fst run = Normal (Exited 0)
  /\ state (snd run) = mkState ["b.org"] [] None.
Proof.
  intros w run.
  assert (Htyped : fst (loadState w) <> Untyped) by discriminate.
  assert (Hbefore : Forall (fun line => verbOfLine line <> Some Exit)
                           ["add-site b.org a.com"; "remove-site a.com"])
    by (repeat constructor; discriminate).
  destruct (exit_ends_the_session "key"
              ["add-site b.org a.com"; "remove-site a.com"] "EXIT"
              ["clear-sites"] w eq_refl Htyped Hbefore eq_refl)
    as (Hend & Hstate & _).
  split; [exact Hend|exact Hstate].
Defined.

Lemma extend_inStep st d w new : inStep st d w -> inStep st d (extend w new).
Proof. intros H. exact H. Qed.

Lemma processCommand_inStep st d line w :
  inStep st d w -> inStep st d (snd (processCommand line w)).
Proof.
  intros [Hwritable Hstep].
  destruct (processCommand_effect line w) as (new & _ & Hrun).
  rewrite Hrun. cbn [snd].
  destruct (transition line (state w)) as [st'|].
  - unfold inStep, persisted, persist. cbn [disk state].
    rewrite Hwritable. split; [reflexivity|now left].
  - now apply extend_inStep.
Qed.

Lemma readLines_inStep st d lines : forall w,
  inStep st d w -> inStep st d (snd (readLines lines w)).
Proof.
  induction lines as [|line lines IH]; intros w Hstep; [exact Hstep|].
  rewrite readLines_cons. cbv zeta.
  pose proof (processCommand_inStep st d line w Hstep) as Hnext.
  destruct (isExitVerb (verbOfLine line)).
  - now apply extend_inStep.
  - now apply IH, extend_inStep.
Qed.

(** X27.  A session resumes where the last one ended.  On a disk that can
    be written, whatever the state file holds at first (nothing, text
    that is not JSON, or a state within the model) and whatever lines are
    entered, the state that the next start of the program loads is the
    state the session ended in. *)
Theorem session_resumes :
  forall key lines w,
    truthy key = true ->
    state w = initialState ->
    writable (disk w) = true ->
    fst (loadState w) <> Untyped ->
    let w1 := snd (main (Some key) lines w) in
    state (snd (loadState (restart w1))) = state w1.
Proof.
  intros key lines w Hkey Hinitial Hwritable Htyped w1.
  assert (Hstep : inStep (state (snd (loadState w))) (disk w) w1).
  { unfold w1. rewrite (main_run key lines w Hkey).
    pose proof (loadState_disk w) as Hdisk.
    pose proof (loadState_caught w) as Hcaught.
    destruct (loadState w) as [[[]|e|] w'];
      [|now destruct (Hcaught e)|now destruct Htyped].
    cbn [fst snd] in *.
    apply readLines_inStep, extend_inStep.
    split; [now rewrite Hdisk|right; split; [reflexivity|exact Hdisk]]. }
  destruct Hstep as [_ [Hpersisted|[Hstate Hdisk]]].
  - now apply loadState_persisted.
  - rewrite Hstate. apply loadState_state; [exact Hdisk|].
    now rewrite Hinitial.
Qed.

Lemma session_resumes_witness :
  let w := mkWorld initialState (mkDisk (Content "{ sites: [") true)
                   Sample.overloaded [] in
  let w1 := snd (main (Some "key")
                      ["add-site a.com b.org"; "remove-site a.com"; "exit"]
                      w) in
  state (snd (loadState (restart w1))) = state w1.
Proof.
  intros w w1.
  assert (Htyped : fst (loadState w) <> Untyped) by discriminate.
  exact (session_resumes "key"
           ["add-site a.com b.org"; "remove-site a.com"; "exit"] w
           eq_refl eq_refl eq_refl Htyped).
Defined.

(* ================================================================== *)
(** * The stored state of the browser variant *)
(* ================================================================== *)

Lemma stringifyCompact_strings l :
  stringifyCompact (JSON.Arr (map JSON.Str l))
  = ("[" ++ join "," (map JSON.quote l) ++ "]")%string.
Proof. cbn [stringifyCompact]. now rewrite map_map. Qed.

Lemma parseElements_compact :
  forall l done fuel rest,
    l <> [] -> length l < fuel ->
    JSON.parseElements fuel done
      (join "," (map JSON.quote l) ++ String "]" rest)
    = JSON.Ok (JSON.Arr (done ++ map JSON.Str l), rest).
Proof.
  induction l as [|x l IH]; intros done fuel rest Hne Hfuel; [contradiction|].
  destruct fuel as [|fuel]; [simpl in Hfuel; lia|].
  cbn [JSON.parseElements].
  destruct fuel as [|fuel]; [simpl in Hfuel; destruct l; simpl in Hfuel; lia|].
  destruct l as [|y l].
  - cbn [map join].
    rewrite (JSONFacts.parseValue_Str fuel _ x (String "]" rest))
      by apply JSONFacts.skipWs_quote.
    reflexivity.
  - change (join "," (map JSON.quote (x :: y :: l)))
      with (JSON.quote x
              ++ String "," (join "," (map JSON.quote (y :: l))))%string.
    rewrite append_assoc.
    change (String "," (join "," (map JSON.quote (y :: l))) ++ String "]" rest)%string
      with (String "," (join "," (map JSON.quote (y :: l)) ++ String "]" rest)).
    rewrite (JSONFacts.parseValue_Str fuel _ x
               (String "," (join "," (map JSON.quote (y :: l))
                              ++ String "]" rest)))
      by apply JSONFacts.skipWs_quote.
    cbn [JSON.andThen snd fst JSON.skipWs].
    change (JSON.isWs ",") with false. cbv beta iota zeta.
    change (nat_of_ascii "," =? 44) with true. cbv iota.
    rewrite IH; [now rewrite <- app_assoc|discriminate|simpl in *; lia].
Qed.

(** [JSON.parse] reads back the array of strings that [JSON.stringify]
    wrote without a gap. *)
Lemma parse_stringifyCompact_strings l :
  JSON.parse (stringifyCompact (JSON.Arr (map JSON.Str l)))
  = JSON.Ok (JSON.Arr (map JSON.Str l)).
Proof.
  rewrite stringifyCompact_strings. unfold JSON.parse.
  set (text := ("[" ++ join "," (map JSON.quote l) ++ "]")%string).
  assert (Hsize : length l + 2 <= String.length text).
  { unfold text. rewrite !length_append.
    pose proof (JSONFacts.length_join_quote "," l). simpl String.length. lia. }
  set (fuel := 2 * String.length text + 2).
  assert (Hfuel : length l + 2 < fuel) by (unfold fuel; lia).
  clearbody fuel. unfold text.
  destruct fuel as [|fuel]; [lia|].
  cbn [JSON.parseValue append JSON.skipWs].
  change (JSON.isWs "[") with false. cbv beta iota zeta.
  change (nat_of_ascii "[" =? 34) with false.
  change (nat_of_ascii "[" =? 91) with true. cbv iota.
  destruct l as [|x l]; [reflexivity|].
  assert (Hhead : exists tail,
             (join "," (map JSON.quote (x :: l)) ++ "]")%string
             = String (ascii_of_nat 34) tail)
    by (destruct l; eexists; reflexivity).
  destruct Hhead as (tail & Htail).
  rewrite Htail. cbn [JSON.skipWs].
  change (JSON.isWs (ascii_of_nat 34)) with false. cbv iota.
  change (nat_of_ascii (ascii_of_nat 34) =? 93) with false. cbv iota.
  rewrite <- Htail.
  rewrite (parseElements_compact (x :: l) [] fuel EmptyString)
    by (try discriminate; simpl in *; lia).
  reflexivity.
Qed.

Lemma initialList_stored l :
  initialList (Some (stringifyCompact (JSON.Arr (map JSON.Str l)))) = Normal l.
Proof.
  unfold initialList.
  rewrite parse_stringifyCompact_strings. cbn [asStringArray].
  rewrite asStrings_Str. reflexivity.
Qed.

(** X28.  Reloading the page brings the session state back: from what the
    three effects left in [localStorage] for any two lists and any
    non-empty morning query, the initialisers of the component give these
    lists and this query again. *)
Theorem WebApp_reload_restores_state :
  forall ss es q,
    truthy q = true ->
    initialStateFrom (stored ss es q) = Normal (mkState ss es (Some q)).
Proof.
  intros ss es q Hq. unfold initialStateFrom, stored.
  cbn [scraperSites scraperExcludedSites scraperMorningQuery].
  rewrite !initialList_stored. cbn [WebApp.initialMorningQuery].
  now rewrite Hq.
Qed.

Lemma WebApp_reload_restores_state_witness :
  initialStateFrom (stored ["rocq-prover.org"; "a \ b"] [] "any news?")
  = Normal (mkState ["rocq-prover.org"; "a \ b"] [] (Some "any news?")).
Proof.
  exact (WebApp_reload_restores_state ["rocq-prover.org"; "a \ b"] []
           "any news?" eq_refl).
Defined.
